(** * The change-commit engine and the footprint list of KiCad

    A shallow embedding of [include/commit.h]: the [CHANGE_TYPE] bit mask
    and the [COMMIT] transaction class, followed by the footprint list
    implementation ([FOOTPRINT_LIST_IMPL]) that the same file carries.

    Pointers to items are addresses in [N] (the null pointer is [0]); an
    [int] is a [Z] whose 32-bit wrap-around is written out; [std::set] is a
    [gset], [std::vector] and the synchronised queues are lists. *)

From Stdlib Require Import ZArith List Lia Bool DecimalString.
From stdpp Require Import base gmap sets list strings.

Open Scope Z_scope.

(* ===================================================================== *)
(** * Part I: definitions                                                 *)
(* ===================================================================== *)

(** ** Machine integers *)

(** The value of a mathematical integer once stored in a 32-bit [int]. *)
Definition to_int (z : Z) : Z := (z + 2 ^ 31) mod 2 ^ 32 - 2 ^ 31.

(** The value of an [int] converted to [unsigned]. *)
Definition to_unsigned (z : Z) : Z := z mod 2 ^ 32.

Definition is_int (z : Z) : Prop := - 2 ^ 31 <= z < 2 ^ 31.

Module Commit.

(** ** [enum CHANGE_TYPE] *)

(** The enumeration has no fixed underlying type and the overloaded
    operators build values such as [CHT_ADD | CHT_DONE] that are not
    enumerators, so a [CHANGE_TYPE] is represented by its integer value. *)
Definition CHANGE_TYPE := Z.

Definition CHT_ADD : CHANGE_TYPE := 1.
Definition CHT_REMOVE : CHANGE_TYPE := 2.
Definition CHT_MODIFY : CHANGE_TYPE := 4.
Definition CHT_TYPE : CHANGE_TYPE :=
  Z.lor (Z.lor CHT_ADD CHT_REMOVE) CHT_MODIFY.
Definition CHT_DONE : CHANGE_TYPE := 8.
Definition CHT_FLAGS : CHANGE_TYPE := CHT_DONE.

(** [operator|( CHANGE_TYPE aTypeA, T aTypeB )]: both operands are cast to
    [int], combined, and the result is converted back. *)
Definition operator_or (aTypeA : CHANGE_TYPE) (aTypeB : Z) : CHANGE_TYPE :=
  Z.lor (to_int aTypeA) (to_int aTypeB).

(** [operator&( CHANGE_TYPE aTypeA, T aTypeB )]. *)
Definition operator_and (aTypeA : CHANGE_TYPE) (aTypeB : Z) : CHANGE_TYPE :=
  Z.land (to_int aTypeA) (to_int aTypeB).

Infix ".|" := operator_or (at level 50, left associativity).
Infix ".&" := operator_and (at level 40, left associativity).

(** ** Items and the model binding *)

(** [EDA_ITEM*]: the identity of an item. *)
Definition EDA_ITEM_ptr := N.
Definition nullptr : EDA_ITEM_ptr := 0%N.

(** What a concrete commit supplies: the state an item holds ([EDA_ITEM],
    an opaque class here), the pure virtual [parentObject], and the copy
    of an item's present state that a snapshot is made of. *)
Class BINDING := {
  EDA_ITEM : Type;
  parentObject : EDA_ITEM_ptr -> EDA_ITEM_ptr;
  Clone : EDA_ITEM_ptr -> EDA_ITEM
}.

Section Engine.
Context `{B : BINDING}.

(** ** [struct COMMIT_LINE] and the members of [COMMIT] *)

Record COMMIT_LINE := {
  m_item : EDA_ITEM_ptr;     (* main item that is added/deleted/modified *)
  m_copy : option EDA_ITEM;  (* optional copy of the item; [None] is null *)
  m_type : CHANGE_TYPE       (* modification type *)
}.

Record COMMIT := {
  m_changedItems : gset N;          (* std::set<EDA_ITEM*> *)
  m_changes : list COMMIT_LINE      (* std::vector<COMMIT_LINE> *)
}.

(** [COMMIT::COMMIT()]: both containers start empty. *)
Definition COMMIT_new : COMMIT :=
  {| m_changedItems := ∅; m_changes := [] |}.

(** [bool Empty() const]. *)
Definition Empty (c : COMMIT) : bool :=
  match m_changes c with [] => true | _ => false end.

(** [void clear()]: "should be called in Push() & Revert() methods". *)
Definition clear (c : COMMIT) : COMMIT :=
  {| m_changedItems := ∅; m_changes := [] |}.

(** *** The inline members of the class *)

Section Chain.
(** [Stage( EDA_ITEM*, CHANGE_TYPE )] is virtual and [createModified] is
    defined elsewhere: the inline members are written over whatever
    implementation the object carries. *)
Variable Stage : COMMIT -> EDA_ITEM_ptr -> CHANGE_TYPE -> COMMIT.
Variable createModified : COMMIT -> EDA_ITEM_ptr -> EDA_ITEM -> Z -> COMMIT.

(** "Add a new item to the model". *)
Definition Add_with (c : COMMIT) (aItem : EDA_ITEM_ptr) : COMMIT :=
  Stage c aItem CHT_ADD.

(** "Notify observers that aItem has been added". *)
Definition Added_with (c : COMMIT) (aItem : EDA_ITEM_ptr) : COMMIT :=
  Stage c aItem (CHT_ADD .| CHT_DONE).

(** "Remove a new item from the model". *)
Definition Remove_with (c : COMMIT) (aItem : EDA_ITEM_ptr) : COMMIT :=
  Stage c aItem CHT_REMOVE.

(** "Notify observers that aItem has been removed". *)
Definition Removed_with (c : COMMIT) (aItem : EDA_ITEM_ptr) : COMMIT :=
  Stage c aItem (CHT_REMOVE .| CHT_DONE).

(** "Modify a given item in the model. Must be called before modification
    is performed." *)
Definition Modify_with (c : COMMIT) (aItem : EDA_ITEM_ptr) : COMMIT :=
  Stage c aItem CHT_MODIFY.

(** "Create an undo entry for an item that has been already modified." *)
Definition Modified_with (c : COMMIT) (aItem : EDA_ITEM_ptr)
    (aCopy : EDA_ITEM) : COMMIT :=
  createModified c aItem aCopy 0.

(** [StageItems( const Range& aRange, CHANGE_TYPE aChangeType )]. *)
Definition StageItems_with (c : COMMIT) (aRange : list EDA_ITEM_ptr)
    (aChangeType : CHANGE_TYPE) : COMMIT :=
  fold_left (fun c item => Stage c item aChangeType) aRange c.

End Chain.

(** *** The members defined outside the header *)

(** Kind and flag parts of a change type. *)
Definition kind_of (t : CHANGE_TYPE) : CHANGE_TYPE := t .& CHT_TYPE.
Definition flags_of (t : CHANGE_TYPE) : CHANGE_TYPE := t .& CHT_FLAGS.

(** Modelled from the spec: the validity of a change type (section 3):
    exactly one of the kind bits ADD, REMOVE, MODIFY is set, and DONE is
    invalid combined with MODIFY. *)
Definition valid_type (t : CHANGE_TYPE) : bool :=
  ((kind_of t =? CHT_ADD) || (kind_of t =? CHT_REMOVE)
   || (kind_of t =? CHT_MODIFY))
  && negb ((kind_of t =? CHT_MODIFY) && (flags_of t =? CHT_DONE)).

(** Modelled from the spec: [COMMIT::findEntry], declared in the header and
    defined in commit.cpp, which is not among the sources. Section 4.1: a
    lookup by item identity that "returns a not found sentinel rather than
    failing"; the header: "return null if there is no related entry". *)
Definition findEntry (c : COMMIT) (aItem : EDA_ITEM_ptr)
    : option COMMIT_LINE :=
  List.find (fun e => N.eqb (m_item e) aItem) (m_changes c).

(** Modelled from the spec: [COMMIT::makeEntry], defined in commit.cpp.
    Merge table, row "none | any | new record created": the record goes to
    the end of the sequence (insertion order is preserved) and the item
    into the set of staged identities. *)
Definition makeEntry (c : COMMIT) (aItem : EDA_ITEM_ptr)
    (aType : CHANGE_TYPE) (aCopy : option EDA_ITEM) : COMMIT :=
  {| m_changedItems := {[ aItem ]} ∪ m_changedItems c;
     m_changes := m_changes c ++
       [ {| m_item := aItem; m_copy := aCopy; m_type := aType |} ] |}.

(** Modelled from the spec: the deletion of a record ("record is deleted
    entirely"), from the sequence and from the set. *)
Definition eraseEntry (c : COMMIT) (aItem : EDA_ITEM_ptr) : COMMIT :=
  {| m_changedItems := m_changedItems c ∖ {[ aItem ]};
     m_changes :=
       List.filter (fun e => negb (N.eqb (m_item e) aItem)) (m_changes c) |}.

(** Modelled from the spec: the replacement of a record in place ("record
    becomes REMOVE"); its position in the sequence is kept. *)
Definition replaceEntry (c : COMMIT) (aItem : EDA_ITEM_ptr)
    (ent : COMMIT_LINE) : COMMIT :=
  {| m_changedItems := m_changedItems c;
     m_changes :=
       List.map (fun e => if N.eqb (m_item e) aItem then ent else e)
                (m_changes c) |}.

(** Modelled from the spec: the staging and merge algebra of section 4.1,
    which commit.cpp implements and the sources do not include. A type that
    is not valid is rejected. An item without a record gets a new one.
    Otherwise the merge table applies to the kind of the existing record
    and the kind staged now:
    - REMOVE, any: the REMOVE record is kept and the new change ignored;
    - ADD, REMOVE: the record is deleted entirely;
    - ADD, MODIFY: the record stays ADD;
    - MODIFY, MODIFY: the record stays MODIFY with the original snapshot;
    - MODIFY, REMOVE: the record becomes REMOVE and the snapshot is dropped,
      its DONE flag being the union of the old one and the new one.
    The table has no row for ADD staged onto an existing record; the record
    is left as it is. *)
Definition stage (c : COMMIT) (aItem : EDA_ITEM_ptr) (aType : CHANGE_TYPE)
    (aCopy : option EDA_ITEM) : COMMIT :=
  if negb (valid_type aType) then c
  else
    match findEntry c aItem with
    | None => makeEntry c aItem (kind_of aType .| flags_of aType) aCopy
    | Some e =>
        let old := kind_of (m_type e) in
        let new := kind_of aType in
        if old =? CHT_REMOVE then c
        else if (old =? CHT_ADD) && (new =? CHT_REMOVE) then
          eraseEntry c aItem
        else if (old =? CHT_ADD) && (new =? CHT_MODIFY) then c
        else if (old =? CHT_MODIFY) && (new =? CHT_MODIFY) then c
        else if (old =? CHT_MODIFY) && (new =? CHT_REMOVE) then
          replaceEntry c aItem
            {| m_item := aItem; m_copy := None;
               m_type := CHT_REMOVE .| flags_of (m_type e)
                                    .| flags_of aType |}
        else c
    end.

(** Modelled from the spec: [COMMIT::Stage( EDA_ITEM*, CHANGE_TYPE )],
    declared virtual in the header and defined in commit.cpp. "Records that
    item undergoes changeType"; a MODIFY takes its "before" snapshot from
    the present state of the item, other kinds carry none. The engine is
    returned, so that calls chain. *)
Definition Stage (c : COMMIT) (aItem : EDA_ITEM_ptr)
    (aChangeType : CHANGE_TYPE) : COMMIT :=
  stage c aItem aChangeType
    (if kind_of aChangeType =? CHT_MODIFY then Some (Clone aItem) else None).

(** Modelled from the spec: [COMMIT::createModified] (the spec's
    [StageModified]), defined in commit.cpp: "item already changed in
    memory, here is the snapshot taken immediately beforehand". *)
Definition createModified (c : COMMIT) (aItem : EDA_ITEM_ptr)
    (aCopy : EDA_ITEM) (aExtraFlags : Z) : COMMIT :=
  stage c aItem (CHT_MODIFY .| aExtraFlags) (Some aCopy).

(** Modelled from the spec: [COMMIT::GetStatus], defined in commit.cpp:
    "returns the current merged Change Type bitmask for item, or a no
    change staged sentinel (0) if absent". *)
Definition GetStatus (c : COMMIT) (aItem : EDA_ITEM_ptr) : Z :=
  match findEntry c aItem with
  | Some entry => to_int (m_type entry)
  | None => 0
  end.

(** The members of the class as the program has them. *)
Definition Add := Add_with Stage.
Definition Added := Added_with Stage.
Definition Remove := Remove_with Stage.
Definition Removed := Removed_with Stage.
Definition Modify := Modify_with Stage.
Definition Modified := Modified_with createModified.
Definition StageItems := StageItems_with Stage.

(** *** Push and Revert *)

(** The calls a commit makes on its collaborators (section 6): the model
    binding ([insert], [remove], restoring a snapshot), the observer sink
    ([notify]) and the undo/redo subsystem. *)
Inductive CALL :=
| ModelInsert (item : EDA_ITEM_ptr)
| ModelRemove (item : EDA_ITEM_ptr)
| ModelRestore (item : EDA_ITEM_ptr) (snapshot : EDA_ITEM)
| Notify (kind : CHANGE_TYPE) (item : EDA_ITEM_ptr)
| UndoEntry (aMessage : string) (records : list COMMIT_LINE)
| SetDirty
| UpdateDerived (items : list EDA_ITEM_ptr).

(** The items a call is about. *)
Definition call_items (e : CALL) : list EDA_ITEM_ptr :=
  match e with
  | ModelInsert i | ModelRemove i | ModelRestore i _ | Notify _ i => [i]
  | UndoEntry _ records => List.map m_item records
  | SetDirty => []
  | UpdateDerived items => items
  end.

(** Modelled from the spec: what [Push] does for one record (section 4.2,
    steps 2 to 4): a record without DONE has its mutation applied, ADD by
    an insertion and REMOVE by a removal, MODIFY leaving the item as it is;
    a DONE record skips the mutation; a notification follows. *)
Definition push_line (ent : COMMIT_LINE) : list CALL :=
  (if flags_of (m_type ent) =? CHT_DONE then []
   else if kind_of (m_type ent) =? CHT_ADD then [ModelInsert (m_item ent)]
   else if kind_of (m_type ent) =? CHT_REMOVE then [ModelRemove (m_item ent)]
   else [])
  ++ [Notify (kind_of (m_type ent)) (m_item ent)].

(** Modelled from the spec: [Push], pure virtual in the header; the spec
    gives its contract in section 4.2. An empty ledger returns at once;
    otherwise the records are walked in insertion order, the undo entry is
    built from the whole ordered list when asked for, the document is
    marked modified and the derived state updated when asked for, and the
    ledger is cleared. *)
Definition Push (c : COMMIT) (aMessage : string)
    (aCreateUndoEntry aSetDirtyBit aUpdateConnectivity : bool)
    : list CALL * COMMIT :=
  if Empty c then ([], c)
  else
    (List.concat (List.map push_line (m_changes c))
     ++ (if aCreateUndoEntry then [UndoEntry aMessage (m_changes c)] else [])
     ++ (if aSetDirtyBit then [SetDirty] else [])
     ++ (if aUpdateConnectivity
         then [UpdateDerived (List.map m_item (m_changes c))] else []),
     clear c).

(** Modelled from the spec: what [Revert] does for one record: "restore
    MODIFY items from their before snapshot, remove ADD items from the
    model, restore REMOVE items to the model". *)
Definition revert_line (ent : COMMIT_LINE) : list CALL :=
  if kind_of (m_type ent) =? CHT_MODIFY then
    match m_copy ent with
    | Some snapshot => [ModelRestore (m_item ent) snapshot]
    | None => []
    end
  else if kind_of (m_type ent) =? CHT_ADD then [ModelRemove (m_item ent)]
  else if kind_of (m_type ent) =? CHT_REMOVE then [ModelInsert (m_item ent)]
  else [].

(** Modelled from the spec: [Revert], pure virtual in the header: the
    records are undone in insertion order and the ledger is cleared; no
    undo record is produced. *)
Definition Revert (c : COMMIT) : list CALL * COMMIT :=
  (List.concat (List.map revert_line (m_changes c)), clear c).

(** *** The ledger invariant *)

(** "At most one Change Record per item identity at any time; the set and
    the sequence are always in 1:1 correspondence by item identity." *)
Definition ledger_inv (c : COMMIT) : Prop :=
  NoDup (List.map m_item (m_changes c))
  /\ forall i : EDA_ITEM_ptr,
       i ∈ m_changedItems c <-> In i (List.map m_item (m_changes c)).

(** A transaction: a sequence of staging requests on an engine. *)
Inductive REQUEST :=
| ReqStage (aItem : EDA_ITEM_ptr) (aChangeType : CHANGE_TYPE)
| ReqModified (aItem : EDA_ITEM_ptr) (aCopy : EDA_ITEM).

Definition request_item (r : REQUEST) : EDA_ITEM_ptr :=
  match r with ReqStage i _ | ReqModified i _ => i end.

Definition request (c : COMMIT) (r : REQUEST) : COMMIT :=
  match r with
  | ReqStage i t => Stage c i t
  | ReqModified i copy => Modified c i copy
  end.

Definition requests (c : COMMIT) (rs : list REQUEST) : COMMIT :=
  fold_left request rs c.

(** The types a record can carry: ADD, REMOVE, MODIFY, ADD with DONE and
    REMOVE with DONE. *)
Definition record_types : list CHANGE_TYPE := [1; 2; 4; 9; 10].

Definition types_ok (c : COMMIT) : Prop :=
  Forall (fun e => In (m_type e) record_types) (m_changes c).

End Engine.

(** A binding to run the engine on: an item holds a number, has no parent,
    and the item at address [i] presently holds [100 * i]. *)
Definition sample_binding : BINDING :=
  {| EDA_ITEM := Z;
     parentObject := fun _ => nullptr;
     Clone := fun i => 100 * Z.of_N i |}.

(** A snapshot of an item of that binding. *)
Definition sample_snapshot : @EDA_ITEM sample_binding := 55.

(** An implementation of the virtual [Stage] that only records its calls,
    one record for each, in the order they are made. *)
Definition logging_Stage `{B : BINDING} (c : COMMIT) (aItem : EDA_ITEM_ptr)
    (aChangeType : CHANGE_TYPE) : COMMIT :=
  {| m_changedItems := m_changedItems c;
     m_changes := m_changes c
       ++ [ {| m_item := aItem; m_copy := None; m_type := aChangeType |} ] |}.

End Commit.

Module Footprint.

(** ** Strings, exceptions and results *)

Definition wxString := string.

(** An [IO_ERROR] carries the text of the problem. *)
Record IO_ERROR := { Problem : wxString }.

(** What a C++ function can throw, as far as the handlers of this file
    tell the cases apart: an [IO_ERROR], a [std::exception] with its
    [what()], or something that is neither. *)
Inductive exception :=
| throw_IO_ERROR (ioe : IO_ERROR)
| throw_std_exception (what : wxString)
| throw_other.

(** A call either returns or throws. *)
Inductive outcome (A : Type) :=
| Returns (a : A)
| Throws (e : exception).
Arguments Returns {A} a.
Arguments Throws {A} e.

(** ** [FOOTPRINT_INFO] *)

Record FOOTPRINT_INFO := {
  m_nickname : wxString;       (* library nickname *)
  m_fpname : wxString;         (* item name *)
  m_doc : wxString;            (* description *)
  m_keywords : wxString;
  m_num : Z;                   (* int: order number *)
  m_pad_count : Z;             (* unsigned *)
  m_unique_pad_count : Z;      (* unsigned *)
  m_loaded : bool
}.

(** "A constructor for cached items": the seven-argument constructor of
    [FOOTPRINT_INFO_IMPL] stores its arguments; the item counts as loaded. *)
Definition FOOTPRINT_INFO_IMPL (aNickname aFootprintName aDescription
    aKeywords : wxString) (aOrderNum aPadCount aUniquePadCount : Z)
    : FOOTPRINT_INFO :=
  {| m_nickname := aNickname; m_fpname := aFootprintName;
     m_doc := aDescription; m_keywords := aKeywords;
     m_num := aOrderNum; m_pad_count := aPadCount;
     m_unique_pad_count := aUniquePadCount; m_loaded := true |}.

(** The accessors of [FOOTPRINT_INFO]. *)
Definition GetLibNickname := m_nickname.
Definition GetName := m_fpname.
Definition GetDescription := m_doc.
Definition GetKeywords := m_keywords.
Definition GetOrderNum := m_num.
Definition GetPadCount := m_pad_count.
Definition GetUniquePadCount := m_unique_pad_count.

(** ** What the file takes from elsewhere *)

(** The only escape context this file uses. *)
Inductive ESCAPE_CONTEXT := CTX_LINE.

(** Functions, macros and constants that the file uses and does not
    define: the [IO_ERROR] that the macro [THROW_IO_ERROR( msg )] of
    ki_exception.h makes of a message and throws, [EscapeString] and
    [UnescapeString] (string_utils), the conversions of wxWidgets, the
    order [std::sort] sorts the list by, and the numbers of threads.
    [UnescapeString] may throw, as any call inside the [try] block of
    [ReadCacheFromFile] may. [ToLongLong] takes the string and the present
    content of the location it writes to, and gives its boolean result and
    the new content of that location. *)
Class EXTERNALS := {
  make_IO_ERROR : wxString -> IO_ERROR;
  EscapeString : wxString -> ESCAPE_CONTEXT -> wxString;
  UnescapeString : wxString -> outcome wxString;
  wxAtoi : wxString -> Z;
  ToLongLong : wxString -> Z -> bool * Z;
  Format_lld : Z -> wxString;      (* wxString::Format( "%lld", _ ) *)
  Format_d : Z -> wxString;        (* wxString::Format( "%d", _ ) *)
  Format_u : Z -> wxString;        (* wxString::Format( "%u", _ ) *)
  std_sort : list FOOTPRINT_INFO -> list FOOTPRINT_INFO;
  DEFAULT_THREADS : nat;
  hardware_concurrency : nat
}.

(** [FP_LIB_TABLE], by the member functions the file calls.
    [FootprintEnumerate] fills the array it is given and may throw after
    having filled a part of it. The last member is the three-argument
    constructor [FOOTPRINT_INFO_IMPL( this, nickname, fpname )], which
    loads the footprint from the table and may throw. *)
Record FP_LIB_TABLE := {
  GenerateTimestamp : option wxString -> Z;
  GetLogicalLibs : list wxString;
  PrefetchLib : wxString -> outcome unit;
  FootprintEnumerate : wxString -> list wxString * option exception;
  new_FOOTPRINT_INFO_IMPL : wxString -> wxString -> outcome FOOTPRINT_INFO
}.

(** ** The members of [FOOTPRINT_LIST_IMPL] *)

Record FOOTPRINT_LIST_IMPL := {
  m_list : list FOOTPRINT_INFO;
  m_errors : list IO_ERROR;          (* SYNC_QUEUE of errors *)
  m_list_timestamp : Z;              (* long long *)
  m_cancelled : bool;
  m_count_finished : Z;              (* std::atomic_size_t *)
  m_queue_in : list wxString;        (* SYNC_QUEUE<wxString> *)
  m_queue_out : list wxString;       (* SYNC_QUEUE<wxString> *)
  m_threads : nat;                   (* the number of worker threads held *)
  m_total_libs : Z;                  (* m_loader->m_total_libs, an int *)
  m_progress_reporter : bool;        (* whether the pointer is not null *)
  queue_parsed : list FOOTPRINT_INFO (* the local queue of [joinWorkers],
                                        which its threads share *)
}.

(** [FOOTPRINT_LIST_IMPL::FOOTPRINT_LIST_IMPL()]. *)
Definition FOOTPRINT_LIST_IMPL_new : FOOTPRINT_LIST_IMPL :=
  {| m_list := []; m_errors := []; m_list_timestamp := 0;
     m_cancelled := false; m_count_finished := 0; m_queue_in := [];
     m_queue_out := []; m_threads := 0%nat; m_total_libs := 0;
     m_progress_reporter := false; queue_parsed := [] |}.

Definition set_list (v : list FOOTPRINT_INFO) (st : FOOTPRINT_LIST_IMPL) :=
  {| m_list := v; m_errors := m_errors st;
     m_list_timestamp := m_list_timestamp st; m_cancelled := m_cancelled st;
     m_count_finished := m_count_finished st; m_queue_in := m_queue_in st;
     m_queue_out := m_queue_out st; m_threads := m_threads st;
     m_total_libs := m_total_libs st;
     m_progress_reporter := m_progress_reporter st;
     queue_parsed := queue_parsed st |}.

Definition set_errors (v : list IO_ERROR) (st : FOOTPRINT_LIST_IMPL) :=
  {| m_list := m_list st; m_errors := v;
     m_list_timestamp := m_list_timestamp st; m_cancelled := m_cancelled st;
     m_count_finished := m_count_finished st; m_queue_in := m_queue_in st;
     m_queue_out := m_queue_out st; m_threads := m_threads st;
     m_total_libs := m_total_libs st;
     m_progress_reporter := m_progress_reporter st;
     queue_parsed := queue_parsed st |}.

Definition set_list_timestamp (v : Z) (st : FOOTPRINT_LIST_IMPL) :=
  {| m_list := m_list st; m_errors := m_errors st;
     m_list_timestamp := v; m_cancelled := m_cancelled st;
     m_count_finished := m_count_finished st; m_queue_in := m_queue_in st;
     m_queue_out := m_queue_out st; m_threads := m_threads st;
     m_total_libs := m_total_libs st;
     m_progress_reporter := m_progress_reporter st;
     queue_parsed := queue_parsed st |}.

Definition set_cancelled (v : bool) (st : FOOTPRINT_LIST_IMPL) :=
  {| m_list := m_list st; m_errors := m_errors st;
     m_list_timestamp := m_list_timestamp st; m_cancelled := v;
     m_count_finished := m_count_finished st; m_queue_in := m_queue_in st;
     m_queue_out := m_queue_out st; m_threads := m_threads st;
     m_total_libs := m_total_libs st;
     m_progress_reporter := m_progress_reporter st;
     queue_parsed := queue_parsed st |}.

Definition set_count_finished (v : Z) (st : FOOTPRINT_LIST_IMPL) :=
  {| m_list := m_list st; m_errors := m_errors st;
     m_list_timestamp := m_list_timestamp st; m_cancelled := m_cancelled st;
     m_count_finished := v; m_queue_in := m_queue_in st;
     m_queue_out := m_queue_out st; m_threads := m_threads st;
     m_total_libs := m_total_libs st;
     m_progress_reporter := m_progress_reporter st;
     queue_parsed := queue_parsed st |}.

Definition set_queue_in (v : list wxString) (st : FOOTPRINT_LIST_IMPL) :=
  {| m_list := m_list st; m_errors := m_errors st;
     m_list_timestamp := m_list_timestamp st; m_cancelled := m_cancelled st;
     m_count_finished := m_count_finished st; m_queue_in := v;
     m_queue_out := m_queue_out st; m_threads := m_threads st;
     m_total_libs := m_total_libs st;
     m_progress_reporter := m_progress_reporter st;
     queue_parsed := queue_parsed st |}.

Definition set_queue_out (v : list wxString) (st : FOOTPRINT_LIST_IMPL) :=
  {| m_list := m_list st; m_errors := m_errors st;
     m_list_timestamp := m_list_timestamp st; m_cancelled := m_cancelled st;
     m_count_finished := m_count_finished st; m_queue_in := m_queue_in st;
     m_queue_out := v; m_threads := m_threads st;
     m_total_libs := m_total_libs st;
     m_progress_reporter := m_progress_reporter st;
     queue_parsed := queue_parsed st |}.

Definition set_threads (v : nat) (st : FOOTPRINT_LIST_IMPL) :=
  {| m_list := m_list st; m_errors := m_errors st;
     m_list_timestamp := m_list_timestamp st; m_cancelled := m_cancelled st;
     m_count_finished := m_count_finished st; m_queue_in := m_queue_in st;
     m_queue_out := m_queue_out st; m_threads := v;
     m_total_libs := m_total_libs st;
     m_progress_reporter := m_progress_reporter st;
     queue_parsed := queue_parsed st |}.

Definition set_total_libs (v : Z) (st : FOOTPRINT_LIST_IMPL) :=
  {| m_list := m_list st; m_errors := m_errors st;
     m_list_timestamp := m_list_timestamp st; m_cancelled := m_cancelled st;
     m_count_finished := m_count_finished st; m_queue_in := m_queue_in st;
     m_queue_out := m_queue_out st; m_threads := m_threads st;
     m_total_libs := v;
     m_progress_reporter := m_progress_reporter st;
     queue_parsed := queue_parsed st |}.

Definition set_progress_reporter (v : bool) (st : FOOTPRINT_LIST_IMPL) :=
  {| m_list := m_list st; m_errors := m_errors st;
     m_list_timestamp := m_list_timestamp st; m_cancelled := m_cancelled st;
     m_count_finished := m_count_finished st; m_queue_in := m_queue_in st;
     m_queue_out := m_queue_out st; m_threads := m_threads st;
     m_total_libs := m_total_libs st;
     m_progress_reporter := v; queue_parsed := queue_parsed st |}.

Definition set_queue_parsed (v : list FOOTPRINT_INFO)
    (st : FOOTPRINT_LIST_IMPL) :=
  {| m_list := m_list st; m_errors := m_errors st;
     m_list_timestamp := m_list_timestamp st; m_cancelled := m_cancelled st;
     m_count_finished := m_count_finished st; m_queue_in := m_queue_in st;
     m_queue_out := m_queue_out st; m_threads := m_threads st;
     m_total_libs := m_total_libs st;
     m_progress_reporter := m_progress_reporter st; queue_parsed := v |}.

(** The value of an integer once stored in a [size_t] of 64 bits. *)
Definition to_size_t (z : Z) : Z := z mod 2 ^ 64.

(** [m_errors.move_push( std::make_unique<IO_ERROR>( ioe ) )]. *)
Definition push_error (ioe : IO_ERROR) (st : FOOTPRINT_LIST_IMPL) :=
  set_errors (m_errors st ++ [ioe]) st.

(** [m_count_finished.fetch_add( 1 )]. *)
Definition fetch_add_finished (st : FOOTPRINT_LIST_IMPL) :=
  set_count_finished (to_size_t (m_count_finished st + 1)) st.

(** Code that runs on the state of the list and may throw: the state
    reached is kept when it does. *)
Definition THROWING (A : Type) : Type :=
  FOOTPRINT_LIST_IMPL -> outcome A * FOOTPRINT_LIST_IMPL.

Section WithExternals.
Context `{X : EXTERNALS}.

(** What [THROW_IO_ERROR( msg )] throws. *)
Definition THROW_IO_ERROR (msg : wxString) : exception :=
  throw_IO_ERROR (make_IO_ERROR msg).

(** ** Catching errors and the loader threads *)

(** [bool CatchErrors( const std::function<void()>& aFunc )]. An
    [IO_ERROR] is put on the list of errors; a [std::exception] is turned
    into an [IO_ERROR] by throwing one from its [what()] and catching it;
    anything else is not caught. *)
Definition CatchErrors (aFunc : THROWING unit) : THROWING bool := fun st =>
  match aFunc st with
  | (Returns _, st') => (Returns true, st')
  | (Throws (throw_IO_ERROR ioe), st') => (Returns false, push_error ioe st')
  | (Throws (throw_std_exception what), st') =>
      match THROW_IO_ERROR what with
      | throw_IO_ERROR ioe => (Returns false, push_error ioe st')
      | e => (Throws e, st')
      end
  | (Throws throw_other, st') => (Throws throw_other, st')
  end.

(** The function that [loader_job] hands to [CatchErrors]:
    [m_lib_table->PrefetchLib( nickname ); m_queue_out.push( nickname );].
    [m_lib_table] is the table [startWorkers] was given; it is passed
    along. *)
Definition prefetch (aTable : FP_LIB_TABLE) (nickname : wxString)
    : THROWING unit := fun st =>
  match PrefetchLib aTable nickname with
  | Returns _ => (Returns tt, set_queue_out (m_queue_out st ++ [nickname]) st)
  | Throws e => (Throws e, st)
  end.

(** One round of the [while] loop of [loader_job]: the condition
    [m_queue_in.pop( nickname ) && !m_cancelled], then the body. The
    boolean tells whether the loop goes on. The calls on the progress
    reporter do not touch the list and are left out. *)
Definition loader_job_round (aTable : FP_LIB_TABLE) : THROWING bool :=
  fun st =>
  match m_queue_in st with
  | [] => (Returns false, st)
  | nickname :: rest =>
      let st := set_queue_in rest st in
      if m_cancelled st then (Returns false, st)
      else
        match CatchErrors (prefetch aTable nickname) st with
        | (Throws e, st') => (Throws e, st')
        | (Returns _, st') => (Returns true, fetch_add_finished st')
        end
  end.

(** A [while] loop given by its round, run for at most [fuel] rounds. *)
Fixpoint loop_rounds (round : THROWING bool) (fuel : nat) : THROWING unit :=
  fun st =>
  match fuel with
  | O => (Returns tt, st)
  | S fuel' =>
      match round st with
      | (Returns true, st') => loop_rounds round fuel' st'
      | (Returns false, st') => (Returns tt, st')
      | (Throws e, st') => (Throws e, st')
      end
  end.

(** [void FOOTPRINT_LIST_IMPL::loader_job()], run by one thread alone. Each
    round that goes on takes a nickname off the input queue, so one round
    more than the queue is long ends the loop. *)
Definition loader_job (aTable : FP_LIB_TABLE) : THROWING unit := fun st =>
  loop_rounds (loader_job_round aTable) (S (length (m_queue_in st))) st.

(** ** Threads *)

(** The threads of a pool share the queues, the counter, the flag and the
    list of errors, and each access to one of these is synchronised on its
    own. [pool_advance round jobs] is the pool completing [jobs] rounds of
    the loop one after the other, each round whole and the queue taken in
    its order, unless the loop ends before: these are the runs in which no
    two threads are inside a round at the same time. The runs in which the
    rounds of the threads overlap, so that libraries are finished in
    another order than they were queued, are those of [run_moves] below;
    what depends on that order, or on what a thread does once the flag is
    set, is stated there. *)
Definition pool_advance (round : THROWING bool) (jobs : nat)
    : THROWING unit :=
  loop_rounds round jobs.

(** The loader threads advance only if there are any. *)
Definition loaders_advance (aTable : FP_LIB_TABLE) (jobs : nat)
    : THROWING unit := fun st =>
  if (m_threads st =? 0)%nat then (Returns tt, st)
  else pool_advance (loader_job_round aTable) jobs st.

(** [for( auto& i : threads ) i.join();], taken when no thread is inside
    a round of its loop: every thread runs its function to the end, one
    after the other. The join entered while threads are inside a round is
    that of [caller_move] below. *)
Fixpoint join_threads (job : THROWING unit) (threads : nat)
    : THROWING unit := fun st =>
  match threads with
  | O => (Returns tt, st)
  | S threads' =>
      match job st with
      | (Returns _, st') => join_threads job threads' st'
      | (Throws e, st') => (Throws e, st')
      end
  end.

(** What the thread that waits sees of the others: how many rounds the
    pool has completed before the first look at the counter, and for each
    round of the waiting loop the rounds completed meanwhile and the answer
    of [KeepRefreshing] (asked only when there is a reporter). *)
Record ROUND := {
  finished_meanwhile : nat;
  KeepRefreshing : bool
}.

Record SCHEDULE := {
  finished_at_first_look : nat;
  rounds : list ROUND
}.

(** How a function that waits for threads ends: it returns; or an
    exception leaves a thread function, or a thread object is destroyed
    while joinable, and [std::terminate] is called; or the schedule ends
    while the function still waits. *)
Inductive run (A : Type) :=
| Done (a : A) (st : FOOTPRINT_LIST_IMPL)
| Terminated
| Pending.
#[global] Arguments Done {A} a st.
#[global] Arguments Terminated {A}.
#[global] Arguments Pending {A}.

(** The waiting loops of [ReadFootprintFiles] and [joinWorkers]:
    [while( !m_cancelled && count < total ) { if( m_progress_reporter &&
    !m_progress_reporter->KeepRefreshing() ) m_cancelled = true;
    wxMilliSleep( .. ); }]. The rounds that the pool completes during one
    round of the loop are placed before the request to cancel. *)
Fixpoint wait_for (advance : nat -> THROWING unit)
    (waiting : FOOTPRINT_LIST_IMPL -> bool) (rs : list ROUND)
    (st : FOOTPRINT_LIST_IMPL) : run unit :=
  if waiting st then
    match rs with
    | [] => Pending
    | r :: rs' =>
        match advance (finished_meanwhile r) st with
        | (Throws _, _) => Terminated
        | (Returns _, st1) =>
            wait_for advance waiting rs'
              (if m_progress_reporter st1 && negb (KeepRefreshing r)
               then set_cancelled true st1 else st1)
        end
    end
  else Done tt st.

(** A result that the caller does not look at. *)
Definition forget {A : Type} (r : run A) : run unit :=
  match r with
  | Done _ st => Done tt st
  | Terminated => Terminated
  | Pending => Pending
  end.

(** ** Starting, stopping and joining the workers *)

(** [void FOOTPRINT_LIST_IMPL::startWorkers( aTable, aNickname, aLoader,
    aNThreads )]. Clearing [m_threads] while it holds threads destroys
    joinable threads. *)
Definition startWorkers (aTable : FP_LIB_TABLE) (aNickname : option wxString)
    (aNThreads : nat) (st : FOOTPRINT_LIST_IMPL) : run unit :=
  if (0 <? m_threads st)%nat then Terminated
  else
    let st := set_count_finished 0 st in
    let st := set_errors [] st in
    let st := set_list [] st in
    let st := set_threads 0 st in
    let st := set_queue_in [] st in
    let st := set_queue_out [] st in
    let st :=
      match aNickname with
      | Some nickname => set_queue_in (m_queue_in st ++ [nickname]) st
      | None => set_queue_in (m_queue_in st ++ GetLogicalLibs aTable) st
      end in
    let st := set_total_libs (to_int (Z.of_nat (length (m_queue_in st)))) st in
    Done tt (set_threads aNThreads st).

(** [void FOOTPRINT_LIST_IMPL::stopWorkers()]. *)
Definition stopWorkers (aTable : FP_LIB_TABLE) (st : FOOTPRINT_LIST_IMPL)
    : run unit :=
  match join_threads (loader_job aTable) (m_threads st) st with
  | (Throws _, _) => Terminated
  | (Returns _, st) =>
      let st := set_threads 0 st in
      let st := set_queue_in [] st in
      let st := set_count_finished 0 st in
      (* "If we have canceled in the middle of a load, clear our timestamp
         to re-load next time" *)
      Done tt (if m_cancelled st then set_list_timestamp 0 st else st)
  end.

(** The [catch] clauses that [joinWorkers] writes out twice. *)
Definition catch_clauses (e : exception) : THROWING unit := fun st =>
  match e with
  | throw_IO_ERROR ioe => (Returns tt, push_error ioe st)
  | throw_std_exception what =>
      match THROW_IO_ERROR what with
      | throw_IO_ERROR ioe => (Returns tt, push_error ioe st)
      | e' => (Throws e', st)
      end
  | throw_other => (Throws throw_other, st)
  end.

(** The inner loop of a parsing thread:
    [for( jj = 0; jj < fpnames.size() && !m_cancelled; ++jj )]. *)
Fixpoint parse_names (aTable : FP_LIB_TABLE) (nickname : wxString)
    (fpnames : list wxString) : THROWING unit := fun st =>
  match fpnames with
  | [] => (Returns tt, st)
  | fpname :: more =>
      if m_cancelled st then (Returns tt, st)
      else
        match
          match new_FOOTPRINT_INFO_IMPL aTable nickname fpname with
          | Returns fpinfo =>
              (Returns tt, set_queue_parsed (queue_parsed st ++ [fpinfo]) st)
          | Throws e => catch_clauses e st
          end
        with
        | (Returns _, st') => parse_names aTable nickname more st'
        | (Throws e, st') => (Throws e, st')
        end
  end.

(** One round of the loop of a parsing thread of [joinWorkers], taken
    whole: the flag is read before each name, as in the code, but nothing
    sets it during the round. The round taken one operation at a time,
    where the flag may be set between two names, is [parser_move] below. *)
Definition parse_round (aTable : FP_LIB_TABLE) : THROWING bool := fun st =>
  match m_queue_out st with
  | [] => (Returns false, st)
  | nickname :: rest =>
      let st := set_queue_out rest st in
      if m_cancelled st then (Returns false, st)
      else
        let (fpnames, thrown) := FootprintEnumerate aTable nickname in
        match
          match thrown with
          | None => (Returns tt, st)
          | Some e => catch_clauses e st
          end
        with
        | (Throws e, st') => (Throws e, st')
        | (Returns _, st1) =>
            match parse_names aTable nickname fpnames st1 with
            | (Throws e, st') => (Throws e, st')
            | (Returns _, st2) => (Returns true, fetch_add_finished st2)
            end
        end
  end.

(** The function of a parsing thread, run by one thread alone. *)
Definition parse_job (aTable : FP_LIB_TABLE) : THROWING unit := fun st =>
  loop_rounds (parse_round aTable) (S (length (m_queue_out st))) st.

(** [bool FOOTPRINT_LIST_IMPL::joinWorkers()]. *)
Definition joinWorkers (aTable : FP_LIB_TABLE) (parsing : SCHEDULE)
    (st : FOOTPRINT_LIST_IMPL) : run bool :=
  match join_threads (loader_job aTable) (m_threads st) st with
  | (Throws _, _) => Terminated
  | (Returns _, st) =>
      let st := set_threads 0 st in
      let st := set_queue_in [] st in
      let st := set_count_finished 0 st in
      let total_count := Z.of_nat (length (m_queue_out st)) in
      let st := set_queue_parsed [] st in
      let threads := (hardware_concurrency + 1)%nat in
      match pool_advance (parse_round aTable)
                         (finished_at_first_look parsing) st with
      | (Throws _, _) => Terminated
      | (Returns _, st) =>
          match
            wait_for (pool_advance (parse_round aTable))
              (fun st => negb (m_cancelled st)
                         && (m_count_finished st <? total_count))
              (rounds parsing) st
          with
          | Terminated => Terminated
          | Pending => Pending
          | Done _ st =>
              match join_threads (parse_job aTable) threads st with
              | (Throws _, _) => Terminated
              | (Returns _, st) =>
                  let st := set_queue_parsed []
                              (set_list (m_list st ++ queue_parsed st) st) in
                  let st := set_list (std_sort (m_list st)) st in
                  Done (match m_errors st with [] => true | _ => false end) st
              end
          end
      end
  end.

(** [bool FOOTPRINT_LIST_IMPL::ReadFootprintFiles( aTable, aNickname,
    aProgressReporter )]. The loader object only forwards: [Start] to
    [startWorkers] with the default number of threads, [Abort] to
    [stopWorkers] and [Join] to [joinWorkers]. *)
Definition ReadFootprintFiles (aTable : FP_LIB_TABLE)
    (aNickname : option wxString) (aProgressReporter : bool)
    (loading parsing : SCHEDULE) (st : FOOTPRINT_LIST_IMPL) : run bool :=
  let generatedTimestamp := GenerateTimestamp aTable aNickname in
  if generatedTimestamp =? m_list_timestamp st then Done true st
  else
    let st := set_progress_reporter aProgressReporter st in
    let st := set_cancelled false st in
    match startWorkers aTable aNickname DEFAULT_THREADS st with
    | Terminated => Terminated
    | Pending => Pending
    | Done _ st =>
    match loaders_advance aTable (finished_at_first_look loading) st with
    | (Throws _, _) => Terminated
    | (Returns _, st) =>
    match
      wait_for (loaders_advance aTable)
        (fun st => negb (m_cancelled st)
                   && (to_int (m_count_finished st) <? m_total_libs st))
        (rounds loading) st
    with
    | Terminated => Terminated
    | Pending => Pending
    | Done _ st =>
    match
      (if m_cancelled st
       then stopWorkers aTable st                          (* loader.Abort() *)
       else forget (joinWorkers aTable parsing st))        (* loader.Join() *)
    with
    | Terminated => Terminated
    | Pending => Pending
    | Done _ st =>
        let st :=
          if m_cancelled st
          then set_list_timestamp 0 st  (* "God knows what we got before we
                                           were canceled" *)
          else set_list_timestamp generatedTimestamp st in
        Done (match m_errors st with [] => true | _ => false end) st
    end end end end.

(** ** The cache file *)

(** [wxTextFile]: the lines that opening the file has made of its text (see
    [OnRead] below) and the current line. *)
Record wxTextFile := {
  m_aLines : list wxString;
  m_nCurLine : nat
}.

(** The dummy string that the text file returns at its end. *)
Definition ms_eof : wxString := "".

Definition GetLineCount (f : wxTextFile) : nat := length (m_aLines f).
Definition GetCurrentLine (f : wxTextFile) : nat := m_nCurLine f.

(** [GetFirstLine]: the first line, which becomes the current one; the
    dummy string if the file has no line. *)
Definition GetFirstLine (f : wxTextFile) : wxString * wxTextFile :=
  match m_aLines f with
  | [] => (ms_eof, f)
  | line :: _ => (line, {| m_aLines := m_aLines f; m_nCurLine := 0 |})
  end.

(** [GetNextLine]: the current line moves on by one; the dummy string is
    returned when it reaches the number of lines. The index is never
    larger than that in this file (see [read_entries_within_file]). *)
Definition GetNextLine (f : wxTextFile) : wxString * wxTextFile :=
  let n := S (m_nCurLine f) in
  (if (n =? length (m_aLines f))%nat then ms_eof
   else nth n (m_aLines f) ms_eof,
   {| m_aLines := m_aLines f; m_nCurLine := n |}).

(** *** The text of a file *)

(** The line feed and the carriage return. *)
Definition LF : Ascii.ascii := Ascii.ascii_of_nat 10.
Definition CR : Ascii.ascii := Ascii.ascii_of_nat 13.

(** A string that holds no end of line. *)
Fixpoint line_safe (s : wxString) : bool :=
  match s with
  | EmptyString => true
  | String c s' =>
      negb (Ascii.eqb c LF) && negb (Ascii.eqb c CR) && line_safe s'
  end.

(** What [txtStream << s << endl], done for each string in turn, puts in
    the file: the characters of the string, whatever they are, and an end
    of line, which [wxTextOutputStream] writes as a line feed (as two
    characters, carriage return and line feed, where that is the native
    end of line; [OnRead] makes the same lines of both). *)
Fixpoint stream_text (written : list wxString) : string :=
  match written with
  | [] => ""
  | s :: more => String.append s (String LF (stream_text more))
  end.

(** [wxTextFile::OnRead], which [Open] calls: the text is broken in lines.
    A line ends at a line feed, at a carriage return, or at a carriage
    return followed by a line feed; what follows the last end of line is a
    line if it is not empty. [line] holds the characters of the current
    line. *)
Fixpoint OnRead_from (line : wxString) (text : string) : list wxString :=
  match text with
  | EmptyString => if String.eqb line "" then [] else [line]
  | String c rest =>
      if Ascii.eqb c LF then line :: OnRead_from "" rest
      else if Ascii.eqb c CR then
        match rest with
        | String c' rest' =>
            if Ascii.eqb c' LF then line :: OnRead_from "" rest'
            else line :: OnRead_from "" rest
        | EmptyString => line :: OnRead_from "" rest
        end
      else OnRead_from (String.append line (String c "")) rest
  end.

Definition OnRead (text : string) : list wxString := OnRead_from "" text.

(** [cacheFile.Exists() && cacheFile.Open()], for a file given by its text
    ([None] when there is no such file, or it cannot be opened): the lines
    that [ReadCacheFromFile] goes through. *)
Definition wxTextFile_Open (file : option string)
    : option (list wxString) :=
  option_map OnRead file.

(** The seven strings that [WriteCacheToFile] writes for one entry, each
    followed by [endl]. *)
Definition entry_lines (fpinfo : FOOTPRINT_INFO) : list wxString :=
  [ GetLibNickname fpinfo;
    GetName fpinfo;
    EscapeString (GetDescription fpinfo) CTX_LINE;
    EscapeString (GetKeywords fpinfo) CTX_LINE;
    Format_d (GetOrderNum fpinfo);
    Format_u (GetPadCount fpinfo);
    Format_u (GetUniquePadCount fpinfo) ].

(** The strings that [WriteCacheToFile] writes, each followed by [endl]:
    the timestamp, then the seven strings of each entry of the list. *)
Definition cache_lines (st : FOOTPRINT_LIST_IMPL) : list wxString :=
  Format_lld (m_list_timestamp st)
  :: List.concat (List.map entry_lines (m_list st)).

(** [void FOOTPRINT_LIST_IMPL::WriteCacheToFile( aFilePath )]. The two
    booleans tell whether the temporary file could be opened
    ([outStream.IsOk()]) and whether it could be renamed to [aFilePath].
    The result is the new text of the file at [aFilePath], or [None] when
    that file is left as it was. The nickname and the name of an entry are
    written as they are; only the description and the keywords go through
    [EscapeString]. *)
Definition WriteCacheToFile (stream_ok rename_ok : bool)
    (st : FOOTPRINT_LIST_IMPL) : option string :=
  if negb stream_ok then None
  else
    let written := stream_text (cache_lines st) in
    if rename_ok then Some written else None.

(** The body of the loop of [ReadCacheFromFile] up to the construction of
    the entry: seven lines are taken in turn. *)
Definition read_entry (f : wxTextFile) : outcome FOOTPRINT_INFO * wxTextFile :=
  let (libNickname, f) := GetNextLine f in
  let (name, f) := GetNextLine f in
  let (line3, f) := GetNextLine f in
  match UnescapeString line3 with
  | Throws e => (Throws e, f)
  | Returns desc =>
      let (line4, f) := GetNextLine f in
      match UnescapeString line4 with
      | Throws e => (Throws e, f)
      | Returns keywords =>
          let (line5, f) := GetNextLine f in
          let orderNum := to_int (wxAtoi line5) in
          let (line6, f) := GetNextLine f in
          let padCount := to_unsigned (wxAtoi line6) in
          let (line7, f) := GetNextLine f in
          let uniquePadCount := to_unsigned (wxAtoi line7) in
          (Returns (FOOTPRINT_INFO_IMPL libNickname name desc keywords
                      orderNum padCount uniquePadCount), f)
      end
  end.

(** [while( cacheFile.GetCurrentLine() + 6 < cacheFile.GetLineCount() )],
    for at most [fuel] rounds. *)
Fixpoint read_entries (fuel : nat) (f : wxTextFile)
    (st : FOOTPRINT_LIST_IMPL)
    : outcome unit * (wxTextFile * FOOTPRINT_LIST_IMPL) :=
  match fuel with
  | O => (Returns tt, (f, st))
  | S fuel' =>
      if (GetCurrentLine f + 6 <? GetLineCount f)%nat then
        match read_entry f with
        | (Throws e, f') => (Throws e, (f', st))
        | (Returns fpinfo, f') =>
            read_entries fuel' f' (set_list (m_list st ++ [fpinfo]) st)
        end
      else (Returns tt, (f, st))
  end.

(** The [try] block of [ReadCacheFromFile]. [aFile] holds the lines of the
    file if it exists and could be opened. Every round of the loop moves
    the current line on, so one round more than the file has lines ends
    it. *)
Definition read_cache (aFile : option (list wxString)) : THROWING unit :=
  fun st =>
  match aFile with
  | None => (Returns tt, st)
  | Some lines =>
      let cacheFile := {| m_aLines := lines; m_nCurLine := 0 |} in
      let (first, cacheFile) := GetFirstLine cacheFile in
      let st :=
        set_list_timestamp (snd (ToLongLong first (m_list_timestamp st))) st in
      match read_entries (S (GetLineCount cacheFile)) cacheFile st with
      | (thrown, (_, st')) => (thrown, st')
      end
  end.

(** [void FOOTPRINT_LIST_IMPL::ReadCacheFromFile( aFilePath )]. *)
Definition ReadCacheFromFile (aFile : option (list wxString))
    (st : FOOTPRINT_LIST_IMPL) : FOOTPRINT_LIST_IMPL :=
  let st := set_list_timestamp 0 st in
  let st := set_list [] st in
  let st :=
    match read_cache aFile st with
    | (Returns _, st') => st'
    | (Throws _, st') =>
        (* "whatever went wrong, invalidate the cache" *)
        set_list_timestamp 0 st'
    end in
  (* "Sanity check: an empty list is very unlikely to be correct." *)
  if (length (m_list st) =? 0)%nat then set_list_timestamp 0 st else st.

(** What reading an entry back makes of it: each field goes through its
    conversion to a line and back. *)
Definition reread (fpinfo : FOOTPRINT_INFO) : outcome FOOTPRINT_INFO :=
  match UnescapeString (EscapeString (GetDescription fpinfo) CTX_LINE) with
  | Throws e => Throws e
  | Returns desc =>
      match UnescapeString (EscapeString (GetKeywords fpinfo) CTX_LINE) with
      | Throws e => Throws e
      | Returns keywords =>
          Returns (FOOTPRINT_INFO_IMPL (GetLibNickname fpinfo)
                     (GetName fpinfo) desc keywords
                     (to_int (wxAtoi (Format_d (GetOrderNum fpinfo))))
                     (to_unsigned (wxAtoi (Format_u (GetPadCount fpinfo))))
                     (to_unsigned
                        (wxAtoi (Format_u (GetUniquePadCount fpinfo)))))
      end
  end.

(** What reading a list of written entries back gives: the entries up to
    the first one whose reading throws. *)
Fixpoint reread_all (es : list FOOTPRINT_INFO) : list FOOTPRINT_INFO :=
  match es with
  | [] => []
  | e :: es' =>
      match reread e with
      | Returns e' => e' :: reread_all es'
      | Throws _ => []
      end
  end.

(** ** Notions used to state what the loaders do *)

(** Whether a library could be fetched, and the error recorded if not. *)
Definition fetched (aTable : FP_LIB_TABLE) (nickname : wxString) : bool :=
  match PrefetchLib aTable nickname with
  | Returns _ => true
  | Throws _ => false
  end.

Definition fetch_errors (aTable : FP_LIB_TABLE) (nickname : wxString)
    : list IO_ERROR :=
  match PrefetchLib aTable nickname with
  | Throws (throw_IO_ERROR ioe) => [ioe]
  | Throws (throw_std_exception what) => [make_IO_ERROR what]
  | _ => []
  end.

(** Fetching the library throws nothing but what [CatchErrors] catches. *)
Definition fetch_caught (aTable : FP_LIB_TABLE) (nickname : wxString)
    : Prop :=
  PrefetchLib aTable nickname <> Throws throw_other.

(** The table throws nothing but what the handlers of the file catch. *)
Definition table_caught (aTable : FP_LIB_TABLE) : Prop :=
  (forall nickname, PrefetchLib aTable nickname <> Throws throw_other)
  /\ (forall nickname,
        snd (FootprintEnumerate aTable nickname) <> Some throw_other)
  /\ (forall nickname fpname,
        new_FOOTPRINT_INFO_IMPL aTable nickname fpname <> Throws throw_other).

(** Code that does not throw and leaves the pointer to the reporter
    alone. *)
Definition quiet {A : Type} (f : THROWING A) : Prop :=
  forall st, exists a st',
    f st = (Returns a, st')
    /\ m_progress_reporter st' = m_progress_reporter st.

(** The reporter asks to cancel at some round. *)
Definition asks_to_cancel (rs : list ROUND) : Prop :=
  Exists (fun r => KeepRefreshing r = false) rs.

(** The libraries that a load goes through. *)
Definition libraries_to_load (aTable : FP_LIB_TABLE)
    (aNickname : option wxString) : list wxString :=
  match aNickname with
  | Some nickname => [nickname]
  | None => GetLogicalLibs aTable
  end.

(** What the parsing threads leave alone; the list of errors only grows. *)
Definition parsers_keep (st st' : FOOTPRINT_LIST_IMPL) : Prop :=
  (exists more, m_errors st' = m_errors st ++ more)
  /\ m_cancelled st' = m_cancelled st
  /\ m_list_timestamp st' = m_list_timestamp st
  /\ m_list st' = m_list st
  /\ m_threads st' = m_threads st
  /\ m_queue_in st' = m_queue_in st
  /\ m_progress_reporter st' = m_progress_reporter st.

(** What a handler, or the inner loop of a parsing thread, leaves alone
    besides. *)
Definition inner_keep (st st' : FOOTPRINT_LIST_IMPL) : Prop :=
  parsers_keep st st'
  /\ m_queue_out st' = m_queue_out st
  /\ m_count_finished st' = m_count_finished st.

(** What the loader threads leave alone; their queue does not grow. *)
Definition loaders_keep (st st' : FOOTPRINT_LIST_IMPL) : Prop :=
  (length (m_queue_in st') <= length (m_queue_in st))%nat
  /\ m_cancelled st' = m_cancelled st
  /\ m_list_timestamp st' = m_list_timestamp st
  /\ m_list st' = m_list st
  /\ m_threads st' = m_threads st
  /\ m_total_libs st' = m_total_libs st
  /\ m_progress_reporter st' = m_progress_reporter st
  /\ queue_parsed st' = queue_parsed st.

End WithExternals.

(** ** Stand-ins to run the definitions on *)

Definition decimal (z : Z) : wxString :=
  NilZero.string_of_int (Z.to_int z).

Definition parse_decimal (s : wxString) : Z :=
  match NilZero.int_of_string s with
  | Some d => Z.of_int d
  | None => 0
  end.

(** An order for the examples in the place of [operator<] of
    [FOOTPRINT_INFO], which is defined elsewhere: by library nickname, then
    by name. [sample_sort] sorts by it. *)
Definition sample_less (lhs rhs : FOOTPRINT_INFO) : bool :=
  match String.compare (m_nickname lhs) (m_nickname rhs) with
  | Lt => true
  | Gt => false
  | Eq => String.ltb (m_fpname lhs) (m_fpname rhs)
  end.

Fixpoint sample_insert (fpinfo : FOOTPRINT_INFO)
    (sorted : list FOOTPRINT_INFO) : list FOOTPRINT_INFO :=
  match sorted with
  | [] => [fpinfo]
  | head :: more =>
      if sample_less fpinfo head then fpinfo :: sorted
      else head :: sample_insert fpinfo more
  end.

Definition sample_sort (fplist : list FOOTPRINT_INFO)
    : list FOOTPRINT_INFO :=
  List.fold_right sample_insert [] fplist.

(** Collaborators for the examples: nothing is escaped, unescaping a lone
    brace throws, numbers are written in decimal, the list is sorted by
    nickname and name. *)
Definition sample_externals : EXTERNALS :=
  {| make_IO_ERROR := fun msg => {| Problem := msg |};
     EscapeString := fun s _ => s;
     UnescapeString := fun s =>
       if String.eqb s "{" then Throws (throw_std_exception "brace")
       else Returns s;
     wxAtoi := parse_decimal;
     ToLongLong := fun s old =>
       match NilZero.int_of_string s with
       | Some d => (true, Z.of_int d)
       | None => (false, old)
       end;
     Format_lld := decimal;
     Format_d := decimal;
     Format_u := decimal;
     std_sort := sample_sort;
     DEFAULT_THREADS := 6;
     hardware_concurrency := 4 |}.

(** A table of three libraries, the second of which cannot be read. *)
Definition sample_table : FP_LIB_TABLE :=
  {| GenerateTimestamp := fun _ => 1700;
     GetLogicalLibs := ["Resistor_SMD"; "Broken"; "Connector"];
     PrefetchLib := fun nickname =>
       if String.eqb nickname "Broken"
       then Throws (throw_IO_ERROR {| Problem := "cannot read Broken" |})
       else Returns tt;
     FootprintEnumerate := fun nickname =>
       if String.eqb nickname "Resistor_SMD"
       then (["R_0402"; "R_0603"], None)
       else (["J1"], None);
     new_FOOTPRINT_INFO_IMPL := fun nickname fpname =>
       Returns (FOOTPRINT_INFO_IMPL nickname fpname "" "" 0 2 2) |}.

(** Two schedules: the loaders finish one library before the first look at
    the counter and the others during the first rounds; the parsing threads
    finish within one round. *)
Definition loading_schedule (keep : bool) : SCHEDULE :=
  {| finished_at_first_look := 1;
     rounds := [ {| finished_meanwhile := 1; KeepRefreshing := keep |};
                 {| finished_meanwhile := 5; KeepRefreshing := true |} ] |}.

Definition parsing_schedule : SCHEDULE :=
  {| finished_at_first_look := 0;
     rounds := [ {| finished_meanwhile := 5; KeepRefreshing := true |} ] |}.

(** The reporter asks to cancel at the first round, when one library has
    been gone through. *)
Definition cancelling_schedule : SCHEDULE :=
  {| finished_at_first_look := 0;
     rounds := [ {| finished_meanwhile := 1; KeepRefreshing := false |} ] |}.

(** The threads have finished when they are first looked at. *)
Definition prompt_schedule : SCHEDULE :=
  {| finished_at_first_look := 4; rounds := [] |}.



(** ** [FOOTPRINT_INFO_IMPL::load] *)

(** The argument of the pad counts of a footprint. *)
Inductive INCLUDE_NPTH_T := DO_NOT_INCLUDE_NPTH | INCLUDE_NPTH.

(** [FOOTPRINT], by the member functions that [load] calls; the names
    carry a prefix, the accessors of [FOOTPRINT_INFO] having the same
    ones. *)
Record FOOTPRINT := {
  footprint_GetPadCount : INCLUDE_NPTH_T -> Z;         (* unsigned *)
  footprint_GetUniquePadCount : INCLUDE_NPTH_T -> Z;   (* unsigned *)
  footprint_GetKeywords : wxString;
  footprint_GetDescription : wxString
}.

(** [void FOOTPRINT_INFO_IMPL::load()]. The table of the owner is given by
    its member [GetEnumeratedFootprint], which returns a null pointer
    ([None]) for a footprint that it does not have; the assertion says that
    there is a table. *)
Definition load
    (GetEnumeratedFootprint : wxString -> wxString -> option FOOTPRINT)
    (fpinfo : FOOTPRINT_INFO) : FOOTPRINT_INFO :=
  match GetEnumeratedFootprint (m_nickname fpinfo) (m_fpname fpinfo) with
  | None =>
      (* "Should happen only with malformed/broken libraries" *)
      {| m_nickname := m_nickname fpinfo; m_fpname := m_fpname fpinfo;
         m_doc := m_doc fpinfo; m_keywords := m_keywords fpinfo;
         m_num := m_num fpinfo;
         m_pad_count := 0; m_unique_pad_count := 0; m_loaded := true |}
  | Some footprint =>
      {| m_nickname := m_nickname fpinfo; m_fpname := m_fpname fpinfo;
         m_doc := footprint_GetDescription footprint;
         m_keywords := footprint_GetKeywords footprint;
         m_num := m_num fpinfo;
         m_pad_count := footprint_GetPadCount footprint DO_NOT_INCLUDE_NPTH;
         m_unique_pad_count :=
           footprint_GetUniquePadCount footprint DO_NOT_INCLUDE_NPTH;
         m_loaded := true |}
  end.

Section Further.
Context `{X : EXTERNALS}.

(** ** Notions used to state what a load and the reading of a file give *)

(** The error that the handlers of the file record for an exception. *)
Definition caught_error (e : exception) : list IO_ERROR :=
  match e with
  | throw_IO_ERROR ioe => [ioe]
  | throw_std_exception what => [make_IO_ERROR what]
  | throw_other => []
  end.

(** The entries that a parsing thread builds from the names of a library,
    and the errors that it records on the way. An exception that the
    handlers do not catch ends the thread; it counts for nothing here. *)
Fixpoint parsed_names (aTable : FP_LIB_TABLE) (nickname : wxString)
    (fpnames : list wxString) : list FOOTPRINT_INFO :=
  match fpnames with
  | [] => []
  | fpname :: more =>
      match new_FOOTPRINT_INFO_IMPL aTable nickname fpname with
      | Returns fpinfo => fpinfo :: parsed_names aTable nickname more
      | Throws _ => parsed_names aTable nickname more
      end
  end.

Fixpoint name_errors (aTable : FP_LIB_TABLE) (nickname : wxString)
    (fpnames : list wxString) : list IO_ERROR :=
  match fpnames with
  | [] => []
  | fpname :: more =>
      match new_FOOTPRINT_INFO_IMPL aTable nickname fpname with
      | Returns _ => name_errors aTable nickname more
      | Throws e => caught_error e ++ name_errors aTable nickname more
      end
  end.

Definition parsed_of (aTable : FP_LIB_TABLE) (nickname : wxString)
    : list FOOTPRINT_INFO :=
  parsed_names aTable nickname (fst (FootprintEnumerate aTable nickname)).

Definition parse_errors (aTable : FP_LIB_TABLE) (nickname : wxString)
    : list IO_ERROR :=
  match snd (FootprintEnumerate aTable nickname) with
  | Some e => caught_error e
  | None => []
  end ++ name_errors aTable nickname (fst (FootprintEnumerate aTable nickname)).

(** The line of a file at an index, the dummy line beyond its end. *)
Definition line_at (lines : list wxString) (k : nat) : wxString :=
  nth k lines ms_eof.

(** The entry that stands in the seven lines after line [7 * i]. *)
Definition entry_at (lines : list wxString) (i : nat)
    : outcome FOOTPRINT_INFO :=
  match UnescapeString (line_at lines (7 * i + 3)) with
  | Throws e => Throws e
  | Returns desc =>
      match UnescapeString (line_at lines (7 * i + 4)) with
      | Throws e => Throws e
      | Returns keywords =>
          Returns (FOOTPRINT_INFO_IMPL
                     (line_at lines (7 * i + 1)) (line_at lines (7 * i + 2))
                     desc keywords
                     (to_int (wxAtoi (line_at lines (7 * i + 5))))
                     (to_unsigned (wxAtoi (line_at lines (7 * i + 6))))
                     (to_unsigned (wxAtoi (line_at lines (7 * i + 7)))))
      end
  end.

(** [count] entries from entry [i] on, up to the first one whose reading
    throws. *)
Fixpoint take_entries (lines : list wxString) (i count : nat)
    : list FOOTPRINT_INFO :=
  match count with
  | O => []
  | S count' =>
      match entry_at lines i with
      | Returns fpinfo => fpinfo :: take_entries lines (S i) count'
      | Throws _ => []
      end
  end.


End Further.

(** ** The threads, one operation at a time *)

(** Above, a pool is taken by whole rounds of its loop. Here every
    operation of a thread on a member that the threads share (a queue, the
    list of errors, the counter, the flag) is a move of its own, and a run
    is any sequence of moves of the threads and of the caller: libraries
    may be finished in another order than they were queued, and a thread
    may be in the middle of a round when the flag is set or when
    [stopWorkers] is entered. A call that touches no shared member
    ([PrefetchLib], [FootprintEnumerate], the construction of an entry) is
    part of the move that follows it; the calls that report progress are
    left out, as above. *)

Section Moves.
Context `{X : EXTERNALS}.

(** Where a loader thread stands in [loader_job]: at
    [m_queue_in.pop( nickname )]; at [!m_cancelled], the nickname popped;
    in the call of [CatchErrors]; at [m_count_finished.fetch_add( 1 )]; or
    past the loop. *)
Inductive LOADER :=
| loader_pops
| loader_tests (nickname : wxString)
| loader_fetches (nickname : wxString)
| loader_counts
| loader_left.

(** The next operation of a loader thread. *)
Definition loader_job_move (aTable : FP_LIB_TABLE) (pos : LOADER)
    : THROWING LOADER := fun st =>
  match pos with
  | loader_pops =>
      match m_queue_in st with
      | [] => (Returns loader_left, st)
      | nickname :: rest =>
          (Returns (loader_tests nickname), set_queue_in rest st)
      end
  | loader_tests nickname =>
      (Returns (if m_cancelled st then loader_left
                else loader_fetches nickname), st)
  | loader_fetches nickname =>
      match CatchErrors (prefetch aTable nickname) st with
      | (Returns _, st') => (Returns loader_counts, st')
      | (Throws e, st') => (Throws e, st')
      end
  | loader_counts => (Returns loader_pops, fetch_add_finished st)
  | loader_left => (Returns loader_left, st)
  end.

(** Where a parsing thread of [joinWorkers] stands: at
    [m_queue_out.pop( nickname )]; at [!m_cancelled]; at the call of
    [FootprintEnumerate]; at the condition of the inner loop, with the
    names still to go through; at the construction of an entry, the flag
    having been read; at [m_count_finished.fetch_add( 1 )]; or past the
    loop. *)
Inductive PARSER :=
| parser_pops
| parser_tests (nickname : wxString)
| parser_enumerates (nickname : wxString)
| parser_names (nickname : wxString) (fpnames : list wxString)
| parser_makes (nickname fpname : wxString) (more : list wxString)
| parser_counts
| parser_left.

(** The next operation of a parsing thread. The inner loop reads the flag
    before each name, and not when no name is left. *)
Definition parser_move (aTable : FP_LIB_TABLE) (pos : PARSER)
    : THROWING PARSER := fun st =>
  match pos with
  | parser_pops =>
      match m_queue_out st with
      | [] => (Returns parser_left, st)
      | nickname :: rest =>
          (Returns (parser_tests nickname), set_queue_out rest st)
      end
  | parser_tests nickname =>
      (Returns (if m_cancelled st then parser_left
                else parser_enumerates nickname), st)
  | parser_enumerates nickname =>
      let (fpnames, thrown) := FootprintEnumerate aTable nickname in
      match
        match thrown with
        | None => (Returns tt, st)
        | Some e => catch_clauses e st
        end
      with
      | (Returns _, st') => (Returns (parser_names nickname fpnames), st')
      | (Throws e, st') => (Throws e, st')
      end
  | parser_names nickname [] => (Returns parser_counts, st)
  | parser_names nickname (fpname :: more) =>
      (Returns (if m_cancelled st then parser_counts
                else parser_makes nickname fpname more), st)
  | parser_makes nickname fpname more =>
      match
        match new_FOOTPRINT_INFO_IMPL aTable nickname fpname with
        | Returns fpinfo =>
            (Returns tt, set_queue_parsed (queue_parsed st ++ [fpinfo]) st)
        | Throws e => catch_clauses e st
        end
      with
      | (Returns _, st') => (Returns (parser_names nickname more), st')
      | (Throws e, st') => (Throws e, st')
      end
  | parser_counts => (Returns parser_pops, fetch_add_finished st)
  | parser_left => (Returns parser_left, st)
  end.

(** Where the calling thread stands: at the condition of the waiting loop
    of [ReadFootprintFiles]; in the body of that loop, at
    [KeepRefreshing]; in [stopWorkers], or in [joinWorkers], at the join of
    the loader threads; at the condition of the waiting loop of
    [joinWorkers], [total_count] having been read; in the body of that
    loop; at the join of the parsing threads; or back from the call, with
    what the call returned if it returns something. *)
Inductive CALLER :=
| caller_waits_for_loaders
| caller_asks_while_loading
| caller_stops
| caller_joins
| caller_waits_for_parsers (total_count : Z)
| caller_asks_while_parsing (total_count : Z)
| caller_joins_parsers
| caller_left (result : option bool).

(** The members of the list, the loader threads ([m_threads]), the parsing
    threads (the vector [threads] of [joinWorkers]), the calling thread,
    and the local [generatedTimestamp] when the call is one of
    [ReadFootprintFiles]. *)
Record THREADS := {
  members : FOOTPRINT_LIST_IMPL;
  loaders : list LOADER;
  parsers : list PARSER;
  caller : CALLER;
  generatedTimestamp : option Z
}.

Definition loader_has_left (pos : LOADER) : bool :=
  match pos with loader_left => true | _ => false end.

Definition parser_has_left (pos : PARSER) : bool :=
  match pos with parser_left => true | _ => false end.

(** [m_errors.empty()]. *)
Definition errors_empty (st : FOOTPRINT_LIST_IMPL) : bool :=
  match m_errors st with [] => true | _ => false end.

(** The end of [stopWorkers] or of [joinWorkers], no thread being left,
    and, when the call is one of [ReadFootprintFiles], the end of that
    function: the timestamp is set according to the flag and the result is
    [m_errors.empty()]. *)
Definition caller_returns (result : option bool) (st : FOOTPRINT_LIST_IMPL)
    (c : THREADS) : THREADS :=
  match generatedTimestamp c with
  | Some generated =>
      let st := if m_cancelled st then set_list_timestamp 0 st
                else set_list_timestamp generated st in
      {| members := st; loaders := []; parsers := [];
         caller := caller_left (Some (errors_empty st));
         generatedTimestamp := None |}
  | None =>
      {| members := st; loaders := []; parsers := [];
         caller := caller_left result; generatedTimestamp := None |}
  end.

Definition caller_at (pos : CALLER) (st : FOOTPRINT_LIST_IMPL) (c : THREADS)
    : THREADS :=
  {| members := st; loaders := loaders c; parsers := parsers c;
     caller := pos; generatedTimestamp := generatedTimestamp c |}.

(** The next operation of the calling thread; [keep] is the answer of
    [KeepRefreshing], should it be asked. A join returns when the threads
    have left their function: until then the caller stays where it is.
    What follows a join runs while no other thread does, and is taken in
    one move. *)
Definition caller_move (keep : bool) (c : THREADS) : THREADS :=
  let st := members c in
  match caller c with
  | caller_waits_for_loaders =>
      if negb (m_cancelled st)
         && (to_int (m_count_finished st) <? m_total_libs st)
      then caller_at caller_asks_while_loading st c
      else if m_cancelled st then caller_at caller_stops st c
      else caller_at caller_joins st c
  | caller_asks_while_loading =>
      caller_at caller_waits_for_loaders
        (if m_progress_reporter st && negb keep
         then set_cancelled true st else st) c
  | caller_stops =>
      if forallb loader_has_left (loaders c) then
        let st := set_threads 0 st in
        let st := set_queue_in [] st in
        let st := set_count_finished 0 st in
        caller_returns None
          (if m_cancelled st then set_list_timestamp 0 st else st) c
      else c
  | caller_joins =>
      if forallb loader_has_left (loaders c) then
        let st := set_threads 0 st in
        let st := set_queue_in [] st in
        let st := set_count_finished 0 st in
        let total_count := Z.of_nat (length (m_queue_out st)) in
        {| members := set_queue_parsed [] st; loaders := [];
           parsers := replicate (hardware_concurrency + 1) parser_pops;
           caller := caller_waits_for_parsers total_count;
           generatedTimestamp := generatedTimestamp c |}
      else c
  | caller_waits_for_parsers total_count =>
      if negb (m_cancelled st) && (m_count_finished st <? total_count)
      then caller_at (caller_asks_while_parsing total_count) st c
      else caller_at caller_joins_parsers st c
  | caller_asks_while_parsing total_count =>
      caller_at (caller_waits_for_parsers total_count)
        (if m_progress_reporter st && negb keep
         then set_cancelled true st else st) c
  | caller_joins_parsers =>
      if forallb parser_has_left (parsers c) then
        let st := set_queue_parsed []
                    (set_list (m_list st ++ queue_parsed st) st) in
        let st := set_list (std_sort (m_list st)) st in
        caller_returns (Some (errors_empty st)) st c
      else c
  | caller_left _ => c
  end.

(** Which thread moves. *)
Inductive MOVE :=
| loader_moves (i : nat)
| parser_moves (i : nat)
| caller_moves (keep : bool).

(** One move. There is no result when an exception leaves the function
    of a thread: [std::terminate] is called. A thread that does not exist
    does not move, and one that has left stays where it is. *)
Definition move (aTable : FP_LIB_TABLE) (m : MOVE) (c : THREADS)
    : option THREADS :=
  match m with
  | loader_moves i =>
      match loaders c !! i with
      | None => Some c
      | Some pos =>
          match loader_job_move aTable pos (members c) with
          | (Returns pos', st') =>
              Some {| members := st'; loaders := <[i := pos']> (loaders c);
                      parsers := parsers c; caller := caller c;
                      generatedTimestamp := generatedTimestamp c |}
          | (Throws _, _) => None
          end
      end
  | parser_moves i =>
      match parsers c !! i with
      | None => Some c
      | Some pos =>
          match parser_move aTable pos (members c) with
          | (Returns pos', st') =>
              Some {| members := st'; loaders := loaders c;
                      parsers := <[i := pos']> (parsers c);
                      caller := caller c;
                      generatedTimestamp := generatedTimestamp c |}
          | (Throws _, _) => None
          end
      end
  | caller_moves keep => Some (caller_move keep c)
  end.

Fixpoint run_moves (aTable : FP_LIB_TABLE) (moves : list MOVE) (c : THREADS)
    : option THREADS :=
  match moves with
  | [] => Some c
  | m :: more =>
      match move aTable m c with
      | Some c' => run_moves aTable more c'
      | None => None
      end
  end.

(** [ReadFootprintFiles] up to its waiting loop: the test of the
    timestamp, then [startWorkers], which calls [std::terminate] when the
    list still holds threads. The loader threads start at the top of
    [loader_job]. *)
Definition ReadFootprintFiles_called (aTable : FP_LIB_TABLE)
    (aNickname : option wxString) (aProgressReporter : bool) (c : THREADS)
    : option THREADS :=
  let generated := GenerateTimestamp aTable aNickname in
  if generated =? m_list_timestamp (members c)
  then Some (caller_at (caller_left (Some true)) (members c) c)
  else
    let st := set_progress_reporter aProgressReporter (members c) in
    let st := set_cancelled false st in
    match startWorkers aTable aNickname DEFAULT_THREADS
            (set_threads (length (loaders c)) st) with
    | Done _ st =>
        Some {| members := st;
                loaders := replicate DEFAULT_THREADS loader_pops;
                parsers := []; caller := caller_waits_for_loaders;
                generatedTimestamp := Some generated |}
    | _ => None
    end.

(** [stopWorkers] and [joinWorkers] called on their own, whatever the
    threads are doing. *)
Definition stopWorkers_called (c : THREADS) : THREADS :=
  {| members := members c; loaders := loaders c; parsers := parsers c;
     caller := caller_stops; generatedTimestamp := None |}.

Definition joinWorkers_called (c : THREADS) : THREADS :=
  {| members := members c; loaders := loaders c; parsers := parsers c;
     caller := caller_joins; generatedTimestamp := None |}.

(** A list that holds no thread, nothing being called. *)
Definition at_rest (st : FOOTPRINT_LIST_IMPL) : THREADS :=
  {| members := st; loaders := []; parsers := [];
     caller := caller_left None; generatedTimestamp := None |}.

(** The threads of [c] with other members and with loader thread [i], or
    parsing thread [i], at another place. *)
Definition loader_at (i : nat) (pos : LOADER) (st : FOOTPRINT_LIST_IMPL)
    (c : THREADS) : THREADS :=
  {| members := st; loaders := <[i := pos]> (loaders c);
     parsers := parsers c; caller := caller c;
     generatedTimestamp := generatedTimestamp c |}.

Definition parser_at (i : nat) (pos : PARSER) (st : FOOTPRINT_LIST_IMPL)
    (c : THREADS) : THREADS :=
  {| members := st; loaders := loaders c;
     parsers := <[i := pos]> (parsers c); caller := caller c;
     generatedTimestamp := generatedTimestamp c |}.

(** *** What the threads hold *)

(** The library that a loader thread has taken off the queue and not yet
    gone through; the one that it will go through even if the flag is set
    now; whether it has the counter to advance. *)
Definition holding (pos : LOADER) : list wxString :=
  match pos with
  | loader_tests nickname | loader_fetches nickname => [nickname]
  | _ => []
  end.

Definition fetching (pos : LOADER) : list wxString :=
  match pos with
  | loader_fetches nickname => [nickname]
  | _ => []
  end.

Definition counting (pos : LOADER) : nat :=
  match pos with loader_counts => 1%nat | _ => 0%nat end.

(** What the loaders have done with the libraries [libs], the output
    queue having been [out0] and the errors [err0] at the start: [done]
    are the libraries gone through, in the order in which the threads
    have finished with them. *)
Definition loaders_hold (aTable : FP_LIB_TABLE) (libs out0 : list wxString)
    (err0 : list IO_ERROR) (done : list wxString)
    (st : FOOTPRINT_LIST_IMPL) (ls : list LOADER) : Prop :=
  done ++ List.flat_map holding ls ++ m_queue_in st ≡ₚ libs
  /\ m_queue_out st = out0 ++ List.filter (fetched aTable) done
  /\ m_errors st = err0 ++ List.flat_map (fetch_errors aTable) done.

(** The same when the flag is set: only the libraries that the threads
    are fetching will be gone through. *)
Definition loaders_finish (aTable : FP_LIB_TABLE) (libs out0 : list wxString)
    (err0 : list IO_ERROR) (done : list wxString)
    (st : FOOTPRINT_LIST_IMPL) (ls : list LOADER) : Prop :=
  done ++ List.flat_map fetching ls ≡ₚ libs
  /\ m_queue_out st = out0 ++ List.filter (fetched aTable) done
  /\ m_errors st = err0 ++ List.flat_map (fetch_errors aTable) done.

(** The counter, [counted] libraries having been counted. *)
Definition loaders_count (count0 : Z) (counting0 : nat)
    (done : list wxString) (counted : nat)
    (st : FOOTPRINT_LIST_IMPL) (ls : list LOADER) : Prop :=
  m_count_finished st = to_size_t (count0 + Z.of_nat counted)
  /\ (counted + sum_list (map counting ls) = counting0 + length done)%nat.

Definition loaders_at (aTable : FP_LIB_TABLE) (libs out0 : list wxString)
    (err0 : list IO_ERROR) (count0 : Z) (counting0 : nat)
    (done : list wxString) (counted : nat)
    (st : FOOTPRINT_LIST_IMPL) (ls : list LOADER) : Prop :=
  loaders_hold aTable libs out0 err0 done st ls
  /\ loaders_count count0 counting0 done counted st ls.

(** The entries, and the errors, that a parsing thread has still to push
    for the library that it holds, if the flag stays clear; whether it
    holds a library that it has not counted. *)
Definition entries_to_come (aTable : FP_LIB_TABLE) (pos : PARSER)
    : list FOOTPRINT_INFO :=
  match pos with
  | parser_tests nickname | parser_enumerates nickname =>
      parsed_of aTable nickname
  | parser_names nickname fpnames => parsed_names aTable nickname fpnames
  | parser_makes nickname fpname more =>
      parsed_names aTable nickname (fpname :: more)
  | _ => []
  end.

Definition errors_to_come (aTable : FP_LIB_TABLE) (pos : PARSER)
    : list IO_ERROR :=
  match pos with
  | parser_tests nickname | parser_enumerates nickname =>
      parse_errors aTable nickname
  | parser_names nickname fpnames => name_errors aTable nickname fpnames
  | parser_makes nickname fpname more =>
      name_errors aTable nickname (fpname :: more)
  | _ => []
  end.

Definition parsing_one (pos : PARSER) : nat :=
  match pos with parser_pops | parser_left => 0%nat | _ => 1%nat end.

(** What the parsing threads have done with the output queue [q], the
    errors having been [err0] at the start: [taken] are the libraries
    taken off the queue. *)
Definition parsers_at (aTable : FP_LIB_TABLE) (q : list wxString)
    (err0 : list IO_ERROR) (taken : list wxString) (counted : nat)
    (st : FOOTPRINT_LIST_IMPL) (ps : list PARSER) : Prop :=
  taken ++ m_queue_out st = q
  /\ queue_parsed st ++ List.flat_map (entries_to_come aTable) ps
     ≡ₚ List.flat_map (parsed_of aTable) taken
  /\ m_errors st ++ List.flat_map (errors_to_come aTable) ps
     ≡ₚ err0 ++ List.flat_map (parse_errors aTable) taken
  /\ m_count_finished st = to_size_t (Z.of_nat counted)
  /\ (counted + sum_list (map parsing_one ps) = length taken)%nat.

(** *** How far a call has come *)

(** [joinWorkers] once the loaders are joined, as long as the flag is
    clear: [q] is the output queue as the loaders have left it, [err0] the
    errors and [fplist] the list at that time. *)
Definition joining_facts (aTable : FP_LIB_TABLE) (q : list wxString)
    (err0 : list IO_ERROR) (fplist : list FOOTPRINT_INFO)
    (generated : option Z) (c : THREADS) : Prop :=
  let st := members c in
  match caller c with
  | caller_waits_for_parsers total_count
  | caller_asks_while_parsing total_count =>
      total_count = Z.of_nat (length q)
      /\ generatedTimestamp c = generated
      /\ loaders c = [] /\ m_list st = fplist
      /\ exists taken counted,
           parsers_at aTable q err0 taken counted st (parsers c)
  | caller_joins_parsers =>
      generatedTimestamp c = generated
      /\ loaders c = [] /\ m_list st = fplist
      /\ exists taken counted,
           parsers_at aTable q err0 taken counted st (parsers c)
           /\ (length q <= counted)%nat
  | caller_left result =>
      loaders c = [] /\ parsers c = []
      /\ (exists entries,
            entries ≡ₚ List.flat_map (parsed_of aTable) q
            /\ m_list st = std_sort (fplist ++ entries))
      /\ m_errors st ≡ₚ err0 ++ List.flat_map (parse_errors aTable) q
      /\ m_queue_out st = []
      /\ result = Some (errors_empty st)
      /\ (forall timestamp, generated = Some timestamp ->
            m_list_timestamp st = timestamp)
  | _ => False
  end.

(** A load, as long as the flag is clear. *)
Definition loading_facts (aTable : FP_LIB_TABLE)
    (aNickname : option wxString) (c : THREADS) : Prop :=
  let st := members c in
  let libs := libraries_to_load aTable aNickname in
  let generated := GenerateTimestamp aTable aNickname in
  match caller c with
  | caller_waits_for_loaders | caller_asks_while_loading =>
      generatedTimestamp c = Some generated
      /\ parsers c = [] /\ m_list st = []
      /\ m_total_libs st = Z.of_nat (length libs)
      /\ exists done counted,
           loaders_at aTable libs [] [] 0 0 done counted st (loaders c)
  | caller_joins =>
      generatedTimestamp c = Some generated
      /\ parsers c = [] /\ m_list st = []
      /\ m_total_libs st = Z.of_nat (length libs)
      /\ exists done counted,
           loaders_at aTable libs [] [] 0 0 done counted st (loaders c)
           /\ (length libs <= counted)%nat
  | caller_stops => False
  | _ =>
      exists q err0,
        q ≡ₚ List.filter (fetched aTable) libs
        /\ err0 ≡ₚ List.flat_map (fetch_errors aTable) libs
        /\ joining_facts aTable q err0 [] (Some generated) c
  end.

(** [stopWorkers] called by itself on [c0], the flag being clear: while it
    joins, and when it has returned. *)
Definition stopping (aTable : FP_LIB_TABLE) (c0 c : THREADS) : Prop :=
  let st0 := members c0 in
  let st := members c in
  m_list st = m_list st0
  /\ m_list_timestamp st = m_list_timestamp st0
  /\ caller c = caller_stops
  /\ generatedTimestamp c = None
  /\ parsers c = []
  /\ length (loaders c) = length (loaders c0)
  /\ (exists done,
        loaders_hold aTable
          (List.flat_map holding (loaders c0) ++ m_queue_in st0)
          (m_queue_out st0) (m_errors st0) done st (loaders c))
  /\ (m_queue_in st = []
      \/ forall i, loaders c !! i = Some loader_left ->
                   loaders c0 !! i = Some loader_left).

Definition stopped (aTable : FP_LIB_TABLE) (c0 c : THREADS) : Prop :=
  let st0 := members c0 in
  let st := members c in
  caller c = caller_left None
  /\ loaders c = [] /\ parsers c = []
  /\ m_threads st = 0%nat /\ m_queue_in st = []
  /\ m_count_finished st = 0
  /\ m_list st = m_list st0
  /\ m_list_timestamp st = m_list_timestamp st0
  /\ exists done rest,
       done ++ rest ≡ₚ List.flat_map holding (loaders c0) ++ m_queue_in st0
       /\ m_queue_out st
          = m_queue_out st0 ++ List.filter (fetched aTable) done
       /\ m_errors st
          = m_errors st0 ++ List.flat_map (fetch_errors aTable) done
       /\ (forallb loader_has_left (loaders c0) = false -> rest = []).

(** The same, the flag being set. *)
Definition stopping_cancelled (aTable : FP_LIB_TABLE) (c0 c : THREADS)
    : Prop :=
  let st0 := members c0 in
  let st := members c in
  m_cancelled st = true
  /\ m_list st = m_list st0
  /\ caller c = caller_stops
  /\ generatedTimestamp c = None
  /\ parsers c = []
  /\ exists done,
       loaders_finish aTable (List.flat_map fetching (loaders c0))
         (m_queue_out st0) (m_errors st0) done st (loaders c).

Definition stopped_cancelled (aTable : FP_LIB_TABLE) (c0 c : THREADS)
    : Prop :=
  let st0 := members c0 in
  let st := members c in
  caller c = caller_left None
  /\ loaders c = [] /\ parsers c = []
  /\ m_cancelled st = true
  /\ m_list_timestamp st = 0
  /\ m_threads st = 0%nat /\ m_queue_in st = []
  /\ m_count_finished st = 0
  /\ m_list st = m_list st0
  /\ exists done,
       done ≡ₚ List.flat_map fetching (loaders c0)
       /\ m_queue_out st
          = m_queue_out st0 ++ List.filter (fetched aTable) done
       /\ m_errors st
          = m_errors st0 ++ List.flat_map (fetch_errors aTable) done.

(** How a call of [ReadFootprintFiles] that loads ends. *)
Definition load_ending (generated : Z) (c : THREADS) : Prop :=
  match caller c with
  | caller_left _ =>
      loaders c = [] /\ parsers c = []
      /\ m_list_timestamp (members c)
         = (if m_cancelled (members c) then 0 else generated)
  | _ => generatedTimestamp c = Some generated
  end.

(** What the moves of the threads leave alone. *)
Definition same_call (c c' : THREADS) : Prop :=
  caller c' = caller c
  /\ generatedTimestamp c' = generatedTimestamp c
  /\ m_cancelled (members c') = m_cancelled (members c)
  /\ m_list (members c') = m_list (members c)
  /\ m_list_timestamp (members c') = m_list_timestamp (members c)
  /\ m_progress_reporter (members c') = m_progress_reporter (members c).

(** *** How many moves a thread has before it *)

(** The moves that a loader thread has before it, at most, when no other
    thread takes from the queue. *)
Definition loader_moves_left (pos : LOADER) (queued : nat) : nat :=
  match pos with
  | loader_left => 0
  | loader_pops => 4 * queued + 1
  | loader_counts => 4 * queued + 2
  | loader_fetches _ => 4 * queued + 3
  | loader_tests _ => 4 * queued + 4
  end.

(** The same for a parsing thread: a library takes two moves for each of
    its names and five besides. *)
Definition library_moves (aTable : FP_LIB_TABLE) (nickname : wxString)
    : nat :=
  2 * length (fst (FootprintEnumerate aTable nickname)) + 5.

Definition parser_moves_left (aTable : FP_LIB_TABLE) (pos : PARSER)
    (queued : list wxString) : nat :=
  match pos with
  | parser_left => 0
  | parser_pops => sum_list (map (library_moves aTable) queued) + 1
  | parser_counts => sum_list (map (library_moves aTable) queued) + 2
  | parser_names _ fpnames =>
      sum_list (map (library_moves aTable) queued) + 2 * length fpnames + 3
  | parser_makes _ _ more =>
      sum_list (map (library_moves aTable) queued) + 2 * length more + 4
  | parser_enumerates nickname =>
      sum_list (map (library_moves aTable) queued)
      + library_moves aTable nickname - 1
  | parser_tests nickname =>
      sum_list (map (library_moves aTable) queued)
      + library_moves aTable nickname
  end.

Definition parser_bound (aTable : FP_LIB_TABLE) (c : THREADS) : nat :=
  sum_list (map (library_moves aTable) (m_queue_out (members c)))
  + sum_list (map (fun pos => parser_moves_left aTable pos []) (parsers c)).

End Moves.

(** ** More stand-ins *)

(** A footprint table for [load]: it has one footprint. *)
Definition sample_footprints (nickname fpname : wxString)
    : option FOOTPRINT :=
  if String.eqb nickname "Resistor_SMD" && String.eqb fpname "R_0402"
  then Some {| footprint_GetPadCount := fun _ => 2;
               footprint_GetUniquePadCount := fun _ => 2;
               footprint_GetKeywords := "resistor";
               footprint_GetDescription := "0402 chip resistor" |}
  else None.

(** A table with a library whose fetching throws something that is
    neither an [IO_ERROR] nor a [std::exception]. *)
Definition foreign_table : FP_LIB_TABLE :=
  {| GenerateTimestamp := fun _ => 3;
     GetLogicalLibs := ["Odd"];
     PrefetchLib := fun _ => Throws throw_other;
     FootprintEnumerate := fun _ => ([], None);
     new_FOOTPRINT_INFO_IMPL := fun nickname fpname =>
       Returns (FOOTPRINT_INFO_IMPL nickname fpname "" "" 0 0 0) |}.

(** A list that holds two loader threads and two queued libraries. *)
Definition busy_list (cancelled : bool) : FOOTPRINT_LIST_IMPL :=
  set_cancelled cancelled
    (set_list_timestamp 9
       (set_threads 2
          (set_queue_in ["Broken"; "Connector"] FOOTPRINT_LIST_IMPL_new))).

(** Runs of the threads, one operation at a time, for [sample_table] and
    the six loader threads and five parsing threads of
    [sample_externals]. *)

(** A load that nothing cancels: three loader threads share the three
    libraries, the reporter is asked once, the other threads find the
    queue empty, and two parsing threads share the two libraries that
    were fetched. *)
Definition sample_load_moves : list MOVE :=
  map loader_moves [0; 1; 2; 0; 1; 2; 2; 1; 0; 0; 1; 2]%nat
  ++ [caller_moves true]
  ++ map loader_moves [0; 1; 2; 3; 4; 5]%nat
  ++ [caller_moves true]
  ++ map parser_moves [0; 1; 1; 1; 1; 1; 0; 0; 0; 0; 1; 1; 1; 0; 0; 1; 1;
                       0; 2; 3; 4]%nat
  ++ [caller_moves true; caller_moves true].

(** A load cancelled while two loader threads are fetching. *)
Definition cancelled_load_moves : list MOVE :=
  map loader_moves [0; 1; 0; 1; 0]%nat
  ++ [caller_moves true; caller_moves false; caller_moves true]
  ++ map loader_moves [1; 0; 1; 2; 2; 3; 4; 5; 0; 0; 1; 1; 1]%nat
  ++ [caller_moves true].

(** A load cancelled while a parsing thread is between the two entries of
    a library. *)
Definition half_parsed_moves : list MOVE :=
  map loader_moves [0; 0; 0; 0; 0; 0; 0; 0; 0; 0; 0; 0; 0; 1; 2; 3; 4; 5]%nat
  ++ [caller_moves true; caller_moves true]
  ++ map parser_moves [0; 0; 0; 0; 0]%nat
  ++ [caller_moves true; caller_moves false; caller_moves true]
  ++ map parser_moves [0; 0; 0; 0; 1; 1; 2; 3; 4]%nat
  ++ [caller_moves true].

(** Two loader threads, one of them fetching, and two queued libraries. *)
Definition busy_threads (cancelled : bool) : THREADS :=
  {| members := set_cancelled cancelled
                  (set_list_timestamp 9
                     (set_queue_in ["Broken"; "Connector"]
                        FOOTPRINT_LIST_IMPL_new));
     loaders := [loader_fetches "Resistor_SMD"; loader_pops];
     parsers := []; caller := caller_left None;
     generatedTimestamp := None |}.

(** The second thread goes through a library while the first one is
    fetching. *)
Definition stop_moves : list MOVE :=
  map loader_moves [1; 1; 1; 0; 0; 0; 0; 0; 0; 1; 0; 1]%nat
  ++ [caller_moves true].

(** Two libraries fetched, the loader threads having left. *)
Definition fetched_threads : THREADS :=
  {| members := set_queue_out ["Resistor_SMD"; "Connector"]
                  FOOTPRINT_LIST_IMPL_new;
     loaders := [loader_left; loader_left]; parsers := [];
     caller := caller_left None; generatedTimestamp := None |}.

(** The second parsing thread has done with its library before the first
    one has. *)
Definition join_moves : list MOVE :=
  [caller_moves true]
  ++ map parser_moves [0; 1; 1; 1; 1; 1; 0; 0; 0; 0; 1; 1; 1; 0; 0; 0; 0;
                       0; 2; 3; 4]%nat
  ++ [caller_moves true; caller_moves true].

End Footprint.

(* ===================================================================== *)
(** * Part II: properties                                                 *)
(* ===================================================================== *)

(** ** Machine integers and bits *)

Lemma to_int_id (z : Z) : is_int z -> to_int z = z.
Proof.
  unfold is_int, to_int. intros H.
  rewrite Z.mod_small; lia.
Qed.

Lemma land_bit3 (x : Z) : Z.land x 8 = 0 \/ Z.land x 8 = 8.
Proof.
  destruct (Z.testbit x 3) eqn:E; [right|left]; apply Z.bits_inj'; intros n Hn;
    rewrite Z.land_spec; change 8 with (2 ^ 3);
    rewrite Z.pow2_bits_eqb by lia.
  - destruct (Z.eqb_spec 3 n) as [<-|]; [by rewrite E|by rewrite andb_false_r].
  - rewrite Z.bits_0.
    destruct (Z.eqb_spec 3 n) as [<-|]; [by rewrite E|by rewrite andb_false_r].
Qed.

Lemma four_bits (a : Z) : 0 <= a < 16 ->
  a = 0 \/ a = 1 \/ a = 2 \/ a = 3 \/ a = 4 \/ a = 5 \/ a = 6 \/ a = 7 \/
  a = 8 \/ a = 9 \/ a = 10 \/ a = 11 \/ a = 12 \/ a = 13 \/ a = 14 \/ a = 15.
Proof. lia. Qed.

(** ** The commit engine *)

Import Commit.

Section CommitProperties.
Context `{B : BINDING}.

(** *** Change types *)

Lemma flags_of_cases (t : CHANGE_TYPE) : flags_of t = 0 \/ flags_of t = 8.
Proof.
  unfold flags_of, operator_and. change (to_int CHT_FLAGS) with 8.
  apply land_bit3.
Qed.

Lemma valid_type_merged (t : CHANGE_TYPE) :
  valid_type t = true -> In (kind_of t .| flags_of t) record_types.
Proof.
  unfold valid_type. intros H. apply andb_true_iff in H as [Hk Hf].
  destruct (flags_of_cases t) as [F|F]; rewrite F in *;
    repeat (apply orb_true_iff in Hk as [Hk|Hk]);
    apply Z.eqb_eq in Hk; rewrite Hk in *;
    vm_compute in Hf |- *; try discriminate; tauto.
Qed.

Lemma record_types_int (t : CHANGE_TYPE) :
  In t record_types -> is_int t /\ t <> 0.
Proof.
  unfold record_types, is_int. simpl. intros H.
  repeat (destruct H as [<-|H]; [lia|]). done.
Qed.

(** *** Looking a record up *)

Lemma findEntry_Some (c : COMMIT) (i : EDA_ITEM_ptr) (e : COMMIT_LINE) :
  findEntry c i = Some e -> In e (m_changes c) /\ m_item e = i.
Proof.
  unfold findEntry. intros H. apply find_some in H as [H1 H2].
  split; [done|]. by apply N.eqb_eq.
Qed.

Lemma findEntry_None (c : COMMIT) (i : EDA_ITEM_ptr) :
  findEntry c i = None <-> ~ In i (List.map m_item (m_changes c)).
Proof.
  unfold findEntry. split.
  - intros H Hin. apply in_map_iff in Hin as (e & He & Hin).
    eapply find_none in H; [|exact Hin]. apply N.eqb_neq in H. done.
  - intros H. destruct (find _ _) eqn:E; [|done].
    apply find_some in E as [E1 E2]. apply N.eqb_eq in E2.
    exfalso. apply H. apply in_map_iff. eauto.
Qed.

Lemma find_item_app (l1 l2 : list COMMIT_LINE) (i : EDA_ITEM_ptr) :
  find (fun e => N.eqb (m_item e) i) (l1 ++ l2) =
  match find (fun e => N.eqb (m_item e) i) l1 with
  | Some e => Some e
  | None => find (fun e => N.eqb (m_item e) i) l2
  end.
Proof.
  induction l1 as [|a l1 IH]; simpl; [done|].
  destruct (N.eqb (m_item a) i); done.
Qed.

Lemma NoDup_items_inj (l : list COMMIT_LINE) (a b : COMMIT_LINE) :
  NoDup (List.map m_item l) -> In a l -> In b l -> m_item a = m_item b ->
  a = b.
Proof.
  induction l as [|x l IH]; simpl; [done|].
  intros [Hx Hnd]%NoDup_cons [->|Ha] [->|Hb] Hab; auto.
  - exfalso. apply Hx. rewrite Hab. apply list_elem_of_In, in_map_iff. eauto.
  - exfalso. apply Hx. rewrite <- Hab.
    apply list_elem_of_In, in_map_iff. eauto.
Qed.

Lemma findEntry_of_record (c : COMMIT) (e : COMMIT_LINE) :
  ledger_inv c -> In e (m_changes c) -> findEntry c (m_item e) = Some e.
Proof.
  intros [Hnd _] Hin.
  destruct (findEntry c (m_item e)) as [e'|] eqn:Hf.
  - apply findEntry_Some in Hf as [Hin' Heq]. f_equal.
    by apply (NoDup_items_inj (m_changes c)).
  - apply findEntry_None in Hf. exfalso. apply Hf, in_map_iff. eauto.
Qed.

(** *** The invariant through the changes of the ledger *)

Lemma COMMIT_new_ledger_inv : ledger_inv COMMIT_new.
Proof. split; simpl; [constructor|]. intros i. set_solver. Qed.

Lemma COMMIT_new_types_ok : types_ok COMMIT_new.
Proof. constructor. Qed.

Lemma clear_ledger_inv (c : COMMIT) : ledger_inv (clear c).
Proof. split; simpl; [constructor|]. intros i. set_solver. Qed.

Lemma makeEntry_ledger_inv (c : COMMIT) (i : EDA_ITEM_ptr)
    (t : CHANGE_TYPE) (copy : option EDA_ITEM) :
  findEntry c i = None -> ledger_inv c -> ledger_inv (makeEntry c i t copy).
Proof.
  intros Hnone [Hnd Hset]. apply findEntry_None in Hnone.
  split; simpl; rewrite map_app; simpl.
  - apply NoDup_app. split_and!; [done| |apply NoDup_singleton].
    intros x Hx ->%list_elem_of_singleton. apply Hnone.
    by apply list_elem_of_In.
  - intros j. rewrite in_app_iff, elem_of_union, elem_of_singleton, Hset.
    simpl. intuition.
Qed.

Lemma eraseEntry_ledger_inv (c : COMMIT) (i : EDA_ITEM_ptr) :
  ledger_inv c -> ledger_inv (eraseEntry c i).
Proof.
  intros [Hnd Hset].
  assert (Hmap : forall j, In j (List.map m_item
      (List.filter (fun e => negb (N.eqb (m_item e) i)) (m_changes c)))
      <-> In j (List.map m_item (m_changes c)) /\ j <> i).
  { intros j. rewrite !in_map_iff. split.
    - intros (e & <- & He). apply filter_In in He as [He Hne].
      apply negb_true_iff, N.eqb_neq in Hne. eauto.
    - intros [(e & <- & He) Hne]. exists e. split; [done|].
      apply filter_In. split; [done|]. by apply negb_true_iff, N.eqb_neq. }
  split; simpl.
  - clear Hset Hmap.
    induction (m_changes c) as [|a l IH]; simpl; [constructor|].
    simpl in Hnd. apply NoDup_cons in Hnd as [Hna Hnd].
    destruct (negb _); simpl; [|by apply IH].
    apply NoDup_cons. split; [|by apply IH].
    intros Hin. apply Hna. apply list_elem_of_In in Hin.
    apply list_elem_of_In.
    apply in_map_iff in Hin as (e & He & Hin).
    apply filter_In in Hin as [Hin _].
    apply in_map_iff. eauto.
  - intros j. rewrite Hmap, elem_of_difference, elem_of_singleton, Hset.
    done.
Qed.

Lemma replaceEntry_items (c : COMMIT) (i : EDA_ITEM_ptr) (ent : COMMIT_LINE) :
  m_item ent = i ->
  List.map m_item (m_changes (replaceEntry c i ent))
  = List.map m_item (m_changes c).
Proof.
  intros Hent. simpl. rewrite List.map_map. apply List.map_ext_in.
  intros a _. destruct (N.eqb_spec (m_item a) i); congruence.
Qed.

Lemma replaceEntry_ledger_inv (c : COMMIT) (i : EDA_ITEM_ptr)
    (ent : COMMIT_LINE) :
  m_item ent = i -> ledger_inv c -> ledger_inv (replaceEntry c i ent).
Proof.
  intros Hent [Hnd Hset]. unfold ledger_inv.
  rewrite (replaceEntry_items c i ent Hent). done.
Qed.

Lemma stage_ledger_inv (c : COMMIT) (i : EDA_ITEM_ptr) (t : CHANGE_TYPE)
    (copy : option EDA_ITEM) :
  ledger_inv c -> ledger_inv (stage c i t copy).
Proof.
  intros Hinv. unfold stage.
  destruct (negb (valid_type t)); [done|].
  destruct (findEntry c i) as [e|] eqn:Hfind.
  - repeat case_match;
      auto using eraseEntry_ledger_inv, replaceEntry_ledger_inv.
  - by apply makeEntry_ledger_inv.
Qed.

Lemma stage_types_ok (c : COMMIT) (i : EDA_ITEM_ptr) (t : CHANGE_TYPE)
    (copy : option EDA_ITEM) :
  types_ok c -> types_ok (stage c i t copy).
Proof.
  intros Hok. unfold stage.
  destruct (negb (valid_type t)) eqn:Hv; [done|].
  apply negb_false_iff in Hv.
  assert (Hrec : forall x, In x (m_changes c) -> In (m_type x) record_types).
  { intros x Hx. unfold types_ok in Hok. rewrite Forall_forall in Hok.
    apply Hok. by apply list_elem_of_In. }
  destruct (findEntry c i) as [e|] eqn:Hfind.
  - apply findEntry_Some in Hfind as [Hin _].
    repeat case_match; try done.
    + unfold types_ok, eraseEntry; simpl.
      apply Forall_forall. intros x Hx%list_elem_of_In.
      apply filter_In in Hx as [Hx _]. by apply Hrec.
    + unfold types_ok, replaceEntry; simpl.
      apply Forall_forall. intros x Hx%list_elem_of_In.
      apply in_map_iff in Hx as (a & <- & Ha).
      destruct (N.eqb (m_item a) i); simpl; [|by apply Hrec].
      destruct (flags_of_cases (m_type e)) as [-> | ->],
               (flags_of_cases t) as [-> | ->]; vm_compute; tauto.
  - unfold types_ok, makeEntry; simpl. apply Forall_app. split; [done|].
    apply Forall_singleton. simpl. by apply valid_type_merged.
Qed.

Lemma request_ledger_inv (c : COMMIT) (r : REQUEST) :
  ledger_inv c -> ledger_inv (request c r).
Proof. destruct r; simpl; apply stage_ledger_inv. Qed.

Lemma request_types_ok (c : COMMIT) (r : REQUEST) :
  types_ok c -> types_ok (request c r).
Proof. destruct r; simpl; apply stage_types_ok. Qed.

Lemma requests_ledger_inv (rs : list REQUEST) : forall c,
  ledger_inv c -> ledger_inv (requests c rs).
Proof.
  induction rs as [|r rs IH]; intros c Hc; simpl; [done|].
  apply IH. by apply request_ledger_inv.
Qed.

Lemma requests_types_ok (rs : list REQUEST) : forall c,
  types_ok c -> types_ok (requests c rs).
Proof.
  induction rs as [|r rs IH]; intros c Hc; simpl; [done|].
  apply IH. by apply request_types_ok.
Qed.

(** *** Staging one item leaves the records of the others alone *)

Lemma stage_frame (c : COMMIT) (i j : EDA_ITEM_ptr) (t : CHANGE_TYPE)
    (copy : option EDA_ITEM) :
  i <> j -> findEntry (stage c j t copy) i = findEntry c i.
Proof.
  intros Hne. unfold stage.
  destruct (negb (valid_type t)); [done|].
  destruct (findEntry c j) as [e|] eqn:Hfind.
  - repeat case_match; try done.
    + unfold findEntry, eraseEntry; simpl.
      induction (m_changes c) as [|a l IH]; simpl; [done|].
      destruct (N.eqb_spec (m_item a) j) as [Ha|Ha]; simpl.
      * destruct (N.eqb_spec (m_item a) i); [congruence|done].
      * destruct (N.eqb (m_item a) i); done.
    + unfold findEntry, replaceEntry; simpl.
      induction (m_changes c) as [|a l IH]; simpl; [done|].
      destruct (N.eqb_spec (m_item a) j) as [Ha|Ha]; simpl.
      * destruct (N.eqb_spec j i); [congruence|].
        destruct (N.eqb_spec (m_item a) i); [congruence|done].
      * destruct (N.eqb (m_item a) i); done.
  - unfold findEntry, makeEntry; simpl. rewrite find_item_app. simpl.
    destruct (N.eqb_spec j i); [congruence|].
    by destruct (find _ _).
Qed.

Lemma request_frame (c : COMMIT) (r : REQUEST) (i : EDA_ITEM_ptr) :
  i <> request_item r -> findEntry (request c r) i = findEntry c i.
Proof. destruct r; simpl; intros Hne; by apply stage_frame. Qed.

Lemma requests_frame (rs : list REQUEST) : forall c i,
  ~ In i (List.map request_item rs) ->
  findEntry (requests c rs) i = findEntry c i.
Proof.
  induction rs as [|r rs IH]; intros c i Hni; simpl; [done|].
  simpl in Hni. unfold requests in *. simpl. rewrite IH by tauto.
  apply request_frame. intros ->. tauto.
Qed.

Lemma Stage_fresh (c : COMMIT) (i : EDA_ITEM_ptr) (t : CHANGE_TYPE) :
  valid_type t = true -> findEntry c i = None ->
  findEntry (Stage c i t) i =
    Some {| m_item := i;
            m_copy := if kind_of t =? CHT_MODIFY then Some (Clone i)
                      else None;
            m_type := kind_of t .| flags_of t |}.
Proof.
  intros Hv Hf. unfold Stage, stage. rewrite Hv, Hf. simpl.
  unfold findEntry, makeEntry. simpl. rewrite find_item_app.
  unfold findEntry in Hf. rewrite Hf. simpl. by rewrite N.eqb_refl.
Qed.

(** *** Push only speaks of the items of the ledger *)

Lemma push_calls_items (c : COMMIT) (aMessage : string) (u d k : bool)
    (call : CALL) (j : EDA_ITEM_ptr) :
  In call (fst (Push c aMessage u d k)) -> In j (call_items call) ->
  In j (List.map m_item (m_changes c)).
Proof.
  unfold Push. destruct (Empty c); simpl; [done|].
  rewrite !in_app_iff. intros [H|[H|[H|H]]] Hj.
  - apply in_concat in H as (calls & Hcalls & H).
    apply in_map_iff in Hcalls as (e & <- & He).
    assert (j = m_item e) as ->; [|apply in_map_iff; eauto].
    unfold push_line in H. apply in_app_iff in H as [H|H].
    + destruct (flags_of (m_type e) =? CHT_DONE); [done|].
      destruct (kind_of (m_type e) =? CHT_ADD);
        [|destruct (kind_of (m_type e) =? CHT_REMOVE); [|done]];
        destruct H as [<-|[]]; simpl in Hj; intuition.
    + destruct H as [<-|[]]; simpl in Hj; intuition.
  - destruct u; simpl in H; [|done]. destruct H as [<-|[]]. done.
  - destruct d; simpl in H; [|done]. destruct H as [<-|[]]. done.
  - destruct k; simpl in H; [|done]. destruct H as [<-|[]]. done.
Qed.

(** *** The claims about the engine *)

(** C1. An item that is staged as added and then, before Push, as removed
    has its record deleted entirely, whatever is staged for other items in
    between: the ledger holds no record for it, neither in the sequence nor
    in the set, its status is 0, and no call that Push makes, be it a
    mutation of the model, a notification or the undo entry, is about it.
    The item has no record when it is first staged. *)
Theorem C1_add_then_remove_cancels (c : COMMIT) (i : EDA_ITEM_ptr)
    (between : list REQUEST) :
  ledger_inv c ->
  findEntry c i = None ->
  ~ In i (List.map request_item between) ->
  let c' := Stage (requests (Stage c i CHT_ADD) between) i CHT_REMOVE in
  findEntry c' i = None
  /\ (i ∉ m_changedItems c')
  /\ ~ In i (List.map m_item (m_changes c'))
  /\ GetStatus c' i = 0
  /\ forall aMessage undo dirty conn call,
       In call (fst (Push c' aMessage undo dirty conn)) ->
       ~ In i (call_items call).
Proof.
  intros Hinv Hfresh Hmid c'.
  pose proof (Stage_fresh c i CHT_ADD eq_refl Hfresh) as Hadd.
  assert (Hc2 : findEntry (requests (Stage c i CHT_ADD) between) i
                = Some {| m_item := i; m_copy := None; m_type := 1 |}).
  { rewrite requests_frame by done. exact Hadd. }
  assert (Hinv2 : ledger_inv (requests (Stage c i CHT_ADD) between)).
  { apply requests_ledger_inv. by apply stage_ledger_inv. }
  assert (Hc' : c' = eraseEntry (requests (Stage c i CHT_ADD) between) i).
  { unfold c', Stage at 1, stage. rewrite Hc2. reflexivity. }
  assert (Hinv' : ledger_inv c').
  { rewrite Hc'. by apply eraseEntry_ledger_inv. }
  assert (Hset : i ∉ m_changedItems c').
  { rewrite Hc'. simpl. intros [_ Hin]%elem_of_difference.
    apply Hin. by apply elem_of_singleton. }
  assert (Hseq : ~ In i (List.map m_item (m_changes c'))).
  { intros Hin. apply Hset. by apply Hinv'. }
  assert (Hnone : findEntry c' i = None).
  { by apply findEntry_None. }
  split_and!; try done.
  - unfold GetStatus. by rewrite Hnone.
  - intros aMessage undo dirty conn call Hcall Hi.
    apply Hseq. eapply push_calls_items; eauto.
Qed.

(** C2. In a transaction, that is after any sequence of staging requests on
    a new engine: an item that was never staged has no entry ([findEntry]
    gives the not-found sentinel) and status 0; an item with a record has
    exactly that one record, [findEntry] finds it, and the status is the
    type of the record, which is one of ADD, REMOVE, MODIFY, ADD|DONE and
    REMOVE|DONE; the status is 0 exactly when there is no entry, which is
    exactly when the item is not in the set of staged items. *)
Theorem C2_GetStatus_sentinel_or_merged_type (rs : list REQUEST)
    (i : EDA_ITEM_ptr) :
  let c := requests COMMIT_new rs in
  (~ In i (List.map request_item rs) ->
     findEntry c i = None /\ GetStatus c i = 0)
  /\ (forall e, In e (m_changes c) -> m_item e = i ->
        findEntry c i = Some e
        /\ GetStatus c i = m_type e
        /\ In (GetStatus c i)
              [CHT_ADD; CHT_REMOVE; CHT_MODIFY;
               CHT_ADD .| CHT_DONE; CHT_REMOVE .| CHT_DONE]
        /\ forall e', In e' (m_changes c) -> m_item e' = i -> e' = e)
  /\ (GetStatus c i = 0 <-> findEntry c i = None)
  /\ (findEntry c i = None <-> (i ∉ m_changedItems c)).
Proof.
  intros c.
  assert (Hinv : ledger_inv c)
    by (apply requests_ledger_inv, COMMIT_new_ledger_inv).
  assert (Hty : types_ok c)
    by (apply requests_types_ok, COMMIT_new_types_ok).
  assert (Hrec : forall e, In e (m_changes c) -> m_item e = i ->
            findEntry c i = Some e /\ GetStatus c i = m_type e
            /\ In (GetStatus c i) record_types).
  { intros e He <-. pose proof (findEntry_of_record c e Hinv He) as Hf.
    unfold types_ok in Hty. rewrite Forall_forall in Hty.
    pose proof (Hty e (proj2 (list_elem_of_In _ _) He)) as Ht.
    unfold GetStatus. rewrite Hf.
    rewrite to_int_id by apply (record_types_int _ Ht). done. }
  split_and!.
  - intros Hni.
    assert (findEntry c i = None) as Hf.
    { unfold c. rewrite requests_frame by done. reflexivity. }
    split; [done|]. unfold GetStatus. by rewrite Hf.
  - intros e He Hi. destruct (Hrec e He Hi) as (Hf & Hs & Ht).
    split_and!; try done.
    intros e' He' Hi'. destruct Hinv as [Hnd _].
    apply (NoDup_items_inj (m_changes c)); congruence.
  - split.
    + intros Hz. destruct (findEntry c i) as [e|] eqn:Hf; [|done].
      apply findEntry_Some in Hf as [He Hi].
      destruct (Hrec e He Hi) as (_ & _ & Ht).
      apply record_types_int in Ht as [_ Ht]. done.
    + intros Hf. unfold GetStatus. by rewrite Hf.
  - rewrite findEntry_None. destruct Hinv as [_ Hset]. by rewrite Hset.
Qed.

(** C3. The invariant of the ledger, at most one record per item and the
    set of staged items holding exactly the items of the records, holds on
    a new engine and after any sequence of staging requests on it, and is
    kept by Stage, Modified, StageItems, Push, Revert and clear; after
    clear both containers are empty. *)
Theorem C3_ledger_invariant (c : COMMIT) :
  ledger_inv c ->
  (forall aItem aChangeType, ledger_inv (Stage c aItem aChangeType))
  /\ (forall aItem aCopy, ledger_inv (Modified c aItem aCopy))
  /\ (forall aRange aChangeType, ledger_inv (StageItems c aRange aChangeType))
  /\ (forall aMessage undo dirty conn,
        ledger_inv (snd (Push c aMessage undo dirty conn)))
  /\ ledger_inv (snd (Revert c))
  /\ ledger_inv (clear c)
  /\ m_changedItems (clear c) = ∅
  /\ m_changes (clear c) = []
  /\ ledger_inv COMMIT_new
  /\ (forall rs, ledger_inv (requests COMMIT_new rs)).
Proof.
  intros Hinv. split_and!; try done.
  - intros. by apply stage_ledger_inv.
  - intros. by apply stage_ledger_inv.
  - intros aRange aChangeType. revert c Hinv.
    unfold StageItems, StageItems_with.
    induction aRange as [|x l IH]; intros c Hinv; simpl; [done|].
    apply IH. by apply stage_ledger_inv.
  - intros. unfold Push. destruct (Empty c); simpl; [done|].
    apply clear_ledger_inv.
  - apply clear_ledger_inv.
  - apply clear_ledger_inv.
  - apply COMMIT_new_ledger_inv.
  - intros rs. apply requests_ledger_inv, COMMIT_new_ledger_inv.
Qed.

(** C4. The convenience members are Stage with the corresponding type,
    whatever implements the virtual Stage, and return what it returns, the
    engine, so that calls chain: Add stages ADD, Added stages ADD|DONE (9),
    Remove stages REMOVE, Removed stages REMOVE|DONE (10), Modify stages
    MODIFY. The operators | and & are the bitwise OR and AND of the
    integers, the four-bit values are closed under them, and the kind and
    the flag of the combined types can be read back. *)
Theorem C4_convenience_methods_and_operators
    (Stage' : COMMIT -> EDA_ITEM_ptr -> CHANGE_TYPE -> COMMIT)
    (c : COMMIT) (i j : EDA_ITEM_ptr) :
  (Add_with Stage' c i = Stage' c i CHT_ADD
   /\ Added_with Stage' c i = Stage' c i 9
   /\ Remove_with Stage' c i = Stage' c i CHT_REMOVE
   /\ Removed_with Stage' c i = Stage' c i 10
   /\ Modify_with Stage' c i = Stage' c i CHT_MODIFY
   /\ Remove_with Stage' (Add_with Stage' c i) j
      = Stage' (Stage' c i CHT_ADD) j CHT_REMOVE)
  /\ (Add c i = Stage c i CHT_ADD
      /\ Added c i = Stage c i (CHT_ADD .| CHT_DONE)
      /\ Remove c i = Stage c i CHT_REMOVE
      /\ Removed c i = Stage c i (CHT_REMOVE .| CHT_DONE)
      /\ Modify c i = Stage c i CHT_MODIFY)
  /\ (forall a b : Z, is_int a -> is_int b ->
        a .| b = Z.lor a b /\ a .& b = Z.land a b)
  /\ (forall a b : Z, 0 <= a < 16 -> 0 <= b < 16 ->
        0 <= a .| b < 16 /\ 0 <= a .& b < 16)
  /\ (CHT_ADD .| CHT_DONE = 9
      /\ CHT_REMOVE .| CHT_DONE = 10
      /\ kind_of (CHT_ADD .| CHT_DONE) = CHT_ADD
      /\ flags_of (CHT_ADD .| CHT_DONE) = CHT_DONE
      /\ kind_of (CHT_REMOVE .| CHT_DONE) = CHT_REMOVE
      /\ flags_of (CHT_REMOVE .| CHT_DONE) = CHT_DONE).
Proof.
  split_and!; try reflexivity.
  - intros a b Ha Hb. unfold operator_or, operator_and.
    by rewrite !to_int_id.
  - intros a b Ha Hb.
    apply four_bits in Ha, Hb.
    repeat (destruct Ha as [->|Ha]); try subst a;
      repeat (destruct Hb as [->|Hb]); try subst b;
      vm_compute; split; split; congruence.
Qed.

End CommitProperties.

(** *** The engine on concrete transactions *)

(** The scenario of the specification: Stage(A, ADD), Stage(B, MODIFY,
    before = B0), Stage(A, REMOVE), Push: only the record of B is left, and
    Push notifies of B alone. *)
Example scenario_add_modify_remove :
  let c := Stage (B := sample_binding)
             (Modified (Add COMMIT_new 1%N) 2%N sample_snapshot)
             1%N CHT_REMOVE in
  let record_of_B := {| m_item := 2%N; m_copy := Some sample_snapshot;
                        m_type := CHT_MODIFY |} in
  m_changes c = [ record_of_B ]
  /\ fst (Push c "move" true false false)
     = [ Notify CHT_MODIFY 2%N; UndoEntry "move" [ record_of_B ] ].
Proof. split; reflexivity. Qed.

Example status_examples :
  GetStatus (B := sample_binding) (Added COMMIT_new 3%N) 3%N = 9
  /\ GetStatus (B := sample_binding) (Added COMMIT_new 3%N) 4%N = 0
  /\ GetStatus (B := sample_binding) (Modify (Add COMMIT_new 3%N) 3%N) 3%N
     = CHT_ADD
  /\ GetStatus (B := sample_binding)
       (Removed (Modify COMMIT_new 3%N) 3%N) 3%N = 10
  /\ GetStatus (B := sample_binding)
       (Add (Remove COMMIT_new 3%N) 3%N) 3%N = CHT_REMOVE.
Proof. repeat split; reflexivity. Qed.

Lemma C1_add_then_remove_cancels_witness :
  ledger_inv (B := sample_binding) COMMIT_new
  /\ findEntry (B := sample_binding) COMMIT_new 1%N = None
  /\ ~ In 1%N (List.map (request_item (B := sample_binding))
                 [ReqModified 2%N sample_snapshot])
  /\ let c' := Stage (B := sample_binding)
                 (requests (Stage COMMIT_new 1%N CHT_ADD)
                    [ReqModified 2%N sample_snapshot]) 1%N CHT_REMOVE in
     findEntry c' 1%N = None
     /\ (1%N ∉ m_changedItems c')
     /\ ~ In 1%N (List.map m_item (m_changes c'))
     /\ GetStatus c' 1%N = 0
     /\ forall aMessage undo dirty conn call,
          In call (fst (Push c' aMessage undo dirty conn)) ->
          ~ In 1%N (call_items call).
Proof.
  assert (H3 : ~ In 1%N (List.map (request_item (B := sample_binding))
                           [ReqModified 2%N sample_snapshot])).
  { simpl. intros [H|[]]. discriminate H. }
  split_and!;
    [ apply COMMIT_new_ledger_inv | reflexivity | exact H3
    | exact (C1_add_then_remove_cancels (B := sample_binding) COMMIT_new 1%N
               [ReqModified 2%N sample_snapshot] COMMIT_new_ledger_inv
               eq_refl H3) ].
Defined.

Lemma C2_GetStatus_sentinel_or_merged_type_witness :
  ~ In 3%N (List.map (request_item (B := sample_binding))
              [ReqStage 1%N CHT_ADD; ReqStage 2%N CHT_REMOVE])
  /\ (let c := requests (B := sample_binding) COMMIT_new
                 [ReqStage 1%N CHT_ADD; ReqStage 2%N CHT_REMOVE] in
      findEntry c 3%N = None /\ GetStatus c 3%N = 0).
Proof.
  assert (H : ~ In 3%N (List.map (request_item (B := sample_binding))
                          [ReqStage 1%N CHT_ADD; ReqStage 2%N CHT_REMOVE])).
  { simpl. intros [H|[H|[]]]; discriminate H. }
  split; [exact H|].
  exact (proj1 (C2_GetStatus_sentinel_or_merged_type (B := sample_binding)
                  [ReqStage 1%N CHT_ADD; ReqStage 2%N CHT_REMOVE] 3%N) H).
Defined.

Lemma C3_ledger_invariant_witness :
  ledger_inv (B := sample_binding) COMMIT_new
  /\ ledger_inv (Stage (B := sample_binding) COMMIT_new 1%N CHT_ADD)
  /\ ledger_inv (snd (Push (B := sample_binding) COMMIT_new "" true true true)).
Proof.
  pose proof (C3_ledger_invariant (B := sample_binding) COMMIT_new
                COMMIT_new_ledger_inv) as (HS & _ & _ & HP & _).
  split_and!; [apply COMMIT_new_ledger_inv | apply HS | apply HP].
Defined.

Lemma C4_convenience_methods_and_operators_witness :
  is_int 1 /\ is_int 8
  /\ (1 .| 8 = Z.lor 1 8 /\ 1 .& 8 = Z.land 1 8).
Proof.
  assert (H1 : is_int 1) by (unfold is_int; lia).
  assert (H8 : is_int 8) by (unfold is_int; lia).
  split_and!; [exact H1 | exact H8 | |];
    apply (proj1 (proj2 (proj2
             (C4_convenience_methods_and_operators (B := sample_binding)
                Stage COMMIT_new 1%N 2%N))) 1 8 H1 H8).
Defined.

(** ** The footprint list *)

Import Footprint.

Section FootprintProperties.
Context `{X : EXTERNALS}.

(** *** What loops keep *)

Section Preserved.
Variable R : FOOTPRINT_LIST_IMPL -> FOOTPRINT_LIST_IMPL -> Prop.
Hypothesis R_refl : forall st, R st st.
Hypothesis R_trans : forall st1 st2 st3, R st1 st2 -> R st2 st3 -> R st1 st3.

Lemma loop_rounds_preserves (round : THROWING bool) :
  (forall st r st', round st = (r, st') -> R st st') ->
  forall fuel st r st', loop_rounds round fuel st = (r, st') -> R st st'.
Proof.
  intros Hround. induction fuel as [|fuel IH]; intros st r st'; simpl.
  - intros [= _ <-]. apply R_refl.
  - destruct (round st) as [[[|]|e] st1] eqn:E; apply Hround in E.
    + intros H. apply IH in H. eauto.
    + intros [= _ <-]. done.
    + intros [= _ <-]. done.
Qed.

Lemma join_threads_preserves (job : THROWING unit) :
  (forall st r st', job st = (r, st') -> R st st') ->
  forall threads st r st', join_threads job threads st = (r, st') -> R st st'.
Proof.
  intros Hjob. induction threads as [|threads IH]; intros st r st'; simpl.
  - intros [= _ <-]. apply R_refl.
  - destruct (job st) as [[u|e] st1] eqn:E; apply Hjob in E.
    + intros H. apply IH in H. eauto.
    + intros [= _ <-]. done.
Qed.

End Preserved.

Section Fuel.
Variable round : THROWING bool.
Variable measure : FOOTPRINT_LIST_IMPL -> nat.
Hypothesis round_decreases : forall st st',
  round st = (Returns true, st') -> (measure st' < measure st)%nat.

(** Once the fuel exceeds the measure, more of it changes nothing. *)
Lemma loop_rounds_fuel (fuel1 : nat) : forall fuel2 st,
  (measure st < fuel1)%nat -> (measure st < fuel2)%nat ->
  loop_rounds round fuel1 st = loop_rounds round fuel2 st.
Proof.
  induction fuel1 as [|fuel1 IH]; intros fuel2 st H1 H2; [lia|].
  destruct fuel2 as [|fuel2]; [lia|]. simpl.
  destruct (round st) as [[[|]|e] st'] eqn:E; try done.
  apply round_decreases in E. apply IH; lia.
Qed.

End Fuel.

(** *** The loader threads *)

Lemma loaders_keep_refl (st : FOOTPRINT_LIST_IMPL) : loaders_keep st st.
Proof. unfold loaders_keep. split_and!; done. Qed.

Lemma loaders_keep_trans (st1 st2 st3 : FOOTPRINT_LIST_IMPL) :
  loaders_keep st1 st2 -> loaders_keep st2 st3 -> loaders_keep st1 st3.
Proof.
  unfold loaders_keep. intros (?&?&?&?&?&?&?&?) (?&?&?&?&?&?&?&?).
  split_and!; try congruence. lia.
Qed.

Lemma CatchErrors_keeps (aFunc : THROWING unit) :
  (forall st r st', aFunc st = (r, st') -> loaders_keep st st') ->
  forall st r st', CatchErrors aFunc st = (r, st') -> loaders_keep st st'.
Proof.
  intros HF st r st'. unfold CatchErrors.
  destruct (aFunc st) as [[u|[ioe|what|]] st1] eqn:E; apply HF in E;
    simpl; intros [= _ <-]; try done;
    destruct E as (?&?&?&?&?&?&?&?); split_and!; done.
Qed.

Lemma prefetch_keeps (aTable : FP_LIB_TABLE) (nickname : wxString)
    (st : FOOTPRINT_LIST_IMPL) (r : outcome unit) (st' : FOOTPRINT_LIST_IMPL) :
  prefetch aTable nickname st = (r, st') -> loaders_keep st st'.
Proof.
  unfold prefetch. destruct (PrefetchLib aTable nickname);
    intros [= _ <-]; split_and!; done.
Qed.

Lemma loader_job_round_keeps (aTable : FP_LIB_TABLE)
    (st : FOOTPRINT_LIST_IMPL) (r : outcome bool) (st' : FOOTPRINT_LIST_IMPL) :
  loader_job_round aTable st = (r, st') -> loaders_keep st st'.
Proof.
  unfold loader_job_round.
  destruct (m_queue_in st) as [|nickname rest] eqn:Hq.
  - intros [= _ <-]. apply loaders_keep_refl.
  - cbn [m_cancelled set_queue_in].
    destruct (m_cancelled st) eqn:Hc.
    + intros [= _ <-]. split_and!; simpl; try done. rewrite Hq. simpl. lia.
    + destruct (CatchErrors _ _) as [[b|e] st1] eqn:E;
        apply (CatchErrors_keeps _ (prefetch_keeps aTable nickname)) in E;
        intros [= _ <-]; destruct E as (Hlen&?&?&?&?&?&?&?); simpl in *;
        split_and!; try done; rewrite Hq; simpl; lia.
Qed.

Lemma loader_job_keeps (aTable : FP_LIB_TABLE) (st : FOOTPRINT_LIST_IMPL)
    (r : outcome unit) (st' : FOOTPRINT_LIST_IMPL) :
  loader_job aTable st = (r, st') -> loaders_keep st st'.
Proof.
  apply (loop_rounds_preserves loaders_keep loaders_keep_refl
           loaders_keep_trans).
  apply loader_job_round_keeps.
Qed.

Lemma join_loaders_keeps (aTable : FP_LIB_TABLE) (threads : nat)
    (st : FOOTPRINT_LIST_IMPL) (r : outcome unit) (st' : FOOTPRINT_LIST_IMPL) :
  join_threads (loader_job aTable) threads st = (r, st') ->
  loaders_keep st st'.
Proof.
  apply (join_threads_preserves loaders_keep loaders_keep_refl
           loaders_keep_trans).
  apply loader_job_keeps.
Qed.

Lemma loader_job_round_pops (aTable : FP_LIB_TABLE)
    (st st' : FOOTPRINT_LIST_IMPL) :
  loader_job_round aTable st = (Returns true, st') ->
  (length (m_queue_in st') < length (m_queue_in st))%nat.
Proof.
  unfold loader_job_round.
  destruct (m_queue_in st) as [|nickname rest] eqn:Hq; [intros [=]|].
  cbn [m_cancelled set_queue_in]. destruct (m_cancelled st); [intros [=]|].
  destruct (CatchErrors _ _) as [[b|e] st1] eqn:E; [|intros [=]].
  apply (CatchErrors_keeps _ (prefetch_keeps aTable nickname)) in E.
  destruct E as (Hlen & _). intros [= <-]. simpl in *. lia.
Qed.

(** [loader_job] has the fuel it needs: more rounds give the same result. *)
Lemma loader_job_fuel (aTable : FP_LIB_TABLE) (st : FOOTPRINT_LIST_IMPL)
    (fuel : nat) :
  (length (m_queue_in st) < fuel)%nat ->
  loop_rounds (loader_job_round aTable) fuel st = loader_job aTable st.
Proof.
  intros H. unfold loader_job.
  apply (loop_rounds_fuel _ (fun st => length (m_queue_in st))
           (loader_job_round_pops aTable)); lia.
Qed.

Lemma to_size_t_succ (c n : Z) :
  to_size_t (to_size_t (c + 1) + n) = to_size_t (c + (1 + n)).
Proof.
  unfold to_size_t. rewrite Zplus_mod_idemp_l. f_equal. lia.
Qed.

(** A thread that is not cancelled goes through the whole queue, whether
    the libraries can be fetched or not. *)
Lemma loader_rounds_all (aTable : FP_LIB_TABLE) (q : list wxString) :
  forall st fuel,
  m_queue_in st = q ->
  m_cancelled st = false ->
  Forall (fetch_caught aTable) q ->
  (length q < fuel)%nat ->
  exists st',
    loop_rounds (loader_job_round aTable) fuel st = (Returns tt, st')
    /\ m_queue_in st' = []
    /\ m_queue_out st' = m_queue_out st ++ List.filter (fetched aTable) q
    /\ m_errors st' = m_errors st ++ List.flat_map (fetch_errors aTable) q
    /\ (q <> [] -> m_count_finished st'
          = to_size_t (m_count_finished st + Z.of_nat (length q)))
    /\ (q = [] -> st' = st).
Proof.
  induction q as [|nickname q IH]; intros st fuel Hq Hc Hok Hfuel;
    (destruct fuel as [|fuel]; [simpl in Hfuel; lia|]).
  - exists st. simpl. unfold loader_job_round. rewrite Hq.
    rewrite !app_nil_r. split_and!; done.
  - apply Forall_cons in Hok as [Hn Hok].
    cbn [loop_rounds]. unfold loader_job_round at 1. rewrite Hq.
    cbn [m_cancelled set_queue_in]. rewrite Hc.
    unfold CatchErrors, prefetch, fetch_caught in *.
    assert (Hstep : forall s1,
              m_queue_in s1 = q -> m_cancelled s1 = false ->
              m_queue_out s1 = m_queue_out st
                ++ (if fetched aTable nickname then [nickname] else []) ->
              m_errors s1 = m_errors st ++ fetch_errors aTable nickname ->
              m_count_finished s1 = to_size_t (m_count_finished st + 1) ->
              exists st',
                loop_rounds (loader_job_round aTable) fuel s1
                  = (Returns tt, st')
                /\ m_queue_in st' = []
                /\ m_queue_out st' = m_queue_out st
                     ++ List.filter (fetched aTable) (nickname :: q)
                /\ m_errors st' = m_errors st
                     ++ List.flat_map (fetch_errors aTable) (nickname :: q)
                /\ (nickname :: q <> [] -> m_count_finished st'
                      = to_size_t (m_count_finished st
                                   + Z.of_nat (length (nickname :: q))))
                /\ (nickname :: q = [] -> st' = st)).
    { intros s1 H1 H2 H3 H4 H5.
      destruct (IH s1 fuel H1 H2 Hok ltac:(simpl in Hfuel; lia))
        as (st' & Hrun & Hin & Hout & Herr & Hcnt & Hnil).
      exists st'. split_and!; try done.
      - rewrite Hout, H3. rewrite <- app_assoc. f_equal.
        simpl. by destruct (fetched aTable nickname).
      - rewrite Herr, H4. rewrite <- app_assoc. done.
      - intros _. destruct q as [|n' q'].
        + rewrite (Hnil eq_refl). rewrite H5. done.
        + rewrite Hcnt by done. rewrite H5. rewrite to_size_t_succ.
          f_equal. simpl length. lia. }
    destruct (PrefetchLib aTable nickname) as [[]|[ioe|what|]] eqn:Hp;
      [| | |done];
      cbn [THROW_IO_ERROR]; apply Hstep; unfold fetched, fetch_errors;
      rewrite ?Hp; simpl; try done;
      by rewrite ?app_nil_r.
Qed.

(** *** Stopping, joining, loading *)

Lemma stopWorkers_resets (aTable : FP_LIB_TABLE) (st : FOOTPRINT_LIST_IMPL)
    (u : unit) (st' : FOOTPRINT_LIST_IMPL) :
  stopWorkers aTable st = Done u st' ->
  m_cancelled st' = m_cancelled st
  /\ (m_cancelled st = true -> m_list_timestamp st' = 0)
  /\ (m_cancelled st = false -> m_list_timestamp st' = m_list_timestamp st).
Proof.
  unfold stopWorkers.
  destruct (join_threads _ _ st) as [[v|e] s] eqn:E; [|intros [=]].
  apply join_loaders_keeps in E as (_ & Hc & Hts & _).
  cbn [m_cancelled set_count_finished set_queue_in set_threads].
  rewrite <- Hc.
  destruct (m_cancelled s) eqn:Hcs; intros [= <- <-]; simpl; split_and!; done.
Qed.

Lemma joinWorkers_result (aTable : FP_LIB_TABLE) (parsing : SCHEDULE)
    (st : FOOTPRINT_LIST_IMPL) (ok : bool) (st' : FOOTPRINT_LIST_IMPL) :
  joinWorkers aTable parsing st = Done ok st' ->
  ok = match m_errors st' with [] => true | _ => false end.
Proof.
  unfold joinWorkers.
  repeat match goal with
         | |- match ?x with _ => _ end = _ -> _ =>
             destruct x; try discriminate
         end.
  by intros [= <- <-].
Qed.

Lemma ReadFootprintFiles_result (aTable : FP_LIB_TABLE)
    (aNickname : option wxString) (rep : bool) (loading parsing : SCHEDULE)
    (st : FOOTPRINT_LIST_IMPL) (ok : bool) (st' : FOOTPRINT_LIST_IMPL) :
  GenerateTimestamp aTable aNickname <> m_list_timestamp st ->
  ReadFootprintFiles aTable aNickname rep loading parsing st = Done ok st' ->
  ok = match m_errors st' with [] => true | _ => false end.
Proof.
  intros Hne. unfold ReadFootprintFiles.
  destruct (Z.eqb_spec (GenerateTimestamp aTable aNickname)
                       (m_list_timestamp st)) as [|_]; [done|].
  repeat match goal with
         | |- match ?x with _ => _ end = _ -> _ =>
             destruct x; try discriminate
         end;
    intros [= <- <-];
    match goal with
    | |- context [if m_cancelled ?s then _ else _] => destruct (m_cancelled s)
    end; reflexivity.
Qed.

(** *** Loads that end *)

Lemma quiet_loop_rounds (round : THROWING bool) (fuel : nat) :
  quiet round -> quiet (loop_rounds round fuel).
Proof.
  intros Hq. induction fuel as [|fuel IH]; intros st; simpl.
  - by exists tt, st.
  - destruct (Hq st) as (b & st1 & -> & Hr). destruct b.
    + destruct (IH st1) as (a & st2 & -> & Hr2).
      exists a, st2. split; [done|congruence].
    + by exists tt, st1.
Qed.

Lemma quiet_pool_advance (round : THROWING bool) (jobs : nat) :
  quiet round -> quiet (pool_advance round jobs).
Proof. apply quiet_loop_rounds. Qed.

Lemma quiet_join_threads (job : THROWING unit) (threads : nat) :
  quiet job -> quiet (join_threads job threads).
Proof.
  intros Hq. induction threads as [|threads IH]; intros st; simpl.
  - by exists tt, st.
  - destruct (Hq st) as (b & st1 & -> & Hr).
    destruct (IH st1) as (a & st2 & -> & Hr2).
    exists a, st2. split; [done|congruence].
Qed.

Lemma quiet_catch_clauses (e : exception) :
  e <> throw_other -> quiet (catch_clauses e).
Proof.
  intros He st. destruct e as [ioe|what|]; [| |done]; simpl; by eexists _, _.
Qed.

Lemma quiet_loader_job_round (aTable : FP_LIB_TABLE) :
  table_caught aTable -> quiet (loader_job_round aTable).
Proof.
  intros (Hp & _ & _) st. unfold loader_job_round.
  destruct (m_queue_in st) as [|nickname rest]; [by exists false, st|].
  cbn [m_cancelled set_queue_in].
  destruct (m_cancelled st); [by eexists _, _|].
  unfold CatchErrors, prefetch. specialize (Hp nickname).
  destruct (PrefetchLib aTable nickname) as [[]|[ioe|what|]]; [| | |done];
    simpl; by eexists _, _.
Qed.

Lemma quiet_parse_names (aTable : FP_LIB_TABLE) (nickname : wxString)
    (fpnames : list wxString) :
  table_caught aTable -> quiet (parse_names aTable nickname fpnames).
Proof.
  intros (_ & _ & Hn).
  induction fpnames as [|fpname more IH]; intros st; simpl.
  - by exists tt, st.
  - destruct (m_cancelled st); [by exists tt, st|].
    specialize (Hn nickname fpname).
    destruct (new_FOOTPRINT_INFO_IMPL aTable nickname fpname) as [fpinfo|e].
    + destruct (IH (set_queue_parsed (queue_parsed st ++ [fpinfo]) st))
        as (a & st2 & -> & Hr2). by exists a, st2.
    + destruct (quiet_catch_clauses e ltac:(congruence) st)
        as (a & st1 & -> & Hr1).
      destruct (IH st1) as (a2 & st2 & -> & Hr2).
      exists a2, st2. split; [done|congruence].
Qed.

Lemma quiet_parse_round (aTable : FP_LIB_TABLE) :
  table_caught aTable -> quiet (parse_round aTable).
Proof.
  intros Hc st. pose proof Hc as (_ & He & _). unfold parse_round.
  destruct (m_queue_out st) as [|nickname rest]; [by exists false, st|].
  cbn [m_cancelled set_queue_out].
  destruct (m_cancelled st); [by eexists _, _|].
  specialize (He nickname).
  destruct (FootprintEnumerate aTable nickname) as [fpnames [e|]];
    simpl in He.
  - destruct (quiet_catch_clauses e ltac:(congruence)
                (set_queue_out rest st)) as (a & st1 & -> & Hr1).
    destruct (quiet_parse_names aTable nickname fpnames Hc st1)
      as (a2 & st2 & -> & Hr2).
    eexists _, _. split; [done|]. simpl in *. congruence.
  - destruct (quiet_parse_names aTable nickname fpnames Hc
                (set_queue_out rest st)) as (a2 & st2 & -> & Hr2).
    eexists _, _. split; [done|]. simpl in *. congruence.
Qed.

Lemma quiet_loader_job (aTable : FP_LIB_TABLE) :
  table_caught aTable -> quiet (loader_job aTable).
Proof.
  intros Hc st. unfold loader_job.
  apply quiet_loop_rounds. by apply quiet_loader_job_round.
Qed.

Lemma quiet_parse_job (aTable : FP_LIB_TABLE) :
  table_caught aTable -> quiet (parse_job aTable).
Proof.
  intros Hc st. unfold parse_job.
  apply quiet_loop_rounds. by apply quiet_parse_round.
Qed.

Lemma quiet_loaders_advance (aTable : FP_LIB_TABLE) (jobs : nat) :
  table_caught aTable -> quiet (loaders_advance aTable jobs).
Proof.
  intros Hc st. unfold loaders_advance.
  destruct (m_threads st =? 0)%nat; [by exists tt, st|].
  apply quiet_pool_advance. by apply quiet_loader_job_round.
Qed.

(** The waiting loop ends if the reporter asks to cancel at some round. *)
Lemma wait_for_ends (advance : nat -> THROWING unit)
    (waiting : FOOTPRINT_LIST_IMPL -> bool) (rs : list ROUND) :
  (forall jobs, quiet (advance jobs)) ->
  (forall st, m_cancelled st = true -> waiting st = false) ->
  asks_to_cancel rs ->
  forall st, m_progress_reporter st = true ->
  exists st', wait_for advance waiting rs st = Done tt st'
              /\ m_progress_reporter st' = true.
Proof.
  intros Hq Hw Hex.
  induction Hex as [r rs Hr|r rs Hex IH]; intros st Hrep; simpl.
  - destruct (waiting st); [|by exists st].
    destruct (Hq (finished_meanwhile r) st) as (a & st1 & -> & Hr1).
    rewrite Hr1, Hrep, Hr. simpl.
    exists (set_cancelled true st1). split; [|simpl; congruence].
    destruct rs; simpl; by rewrite Hw.
  - destruct (waiting st); [|by exists st].
    destruct (Hq (finished_meanwhile r) st) as (a & st1 & -> & Hr1).
    rewrite Hr1, Hrep. simpl.
    destruct (KeepRefreshing r); simpl.
    + apply IH. congruence.
    + apply IH. simpl. congruence.
Qed.

Lemma stopWorkers_ends (aTable : FP_LIB_TABLE) (st : FOOTPRINT_LIST_IMPL) :
  table_caught aTable -> exists st', stopWorkers aTable st = Done tt st'.
Proof.
  intros Hc. unfold stopWorkers.
  destruct (quiet_join_threads (loader_job aTable) (m_threads st)
              (quiet_loader_job aTable Hc) st) as ([] & s & -> & _).
  by eexists.
Qed.

Lemma joinWorkers_ends (aTable : FP_LIB_TABLE) (parsing : SCHEDULE)
    (st : FOOTPRINT_LIST_IMPL) :
  table_caught aTable ->
  m_progress_reporter st = true ->
  asks_to_cancel (rounds parsing) ->
  exists ok st', joinWorkers aTable parsing st = Done ok st'.
Proof.
  intros Hc Hrep Hex. unfold joinWorkers.
  destruct (quiet_join_threads (loader_job aTable) (m_threads st)
              (quiet_loader_job aTable Hc) st) as ([] & s1 & -> & Hr1).
  match goal with
  | |- context [pool_advance ?r ?k ?s] =>
      destruct (quiet_pool_advance r k (quiet_parse_round aTable Hc) s)
        as ([] & s2 & -> & Hr2)
  end.
  simpl in Hr2.
  match goal with
  | |- context [wait_for ?adv ?w ?rs ?s] =>
      destruct (wait_for_ends adv w rs
                  (fun jobs =>
                     quiet_pool_advance _ jobs (quiet_parse_round aTable Hc))
                  ltac:(intros ? Hcc; cbn beta; by rewrite Hcc)
                  Hex s ltac:(congruence))
        as (s3 & -> & Hr3)
  end.
  match goal with
  | |- context [join_threads ?j ?n ?s] =>
      destruct (quiet_join_threads j n (quiet_parse_job aTable Hc) s)
        as ([] & s4 & -> & Hr4)
  end.
  by eexists _, _.
Qed.

(** With a table that throws nothing but what is caught, a list that holds
    no thread, and a reporter that asks to cancel at some round of either
    wait, [ReadFootprintFiles] returns. *)
Theorem load_ends_when_cancel_is_requested (aTable : FP_LIB_TABLE)
    (aNickname : option wxString) (loading parsing : SCHEDULE)
    (st : FOOTPRINT_LIST_IMPL) :
  table_caught aTable ->
  m_threads st = 0%nat ->
  asks_to_cancel (rounds loading) ->
  asks_to_cancel (rounds parsing) ->
  exists ok st',
    ReadFootprintFiles aTable aNickname true loading parsing st = Done ok st'.
Proof.
  intros Hc Hth Hl Hp. unfold ReadFootprintFiles.
  destruct (_ =? _); [by eexists _, _|].
  unfold startWorkers. cbn [m_threads set_cancelled set_progress_reporter].
  rewrite Hth. cbn [Nat.ltb Nat.leb].
  match goal with
  | |- context [loaders_advance ?t ?k ?s] =>
      destruct (quiet_loaders_advance t k Hc s) as ([] & s1 & -> & Hr1)
  end.
  assert (Hr1' : m_progress_reporter s1 = true).
  { rewrite Hr1. by destruct aNickname. }
  clear Hr1. rename Hr1' into Hr1.
  match goal with
  | |- context [wait_for ?adv ?w ?rs ?s] =>
      destruct (wait_for_ends adv w rs
                  (fun jobs => quiet_loaders_advance aTable jobs Hc)
                  ltac:(intros ? Hcc; cbn beta; by rewrite Hcc) Hl s Hr1)
        as (s2 & -> & Hr2)
  end.
  destruct (m_cancelled s2).
  - destruct (stopWorkers_ends aTable s2 Hc) as (s3 & ->). by eexists _, _.
  - destruct (joinWorkers_ends aTable parsing s2 Hc Hr2 Hp) as (ok & s3 & ->).
    simpl. by eexists _, _.
Qed.

(** *** Loads that run to their end, or are cancelled at once *)

Lemma parsers_keep_refl (st : FOOTPRINT_LIST_IMPL) : parsers_keep st st.
Proof.
  unfold parsers_keep. split_and!; try done. exists []. by rewrite app_nil_r.
Qed.

Lemma parsers_keep_trans (st1 st2 st3 : FOOTPRINT_LIST_IMPL) :
  parsers_keep st1 st2 -> parsers_keep st2 st3 -> parsers_keep st1 st3.
Proof.
  intros ([m1 E1]&?&?&?&?&?&?) ([m2 E2]&?&?&?&?&?&?).
  split_and!; try congruence.
  exists (m1 ++ m2). rewrite E2, E1. by rewrite app_assoc.
Qed.

Lemma inner_keep_refl (st : FOOTPRINT_LIST_IMPL) : inner_keep st st.
Proof. unfold inner_keep. split_and!; try done. apply parsers_keep_refl. Qed.

Lemma inner_keep_trans (st1 st2 st3 : FOOTPRINT_LIST_IMPL) :
  inner_keep st1 st2 -> inner_keep st2 st3 -> inner_keep st1 st3.
Proof.
  intros (?&?&?) (?&?&?). split_and!; try congruence.
  by eapply parsers_keep_trans.
Qed.

Lemma catch_clauses_keeps (e : exception) (st : FOOTPRINT_LIST_IMPL)
    (r : outcome unit) (st' : FOOTPRINT_LIST_IMPL) :
  catch_clauses e st = (r, st') -> inner_keep st st'.
Proof.
  destruct e as [ioe|what|]; simpl; intros [= _ <-];
    [| |apply inner_keep_refl];
    unfold inner_keep, parsers_keep; simpl; split_and!; try done; by eexists.
Qed.

Lemma parse_names_keeps (aTable : FP_LIB_TABLE) (nickname : wxString)
    (fpnames : list wxString) : forall st r st',
  parse_names aTable nickname fpnames st = (r, st') -> inner_keep st st'.
Proof.
  induction fpnames as [|fpname more IH]; intros st r st'; simpl.
  - intros [= _ <-]. apply inner_keep_refl.
  - destruct (m_cancelled st); [intros [= _ <-]; apply inner_keep_refl|].
    destruct (new_FOOTPRINT_INFO_IMPL aTable nickname fpname) as [fpinfo|e].
    + intros H. apply IH in H. eapply inner_keep_trans; [|exact H].
      unfold inner_keep, parsers_keep; simpl; split_and!; try done.
      exists []. by rewrite app_nil_r.
    + destruct (catch_clauses e st) as [[u|e'] s1] eqn:E;
        apply catch_clauses_keeps in E.
      * intros H. apply IH in H. by eapply inner_keep_trans.
      * by intros [= _ <-].
Qed.

(** A round of a parsing thread that is not cancelled takes one library
    off the queue and counts it. *)
Lemma parse_round_step (aTable : FP_LIB_TABLE) (nickname : wxString)
    (rest : list wxString) (st : FOOTPRINT_LIST_IMPL) :
  table_caught aTable ->
  m_queue_out st = nickname :: rest ->
  m_cancelled st = false ->
  exists st',
    parse_round aTable st = (Returns true, st')
    /\ m_queue_out st' = rest
    /\ m_count_finished st' = to_size_t (m_count_finished st + 1)
    /\ parsers_keep st st'.
Proof.
  intros Hc Hq Hcan.
  destruct (quiet_parse_round aTable Hc st) as (b & st' & Hrun & _).
  exists st'. revert Hrun. unfold parse_round. rewrite Hq.
  cbn [m_cancelled set_queue_out]. rewrite Hcan.
  destruct (FootprintEnumerate aTable nickname) as [fpnames thrown].
  set (s0 := set_queue_out rest st).
  assert (H0 : inner_keep s0 s0 /\ m_queue_out s0 = rest
               /\ m_count_finished s0 = m_count_finished st
               /\ parsers_keep st s0).
  { split_and!; try done; [apply inner_keep_refl|].
    unfold parsers_keep; simpl; split_and!; try done.
    exists []. by rewrite app_nil_r. }
  destruct H0 as (_ & Hq0 & Hc0 & Hk0).
  destruct (match thrown with
            | Some e => catch_clauses e s0
            | None => (Returns (), s0)
            end) as [[u|e'] s1] eqn:E1; [|intros [=]].
  assert (K1 : inner_keep s0 s1).
  { destruct thrown as [e|].
    - by apply catch_clauses_keeps in E1.
    - injection E1 as _ <-. apply inner_keep_refl. }
  destruct (parse_names aTable nickname fpnames s1) as [[u2|e2] s2] eqn:E2;
    [|intros [=]].
  apply parse_names_keeps in E2.
  intros [= <- <-].
  destruct (inner_keep_trans _ _ _ K1 E2) as (K & Kq & Kc).
  split; [done|]. split; [simpl; congruence|].
  split; [simpl; by rewrite Kc, Hc0|].
  eapply parsers_keep_trans; [exact Hk0|].
  eapply parsers_keep_trans; [exact K|].
  unfold parsers_keep; simpl; split_and!; try done.
  exists []. by rewrite app_nil_r.
Qed.


(** The counter after [n] more libraries. *)
Lemma counted (c : Z) (n : nat) :
  0 <= c -> c + Z.of_nat n < 2 ^ 64 ->
  Nat.iter n (fun c => to_size_t (c + 1)) c = c + Z.of_nat n.
Proof.
  revert c. induction n as [|n IH]; intros c Hc Hn; simpl; [lia|].
  rewrite IH by lia. unfold to_size_t. rewrite Z.mod_small; lia.
Qed.

Lemma parse_rounds_all (aTable : FP_LIB_TABLE) (q : list wxString) :
  forall st fuel,
  table_caught aTable ->
  m_queue_out st = q ->
  m_cancelled st = false ->
  (length q < fuel)%nat ->
  exists st',
    loop_rounds (parse_round aTable) fuel st = (Returns tt, st')
    /\ m_queue_out st' = []
    /\ m_count_finished st'
       = Nat.iter (length q) (fun c => to_size_t (c + 1)) (m_count_finished st)
    /\ parsers_keep st st'.
Proof.
  induction q as [|nickname q IH]; intros st fuel Hc Hq Hcan Hfuel;
    (destruct fuel as [|fuel]; [simpl in Hfuel; lia|]).
  - exists st. simpl. unfold parse_round. rewrite Hq.
    split_and!; try done. apply parsers_keep_refl.
  - destruct (parse_round_step aTable nickname q st Hc Hq Hcan)
      as (s1 & Hrun & Hq1 & Hc1 & Hk1).
    cbn [loop_rounds]. rewrite Hrun.
    destruct (IH s1 fuel Hc Hq1) as (st' & Hrun' & Hq' & Hc' & Hk').
    { destruct Hk1 as (_ & -> & _). done. }
    { simpl in Hfuel. lia. }
    exists st'. split_and!; try done.
    + rewrite Hc', Hc1. symmetry.
      exact (Nat.iter_succ_r (length q) (fun c => to_size_t (c + 1))
               (m_count_finished st)).
    + by eapply parsers_keep_trans.
Qed.

Lemma loader_rounds_keep (aTable : FP_LIB_TABLE) (fuel : nat)
    (st : FOOTPRINT_LIST_IMPL) (r : outcome unit)
    (st' : FOOTPRINT_LIST_IMPL) :
  loop_rounds (loader_job_round aTable) fuel st = (r, st') ->
  loaders_keep st st'.
Proof.
  apply (loop_rounds_preserves loaders_keep loaders_keep_refl
           loaders_keep_trans).
  apply loader_job_round_keeps.
Qed.

(** A thread whose queue is empty leaves at once. *)
Lemma join_idle (round : THROWING bool) (bound : FOOTPRINT_LIST_IMPL -> nat)
    (threads : nat) (st : FOOTPRINT_LIST_IMPL) :
  round st = (Returns false, st) ->
  join_threads (fun s => loop_rounds round (S (bound s)) s) threads st
  = (Returns tt, st).
Proof.
  intros Hidle. induction threads as [|threads IH]; simpl; [done|].
  by rewrite Hidle.
Qed.


Lemma wait_for_not_waiting (advance : nat -> THROWING unit)
    (waiting : FOOTPRINT_LIST_IMPL -> bool) (rs : list ROUND)
    (st : FOOTPRINT_LIST_IMPL) :
  waiting st = false -> wait_for advance waiting rs st = Done tt st.
Proof. intros H. destruct rs; simpl; by rewrite H. Qed.

Lemma load_completes (aTable : FP_LIB_TABLE) (aNickname : option wxString)
    (aProgressReporter : bool) (loading parsing : SCHEDULE)
    (st : FOOTPRINT_LIST_IMPL) :
  let libs := libraries_to_load aTable aNickname in
  table_caught aTable ->
  m_threads st = 0%nat ->
  DEFAULT_THREADS <> 0%nat ->
  Z.of_nat (length libs) < 2 ^ 31 ->
  (length libs < finished_at_first_look loading)%nat ->
  (length libs < finished_at_first_look parsing)%nat ->
  GenerateTimestamp aTable aNickname <> m_list_timestamp st ->
  exists ok st' more,
    ReadFootprintFiles aTable aNickname aProgressReporter loading parsing st
      = Done ok st'
    /\ m_cancelled st' = false
    /\ m_list_timestamp st' = GenerateTimestamp aTable aNickname
    /\ m_errors st' = List.flat_map (fetch_errors aTable) libs ++ more
    /\ ok = match m_errors st' with [] => true | _ => false end.
Proof.
  intros libs Hc Hth Hdef Hsmall Hload Hparse Hne.
  unfold ReadFootprintFiles.
  destruct (Z.eqb_spec (GenerateTimestamp aTable aNickname)
                       (m_list_timestamp st)) as [|_]; [done|].
  unfold startWorkers. cbn [m_threads set_cancelled set_progress_reporter].
  rewrite Hth. cbn [Nat.ltb Nat.leb].
  match goal with
  | |- context [loaders_advance _ _ ?s] => set (s0 := s)
  end.
  assert (Hs0 : m_queue_in s0 = libs /\ m_cancelled s0 = false
                /\ m_count_finished s0 = 0 /\ m_errors s0 = []
                /\ m_queue_out s0 = []
                /\ m_total_libs s0 = to_int (Z.of_nat (length libs))
                /\ m_threads s0 = DEFAULT_THREADS).
  { subst s0 libs. unfold libraries_to_load. destruct aNickname; done. }
  destruct Hs0 as (Hq0 & Hcan0 & Hcnt0 & Herr0 & Hout0 & Htot0 & Hth0).
  (* the loaders *)
  unfold loaders_advance. rewrite Hth0.
  destruct (Nat.eqb_spec DEFAULT_THREADS 0) as [|_]; [done|].
  unfold pool_advance at 1.
  assert (Hcaught : Forall (fetch_caught aTable) libs).
  { apply Forall_forall. intros n _. apply Hc. }
  destruct (loader_rounds_all aTable libs s0 (finished_at_first_look loading)
              Hq0 Hcan0 Hcaught Hload)
    as (s1 & Hrun1 & Hq1 & Hout1 & Herr1 & Hcnt1 & Hnil1).
  pose proof (loader_rounds_keep _ _ _ _ _ Hrun1)
    as (_ & Hcan1 & _ & _ & Hth1 & Htot1 & _).
  rewrite Hrun1.
  assert (Hc1 : m_count_finished s1 = Z.of_nat (length libs)).
  { destruct libs as [|l libs'] eqn:El.
    - rewrite (Hnil1 eq_refl). done.
    - rewrite Hcnt1 by done. rewrite Hcnt0. unfold to_size_t.
      rewrite Z.mod_small; lia. }
  rewrite wait_for_not_waiting.
  2:{ cbn beta. rewrite Hcan1, Hcan0, Hc1, Htot1, Htot0. simpl.
      apply Z.ltb_irrefl. }
  rewrite Hcan1, Hcan0.
  (* joining: the loaders are idle *)
  unfold joinWorkers.
  change (loader_job aTable)
    with (fun s => loop_rounds (loader_job_round aTable)
                     (S ((fun s => length (m_queue_in s)) s)) s).
  rewrite join_idle by (unfold loader_job_round; by rewrite Hq1).
  match goal with
  | |- context [pool_advance _ _ ?s] => set (s2 := s)
  end.
  set (q := List.filter (fetched aTable) libs).
  assert (Hq2 : m_queue_out s2 = q).
  { subst s2. simpl. rewrite Hout1, Hout0. done. }
  assert (Hlenq : (length q <= length libs)%nat).
  { subst q. clear. induction libs as [|a l IH]; simpl; [lia|].
    destruct (fetched aTable a); simpl; lia. }
  unfold pool_advance at 1.
  destruct (parse_rounds_all aTable q s2 (finished_at_first_look parsing)
              Hc Hq2 ltac:(subst s2; simpl; congruence) ltac:(lia))
    as (s3 & Hrun3 & Hq3 & Hcnt3 & Hk3).
  rewrite Hrun3.
  destruct Hk3 as ([more Herr3] & Hcan3 & _).
  assert (Hc3 : m_count_finished s3 = Z.of_nat (length q)).
  { rewrite Hcnt3. subst s2. simpl. rewrite counted; lia. }
  rewrite wait_for_not_waiting.
  2:{ cbn beta. rewrite Hc3. subst s2. simpl. rewrite Hout1, Hout0. simpl.
      fold q. rewrite Z.ltb_irrefl. apply andb_false_r. }
  change (parse_job aTable)
    with (fun s => loop_rounds (parse_round aTable)
                     (S ((fun s => length (m_queue_out s)) s)) s).
  rewrite join_idle by (unfold parse_round; by rewrite Hq3).
  cbn [forget].
  assert (Hcan3' : m_cancelled s3 = false).
  { rewrite Hcan3. subst s2. simpl. congruence. }
  cbn [m_cancelled set_list set_queue_parsed]. rewrite Hcan3'.
  eexists _, _, more. split; [reflexivity|].
  simpl. split_and!; try done.
  rewrite Herr3. subst s2. simpl. by rewrite Herr1, Herr0.
Qed.



(** *** The cache file *)

Lemma GetNextLine_at (pre post : list wxString) (x : wxString) (n : nat) :
  S n = length pre ->
  GetNextLine {| m_aLines := pre ++ x :: post; m_nCurLine := n |}
  = (x, {| m_aLines := pre ++ x :: post; m_nCurLine := S n |}).
Proof.
  intros Hn. unfold GetNextLine. cbn [m_aLines m_nCurLine]. f_equal.
  rewrite length_app. cbn [length].
  destruct (Nat.eqb_spec (S n) (length pre + S (length post))) as [E|_];
    [lia|].
  rewrite Hn. rewrite app_nth2 by lia. by rewrite Nat.sub_diag.
Qed.

Ltac next_line :=
  match goal with
  | |- context [GetNextLine {| m_aLines := ?pre ++ ?x :: ?post;
                               m_nCurLine := ?n |}] =>
      rewrite (GetNextLine_at pre post x n)
        by (rewrite ?length_app; simpl; lia);
      change (pre ++ x :: post) with (pre ++ [x] ++ post);
      rewrite (app_assoc pre [x] post)
  end.

(** Reading the seven lines of an entry that stands next in the file. *)
Lemma read_entry_written (pre post : list wxString) (e : FOOTPRINT_INFO)
    (n : nat) :
  S n = length pre ->
  exists k,
    read_entry {| m_aLines := pre ++ entry_lines e ++ post; m_nCurLine := n |}
    = (reread e,
       {| m_aLines := pre ++ entry_lines e ++ post; m_nCurLine := k |})
    /\ (forall e', reread e = Returns e' -> k = (n + 7)%nat).
Proof.
  intros Hn. unfold read_entry, entry_lines, reread.
  set (l3 := EscapeString (GetDescription e) CTX_LINE).
  set (l4 := EscapeString (GetKeywords e) CTX_LINE).
  cbn [app].
  do 3 next_line.
  destruct (UnescapeString l3) as [desc|ex].
  2:{ eexists. split; [|discriminate]. rewrite <- !app_assoc. reflexivity. }
  next_line.
  destruct (UnescapeString l4) as [kw|ex].
  2:{ eexists. split; [|discriminate]. rewrite <- !app_assoc. reflexivity. }
  do 3 next_line.
  eexists. split.
  - rewrite <- !app_assoc. reflexivity.
  - intros _ _. lia.
Qed.

Lemma set_list_same (st : FOOTPRINT_LIST_IMPL) :
  set_list (m_list st ++ []) st = st.
Proof. destruct st. unfold set_list. simpl. by rewrite app_nil_r. Qed.

(** The loop only appends to the list. *)
Lemma read_entries_appends (fuel : nat) : forall f st,
  exists added,
    snd (snd (read_entries fuel f st)) = set_list (m_list st ++ added) st.
Proof.
  induction fuel as [|fuel IH]; intros f st; simpl.
  - exists []. by rewrite set_list_same.
  - destruct (_ <? _)%nat; [|exists []; by rewrite set_list_same].
    destruct (read_entry f) as [[fpinfo|e] f'].
    + destruct (IH f' (set_list (m_list st ++ [fpinfo]) st)) as [added ->].
      exists (fpinfo :: added).
      change (set_list (m_list (set_list ?l1 st) ++ ?l2) (set_list ?l1 st))
        with (set_list (l1 ++ l2) st).
      by rewrite <- app_assoc.
    + exists []. simpl. by rewrite set_list_same.
Qed.

Lemma read_entries_written (es : list FOOTPRINT_INFO) :
  forall pre n st fuel,
  S n = length pre -> (length es < fuel)%nat ->
  m_list (snd (snd (read_entries fuel
     {| m_aLines := pre ++ List.concat (List.map entry_lines es);
        m_nCurLine := n |} st)))
  = m_list st ++ reread_all es.
Proof.
  induction es as [|e es IH]; intros pre n st fuel Hn Hfuel.
  - destruct fuel as [|fuel]; [simpl in Hfuel; lia|].
    simpl. rewrite app_nil_r. unfold GetCurrentLine, GetLineCount. simpl.
    destruct (Nat.ltb_spec (n + 6) (length pre)); [lia|]. simpl.
    by rewrite app_nil_r.
  - destruct fuel as [|fuel]; [simpl in Hfuel; lia|].
    cbn [read_entries List.map List.concat].
    unfold GetCurrentLine, GetLineCount. cbn [m_aLines m_nCurLine].
    destruct (Nat.ltb_spec (n + 6)
      (length (pre ++ entry_lines e
                   ++ List.concat (List.map entry_lines es))))
      as [_|Hge]; [|rewrite !length_app in Hge; simpl in Hge; lia].
    destruct (read_entry_written pre
                (List.concat (List.map entry_lines es)) e n Hn)
      as (k & -> & Hk).
    cbn [reread_all]. destruct (reread e) as [e'|ex].
    + rewrite (Hk e' eq_refl). rewrite app_assoc.
      rewrite IH.
      * simpl. by rewrite <- app_assoc.
      * rewrite length_app. simpl. lia.
      * simpl in Hfuel. lia.
    + simpl. by rewrite app_nil_r.
Qed.

Lemma read_entry_moves (f : wxTextFile) (fpinfo : FOOTPRINT_INFO)
    (f' : wxTextFile) :
  read_entry f = (Returns fpinfo, f') ->
  m_aLines f' = m_aLines f /\ m_nCurLine f' = (m_nCurLine f + 7)%nat.
Proof.
  unfold read_entry, GetNextLine. cbn [m_aLines m_nCurLine].
  repeat match goal with
         | |- context [UnescapeString ?l] => destruct (UnescapeString l)
         end; intros [= _ <-]; cbn [m_aLines m_nCurLine]; split; [done|lia].
Qed.

Lemma read_entry_within (f : wxTextFile) (r : outcome FOOTPRINT_INFO)
    (f' : wxTextFile) :
  read_entry f = (r, f') ->
  m_aLines f' = m_aLines f /\ (m_nCurLine f' <= m_nCurLine f + 7)%nat.
Proof.
  unfold read_entry, GetNextLine. cbn [m_aLines m_nCurLine].
  repeat match goal with
         | |- context [UnescapeString ?l] => destruct (UnescapeString l)
         end; intros [= _ <-]; cbn [m_aLines m_nCurLine]; split; done || lia.
Qed.

(** The index of the current line stays within the file: [GetNextLine]
    is never asked for a line beyond the dummy one at the end. *)
Lemma read_entries_within_file (fuel : nat) : forall f st,
  (GetCurrentLine f <= GetLineCount f)%nat ->
  let f' := fst (snd (read_entries fuel f st)) in
  m_aLines f' = m_aLines f /\ (GetCurrentLine f' <= GetLineCount f')%nat.
Proof.
  induction fuel as [|fuel IH]; intros f st Hle; simpl; [done|].
  destruct (Nat.ltb_spec (GetCurrentLine f + 6) (GetLineCount f)) as [Hlt|_];
    [|done].
  destruct (read_entry f) as [[fpinfo|e] f1] eqn:Hread;
    apply read_entry_within in Hread as [Hl Hc];
    unfold GetCurrentLine, GetLineCount in *.
  - destruct (IH f1 (set_list (m_list st ++ [fpinfo]) st)) as [IH1 IH2].
    { unfold GetCurrentLine, GetLineCount. rewrite Hl. lia. }
    split; [congruence|done].
  - simpl. rewrite Hl. split; [done|lia].
Qed.

(** The loop of [ReadCacheFromFile] has the fuel it needs: more rounds than
    the file has lines do not change the result. *)
Lemma read_entries_fuel (fuel1 : nat) : forall fuel2 f st,
  (GetLineCount f < GetCurrentLine f + fuel1)%nat ->
  (GetLineCount f < GetCurrentLine f + fuel2)%nat ->
  read_entries fuel1 f st = read_entries fuel2 f st.
Proof.
  induction fuel1 as [|fuel1 IH]; intros fuel2 f st H1 H2.
  - destruct fuel2 as [|fuel2]; [done|]. simpl.
    destruct (Nat.ltb_spec (GetCurrentLine f + 6) (GetLineCount f));
      [lia|done].
  - simpl.
    destruct (Nat.ltb_spec (GetCurrentLine f + 6) (GetLineCount f))
      as [Hlt|Hge].
    + destruct fuel2 as [|fuel2]; [lia|]. simpl.
      destruct (Nat.ltb_spec (GetCurrentLine f + 6) (GetLineCount f)); [|lia].
      destruct (read_entry f) as [[fpinfo|e] f1] eqn:Hread; [|done].
      apply read_entry_moves in Hread as [Hl Hc].
      apply IH; unfold GetCurrentLine, GetLineCount in *; rewrite Hl, Hc; lia.
    + destruct fuel2 as [|fuel2]; [done|]. simpl.
      destruct (Nat.ltb_spec (GetCurrentLine f + 6) (GetLineCount f));
        [lia|done].
Qed.

(** *** The text of the cache file *)

Lemma append_assoc_char (line : string) (c : Ascii.ascii) (s : string) :
  String.append (String.append line (String c "")) s
  = String.append line (String c s).
Proof.
  induction line as [|a line IH]; [done|].
  change (String a (String.append (String.append line (String c "")) s)
          = String a (String.append line (String c s))).
  by rewrite IH.
Qed.

(** A string without end of line, followed by a line feed, is read as one
    line, whatever comes after. *)
Lemma OnRead_from_line (s : wxString) : forall line rest,
  line_safe s = true ->
  OnRead_from line (String.append s (String LF rest))
  = String.append line s :: OnRead_from "" rest.
Proof.
  induction s as [|c s IH]; intros line rest Hs.
  - change (OnRead_from line (String LF rest)
            = String.append line "" :: OnRead_from "" rest).
    cbn [OnRead_from]. rewrite Ascii.eqb_refl. f_equal.
    clear. induction line as [|a line IH]; [done|].
    change (String a line = String a (String.append line "")).
    by rewrite <- IH.
  - change (OnRead_from line (String c (String.append s (String LF rest)))
            = String.append line (String c s) :: OnRead_from "" rest).
    cbn [line_safe] in Hs.
    apply andb_prop in Hs as [Hs Hs3]. apply andb_prop in Hs as [Hs1 Hs2].
    apply negb_true_iff in Hs1, Hs2.
    cbn [OnRead_from]. rewrite Hs1, Hs2.
    rewrite IH by done. by rewrite append_assoc_char.
Qed.

(** Strings without end of line, each written with [endl], are read back
    as the lines of the file. *)
Lemma OnRead_stream_text (written : list wxString) :
  Forall (fun s => line_safe s = true) written ->
  OnRead (stream_text written) = written.
Proof.
  unfold OnRead. induction 1 as [|s more Hs _ IH]; [done|].
  cbn [stream_text]. rewrite OnRead_from_line by done. by rewrite IH.
Qed.

Lemma written_file_lines (st : FOOTPRINT_LIST_IMPL) :
  Forall (fun s => line_safe s = true) (cache_lines st) ->
  wxTextFile_Open (WriteCacheToFile true true st) = Some (cache_lines st).
Proof.
  intros Hsafe. unfold wxTextFile_Open, WriteCacheToFile.
  cbv beta iota zeta delta [negb option_map].
  by rewrite OnRead_stream_text.
Qed.

(** *** Every order of the threads' operations *)

(** The properties of the loads, of [stopWorkers] and of [joinWorkers]
    that follow are proved for every run of [run_moves]: an invariant is
    shown to be kept by each move of a thread or of the caller. *)

(** *** What one move of a loader thread keeps *)

Lemma flat_map_insert {A B : Type} (f : A -> list B) (l : list A) :
  forall (i : nat) (x y : A),
  l !! i = Some y ->
  List.flat_map f (<[i := x]> l) ++ f y ≡ₚ f x ++ List.flat_map f l.
Proof.
  induction l as [|a l IH]; intros i x y Hi; [done|].
  destruct i as [|i]; simpl in *.
  - injection Hi as ->. solve_Permutation.
  - rewrite <- (app_assoc (f a)). rewrite (IH i x y Hi). solve_Permutation.
Qed.

Lemma sum_list_insert {A : Type} (f : A -> nat) (l : list A) :
  forall (i : nat) (x y : A),
  l !! i = Some y ->
  (sum_list (map f (<[i := x]> l)) + f y = f x + sum_list (map f l))%nat.
Proof.
  induction l as [|a l IH]; intros i x y Hi; [done|].
  destruct i as [|i]; simpl in *.
  - injection Hi as ->. lia.
  - specialize (IH i x y Hi). lia.
Qed.

Lemma to_size_t_add1 (z : Z) :
  to_size_t (to_size_t z + 1) = to_size_t (z + 1).
Proof. unfold to_size_t. by rewrite Zplus_mod_idemp_l. Qed.

Lemma loader_job_move_keeps (aTable : FP_LIB_TABLE) (pos : LOADER)
    (st st' : FOOTPRINT_LIST_IMPL) (r : outcome LOADER) :
  loader_job_move aTable pos st = (r, st') -> loaders_keep st st'.
Proof.
  destruct pos as [|n|n| |]; simpl.
  - destruct (m_queue_in st) as [|n rest] eqn:Hq; intros [= _ <-].
    + apply loaders_keep_refl.
    + split_and!; simpl; try done. rewrite Hq. simpl. lia.
  - intros [= _ <-]. apply loaders_keep_refl.
  - destruct (CatchErrors _ _) as [[b|e] s1] eqn:E;
      apply (CatchErrors_keeps _ (prefetch_keeps aTable n)) in E;
      by intros [= _ <-].
  - intros [= _ <-]. split_and!; done.
  - intros [= _ <-]. apply loaders_keep_refl.
Qed.

(** What a fetch leaves, by cases. *)
Lemma fetch_gives (aTable : FP_LIB_TABLE) (n : wxString)
    (st st' : FOOTPRINT_LIST_IMPL) (b : bool) :
  CatchErrors (prefetch aTable n) st = (Returns b, st') ->
  m_queue_out st' = m_queue_out st ++ List.filter (fetched aTable) [n]
  /\ m_errors st' = m_errors st ++ fetch_errors aTable n
  /\ m_queue_in st' = m_queue_in st
  /\ m_count_finished st' = m_count_finished st.
Proof.
  unfold CatchErrors, prefetch, fetched, fetch_errors, THROW_IO_ERROR.
  simpl. destruct (PrefetchLib aTable n) as [[]|[ioe|what|]]; simpl;
    intros [= _ <-]; simpl; rewrite ?app_nil_r; done.
Qed.

Lemma loader_move_hold (aTable : FP_LIB_TABLE) (libs out0 : list wxString)
    (err0 : list IO_ERROR) (done : list wxString)
    (st st' : FOOTPRINT_LIST_IMPL) (ls : list LOADER) (i : nat)
    (pos pos' : LOADER) :
  m_cancelled st = false ->
  ls !! i = Some pos ->
  loader_job_move aTable pos st = (Returns pos', st') ->
  loaders_hold aTable libs out0 err0 done st ls ->
  loaders_hold aTable libs out0 err0 (done ++ fetching pos) st'
    (<[i := pos']> ls).
Proof.
  intros Hc Hi Hmove (Hperm & Hout & Herr).
  pose proof (flat_map_insert holding ls i pos' pos Hi) as Hh.
  unfold loaders_hold.
  destruct pos as [|n|n| |]; simpl in Hmove; cbn [fetching];
    rewrite ?app_nil_r.
  - destruct (m_queue_in st) as [|n rest] eqn:Hq;
      injection Hmove as <- <-; simpl in *.
    + rewrite ?Hq. rewrite app_nil_r in *.
      split_and!; try done. by rewrite Hh.
    + split_and!; try done.
      rewrite <- Hperm. rewrite app_nil_r in Hh.
      rewrite Hh. solve_Permutation.
  - rewrite Hc in Hmove. injection Hmove as <- <-. simpl in *.
    split_and!; try done.
    rewrite <- Hperm. f_equiv. f_equiv.
    apply (Permutation_app_inv_r [n]). rewrite Hh. solve_Permutation.
  - destruct (CatchErrors _ _) as [[b|e] s1] eqn:E; [|done].
    injection Hmove as <- <-. simpl in *.
    destruct (fetch_gives _ _ _ _ _ E) as (Ho & He & Hq & Hn).
    rewrite Ho, He, Hq, Hout, Herr.
    rewrite List.filter_app, List.flat_map_app. simpl.
    rewrite app_nil_r. rewrite <- !app_assoc.
    split_and!; try done.
    rewrite <- Hperm. rewrite <- Hh.
    solve_Permutation.
  - injection Hmove as <- <-. unfold fetch_add_finished. simpl in *.
    split_and!; simpl; try done.
    rewrite <- Hperm. f_equiv. f_equiv. rewrite app_nil_r in Hh.
    by rewrite Hh.
  - injection Hmove as <- <-. simpl in *.
    split_and!; try done.
    rewrite <- Hperm. f_equiv. f_equiv. rewrite app_nil_r in Hh.
    by rewrite Hh.
Qed.

Lemma loader_move_finish (aTable : FP_LIB_TABLE) (libs out0 : list wxString)
    (err0 : list IO_ERROR) (done : list wxString)
    (st st' : FOOTPRINT_LIST_IMPL) (ls : list LOADER) (i : nat)
    (pos pos' : LOADER) :
  m_cancelled st = true ->
  ls !! i = Some pos ->
  loader_job_move aTable pos st = (Returns pos', st') ->
  loaders_finish aTable libs out0 err0 done st ls ->
  loaders_finish aTable libs out0 err0 (done ++ fetching pos) st'
    (<[i := pos']> ls).
Proof.
  intros Hc Hi Hmove (Hperm & Hout & Herr).
  pose proof (flat_map_insert fetching ls i pos' pos Hi) as Hh.
  unfold loaders_finish.
  destruct pos as [|n|n| |]; simpl in Hmove; cbn [fetching];
    rewrite ?app_nil_r.
  - destruct (m_queue_in st) as [|n rest] eqn:Hq;
      injection Hmove as <- <-; simpl in *; rewrite app_nil_r in Hh;
      split_and!; try done; by rewrite Hh.
  - rewrite Hc in Hmove. injection Hmove as <- <-. simpl in *.
    rewrite app_nil_r in Hh. split_and!; try done. by rewrite Hh.
  - destruct (CatchErrors _ _) as [[b|e] s1] eqn:E; [|done].
    injection Hmove as <- <-. simpl in *.
    destruct (fetch_gives _ _ _ _ _ E) as (Ho & He & Hq & Hn).
    rewrite Ho, He, Hout, Herr.
    rewrite List.filter_app, List.flat_map_app. simpl.
    rewrite app_nil_r. rewrite <- !app_assoc.
    split_and!; try done.
    rewrite <- Hperm. rewrite <- Hh. solve_Permutation.
  - injection Hmove as <- <-. unfold fetch_add_finished. simpl in *.
    rewrite app_nil_r in Hh. split_and!; simpl; try done. by rewrite Hh.
  - injection Hmove as <- <-. simpl in *.
    rewrite app_nil_r in Hh. split_and!; try done. by rewrite Hh.
Qed.

Lemma loader_move_count (aTable : FP_LIB_TABLE) (count0 : Z)
    (counting0 : nat) (done : list wxString) (counted : nat)
    (st st' : FOOTPRINT_LIST_IMPL) (ls : list LOADER) (i : nat)
    (pos pos' : LOADER) :
  m_cancelled st = false ->
  ls !! i = Some pos ->
  loader_job_move aTable pos st = (Returns pos', st') ->
  loaders_count count0 counting0 done counted st ls ->
  exists counted',
    loaders_count count0 counting0 (done ++ fetching pos) counted' st'
      (<[i := pos']> ls)
    /\ (counted <= counted')%nat.
Proof.
  intros Hc Hi Hmove (Hcnt & Hsum).
  pose proof (sum_list_insert counting ls i pos' pos Hi) as Hs.
  unfold loaders_count. rewrite length_app.
  destruct pos as [|n|n| |]; simpl in Hmove; cbn [fetching length].
  - destruct (m_queue_in st) as [|n rest] eqn:Hq;
      injection Hmove as <- <-; simpl in *;
      exists counted; split_and!; try done; lia.
  - rewrite Hc in Hmove. injection Hmove as <- <-. simpl in *.
    exists counted; split_and!; try done; lia.
  - destruct (CatchErrors _ _) as [[b|e] s1] eqn:E; [|done].
    injection Hmove as <- <-. simpl in *.
    destruct (fetch_gives _ _ _ _ _ E) as (_ & _ & _ & Hn).
    exists counted. rewrite Hn. split_and!; try done; lia.
  - injection Hmove as <- <-. unfold fetch_add_finished. simpl in *.
    exists (S counted). split_and!; try lia.
    rewrite Hcnt, to_size_t_add1. f_equal. lia.
  - injection Hmove as <- <-. simpl in *.
    exists counted; split_and!; try done; lia.
Qed.

Lemma loader_move_at (aTable : FP_LIB_TABLE) (libs out0 : list wxString)
    (err0 : list IO_ERROR) (count0 : Z) (counting0 : nat)
    (done : list wxString) (counted : nat)
    (st st' : FOOTPRINT_LIST_IMPL) (ls : list LOADER) (i : nat)
    (pos pos' : LOADER) :
  m_cancelled st = false ->
  ls !! i = Some pos ->
  loader_job_move aTable pos st = (Returns pos', st') ->
  loaders_at aTable libs out0 err0 count0 counting0 done counted st ls ->
  exists done' counted',
    loaders_at aTable libs out0 err0 count0 counting0 done' counted' st'
      (<[i := pos']> ls)
    /\ (counted <= counted')%nat.
Proof.
  intros Hc Hi Hmove (Hhold & Hcount).
  destruct (loader_move_count _ _ _ _ _ _ _ _ _ _ _ Hc Hi Hmove Hcount)
    as (counted' & Hcount' & Hle).
  exists (done ++ fetching pos), counted'. split; [|done].
  split; [|done]. by eapply loader_move_hold.
Qed.

(** *** What one move of a parsing thread keeps *)

Lemma parser_move_keeps (aTable : FP_LIB_TABLE) (pos : PARSER)
    (st st' : FOOTPRINT_LIST_IMPL) (r : outcome PARSER) :
  parser_move aTable pos st = (r, st') -> parsers_keep st st'.
Proof.
  destruct pos as [|n|n|n fpnames|n f more| |]; simpl.
  - destruct (m_queue_out st) as [|n rest] eqn:Hq; intros [= _ <-].
    + apply parsers_keep_refl.
    + split_and!; simpl; try done. exists []; simpl; by rewrite app_nil_r.
  - intros [= _ <-]. apply parsers_keep_refl.
  - destruct (FootprintEnumerate aTable n) as [fpnames [e|]].
    + destruct (catch_clauses e st) as [[u|e'] s1] eqn:E;
        apply catch_clauses_keeps in E as [E _]; by intros [= _ <-].
    + intros [= _ <-]. apply parsers_keep_refl.
  - destruct fpnames; intros [= _ <-]; apply parsers_keep_refl.
  - destruct (new_FOOTPRINT_INFO_IMPL aTable n f) as [fpinfo|e].
    + intros [= _ <-]. split_and!; simpl; try done.
      exists []; simpl; by rewrite app_nil_r.
    + destruct (catch_clauses e st) as [[u|e'] s1] eqn:E;
        apply catch_clauses_keeps in E as [E _]; by intros [= _ <-].
  - intros [= _ <-]. split_and!; simpl; try done.
    exists []; simpl; by rewrite app_nil_r.
  - intros [= _ <-]. apply parsers_keep_refl.
Qed.

Lemma catch_clauses_caught (e : exception) (st st' : FOOTPRINT_LIST_IMPL)
    (u : unit) :
  catch_clauses e st = (Returns u, st') ->
  st' = set_errors (m_errors st ++ caught_error e) st.
Proof.
  unfold catch_clauses, THROW_IO_ERROR, push_error.
  destruct e as [ioe|what|]; simpl; by intros [= <-].
Qed.

Lemma insert_perm {S T : Type} (f : S -> list T) (ps : list S) (i : nat)
    (pos pos' : S) (Q Q' R R' : list T) :
  ps !! i = Some pos ->
  Q ++ List.flat_map f ps ≡ₚ R ->
  Q' ++ f pos' ++ R ≡ₚ R' ++ f pos ++ Q ->
  Q' ++ List.flat_map f (<[i := pos']> ps) ≡ₚ R'.
Proof.
  intros Hi HQ H.
  pose proof (flat_map_insert f ps i pos' pos Hi) as Hf.
  apply (Permutation_app_inv_r (f pos)).
  rewrite <- (app_assoc Q'), Hf.
  apply (Permutation_app_inv_r Q).
  rewrite <- HQ in H.
  etransitivity; [|etransitivity; [exact H|]]; solve_Permutation.
Qed.

Lemma parser_move_at (aTable : FP_LIB_TABLE) (q : list wxString)
    (err0 : list IO_ERROR) (taken : list wxString) (counted : nat)
    (st st' : FOOTPRINT_LIST_IMPL) (ps : list PARSER) (i : nat)
    (pos pos' : PARSER) :
  m_cancelled st = false ->
  ps !! i = Some pos ->
  parser_move aTable pos st = (Returns pos', st') ->
  parsers_at aTable q err0 taken counted st ps ->
  exists taken' counted',
    parsers_at aTable q err0 taken' counted' st' (<[i := pos']> ps)
    /\ (counted <= counted')%nat.
Proof.
  intros Hc Hi Hmove (Hq & Hent & Herr & Hcnt & Hsum).
  pose proof (sum_list_insert parsing_one ps i pos' pos Hi) as Hs.
  assert (Hstep : forall taken' counted',
            taken' ++ m_queue_out st' = q ->
            queue_parsed st' ++ entries_to_come aTable pos'
              ++ List.flat_map (parsed_of aTable) taken
            ≡ₚ List.flat_map (parsed_of aTable) taken'
               ++ entries_to_come aTable pos ++ queue_parsed st ->
            m_errors st' ++ errors_to_come aTable pos'
              ++ (err0 ++ List.flat_map (parse_errors aTable) taken)
            ≡ₚ (err0 ++ List.flat_map (parse_errors aTable) taken')
               ++ errors_to_come aTable pos ++ m_errors st ->
            m_count_finished st' = to_size_t (Z.of_nat counted') ->
            (counted' + parsing_one pos' + length taken
             = length taken' + counted + parsing_one pos)%nat ->
            (counted <= counted')%nat ->
            exists taken' counted',
              parsers_at aTable q err0 taken' counted' st' (<[i := pos']> ps)
              /\ (counted <= counted')%nat).
  { intros taken' counted' H1 H2 H3 H4 H5 H6. exists taken', counted'.
    split; [|done]. split_and!; try done.
    - by eapply (insert_perm _ _ _ _ _ _ _ _ _ Hi Hent).
    - by eapply (insert_perm _ _ _ _ _ _ _ _ _ Hi Herr).
    - lia. }
  destruct pos as [|n|n|n fpnames|n f more| |]; simpl in Hmove.
  - destruct (m_queue_out st) as [|n rest] eqn:Hout;
      injection Hmove as <- <-.
    + apply (Hstep taken counted); simpl; rewrite ?Hout; try done;
        try lia; solve_Permutation.
    + apply (Hstep (taken ++ [n]) counted); simpl;
        rewrite ?List.flat_map_app, ?length_app; simpl;
        rewrite ?app_nil_r; try done; try lia; try solve_Permutation.
      rewrite <- Hq, ?Hout. by rewrite <- app_assoc.
  - rewrite Hc in Hmove. injection Hmove as <- <-.
    apply (Hstep taken counted); simpl; try done; try lia;
      solve_Permutation.
  - unfold parsed_of, parse_errors in *.
    destruct (FootprintEnumerate aTable n) as [fpnames [e|]] eqn:Hen;
      simpl in Hmove.
    + destruct (catch_clauses e st) as [[u|e'] s1] eqn:E; [|done].
      apply catch_clauses_caught in E. subst s1.
      injection Hmove as <- <-.
      apply (Hstep taken counted); simpl; unfold parsed_of, parse_errors;
        rewrite ?Hen; simpl; try done; try lia; solve_Permutation.
    + injection Hmove as <- <-.
      apply (Hstep taken counted); simpl; unfold parsed_of, parse_errors;
        rewrite ?Hen; simpl; try done; try lia; solve_Permutation.
  - destruct fpnames as [|f more].
    + injection Hmove as <- <-.
      apply (Hstep taken counted); simpl; try done; try lia;
        solve_Permutation.
    + rewrite Hc in Hmove. injection Hmove as <- <-.
      apply (Hstep taken counted); simpl; try done; try lia;
        solve_Permutation.
  - destruct (new_FOOTPRINT_INFO_IMPL aTable n f) as [fpinfo|e] eqn:Hnew.
    + injection Hmove as <- <-.
      apply (Hstep taken counted); simpl; rewrite ?Hnew; simpl;
        try done; try lia; solve_Permutation.
    + destruct (catch_clauses e st) as [[u|e'] s1] eqn:E; [|done].
      apply catch_clauses_caught in E. subst s1.
      injection Hmove as <- <-.
      apply (Hstep taken counted); simpl; rewrite ?Hnew; simpl;
        try done; try lia; solve_Permutation.
  - injection Hmove as <- <-.
    apply (Hstep taken (S counted)); unfold fetch_add_finished; simpl;
      try done; try lia; try solve_Permutation.
    rewrite Hcnt, to_size_t_add1. f_equal. lia.
  - injection Hmove as <- <-.
    apply (Hstep taken counted); simpl; try done; try lia;
      solve_Permutation.
Qed.

(** *** What one move of any thread keeps *)

Lemma filter_Permutation_bool {A : Type} (f : A -> bool) (l l' : list A) :
  l ≡ₚ l' -> List.filter f l ≡ₚ List.filter f l'.
Proof.
  induction 1 as [|x l l' _ IH|x y l|l1 l2 l3 _ IH1 _ IH2]; simpl.
  - done.
  - destruct (f x); by rewrite IH.
  - destruct (f x), (f y); try done. apply perm_swap.
  - by rewrite IH1.
Qed.

Lemma flat_map_Permutation {A B : Type} (f : A -> list B) (l l' : list A) :
  l ≡ₚ l' -> List.flat_map f l ≡ₚ List.flat_map f l'.
Proof.
  induction 1 as [|x l l' _ IH|x y l|l1 l2 l3 _ IH1 _ IH2]; simpl.
  - done.
  - by rewrite IH.
  - solve_Permutation.
  - by rewrite IH1.
Qed.

Lemma filter_length_le {A : Type} (f : A -> bool) (l : list A) :
  (length (List.filter f l) <= length l)%nat.
Proof.
  induction l as [|a l IH]; simpl; [done|]. destruct (f a); simpl; lia.
Qed.

Lemma loaders_left_hold (ls : list LOADER) :
  forallb loader_has_left ls = true ->
  List.flat_map holding ls = [] /\ sum_list (map counting ls) = 0%nat.
Proof.
  induction ls as [|pos ls IH]; simpl; [done|].
  intros [H1 H2]%andb_prop. destruct pos; try done. by apply IH.
Qed.

Lemma parsers_left_hold (aTable : FP_LIB_TABLE) (ps : list PARSER) :
  forallb parser_has_left ps = true ->
  List.flat_map (entries_to_come aTable) ps = []
  /\ List.flat_map (errors_to_come aTable) ps = []
  /\ sum_list (map parsing_one ps) = 0%nat.
Proof.
  induction ps as [|pos ps IH]; simpl; [done|].
  intros [H1 H2]%andb_prop. destruct pos; try done. by apply IH.
Qed.

Lemma loaders_fresh (n : nat) :
  List.flat_map holding (replicate n loader_pops) = []
  /\ sum_list (map counting (replicate n loader_pops)) = 0%nat.
Proof. induction n as [|n IH]; simpl; [done|]. done. Qed.

Lemma parsers_fresh (aTable : FP_LIB_TABLE) (n : nat) :
  List.flat_map (entries_to_come aTable) (replicate n parser_pops) = []
  /\ List.flat_map (errors_to_come aTable) (replicate n parser_pops) = []
  /\ sum_list (map parsing_one (replicate n parser_pops)) = 0%nat.
Proof. induction n as [|n IH]; simpl; [done|]. done. Qed.

Lemma errors_empty_perm (st : FOOTPRINT_LIST_IMPL) (errors : list IO_ERROR) :
  m_errors st ≡ₚ errors ->
  errors_empty st = match errors with [] => true | _ => false end.
Proof.
  unfold errors_empty. intros H.
  destruct (m_errors st), errors; try done.
  - by apply Permutation_nil_cons in H.
  - symmetry in H. by apply Permutation_nil_cons in H.
Qed.

(** No move clears the flag. *)
Lemma move_cancelled (aTable : FP_LIB_TABLE) (m : MOVE) (c c' : THREADS) :
  move aTable m c = Some c' ->
  m_cancelled (members c') = false -> m_cancelled (members c) = false.
Proof.
  destruct m as [i|i|keep]; simpl.
  - destruct (loaders c !! i) as [pos|]; [|by intros [= <-]].
    destruct (loader_job_move aTable pos (members c)) as [[pos'|e] st']
      eqn:E; [|done].
    apply loader_job_move_keeps in E as (_ & Hc & _).
    intros [= <-]. simpl. congruence.
  - destruct (parsers c !! i) as [pos|]; [|by intros [= <-]].
    destruct (parser_move aTable pos (members c)) as [[pos'|e] st']
      eqn:E; [|done].
    apply parser_move_keeps in E as (_ & Hc & _).
    intros [= <-]. simpl. congruence.
  - intros [= <-]. unfold caller_move, caller_returns, caller_at.
    destruct (caller c); simpl;
      repeat match goal with
             | |- context [if ?b then _ else _] => destruct b eqn:?
             | |- context [match generatedTimestamp c with _ => _ end] =>
                 destruct (generatedTimestamp c)
             end; simpl; congruence.
Qed.

Lemma joining_no_loaders (aTable : FP_LIB_TABLE) (q : list wxString)
    (err0 : list IO_ERROR) (fplist : list FOOTPRINT_INFO)
    (generated : option Z) (c : THREADS) :
  joining_facts aTable q err0 fplist generated c -> loaders c = [].
Proof.
  unfold joining_facts. destruct (caller c); try done; by intros (?&?&?&?).
Qed.

Lemma joining_move (aTable : FP_LIB_TABLE) (q : list wxString)
    (err0 : list IO_ERROR) (fplist : list FOOTPRINT_INFO)
    (generated : option Z) (m : MOVE) (c c' : THREADS) :
  Z.of_nat (length q) < 2 ^ 64 ->
  move aTable m c = Some c' ->
  m_cancelled (members c') = false ->
  joining_facts aTable q err0 fplist generated c ->
  joining_facts aTable q err0 fplist generated c'.
Proof.
  intros Hsmall Hmove Hc' Hinv.
  pose proof (move_cancelled _ _ _ _ Hmove Hc') as Hc.
  destruct m as [i|i|keep]; simpl in Hmove.
  - rewrite (joining_no_loaders _ _ _ _ _ _ Hinv) in Hmove.
    by injection Hmove as <-.
  - destruct (parsers c !! i) as [pos|] eqn:Hi;
      [|by injection Hmove as <-].
    destruct (parser_move aTable pos (members c)) as [[pos'|e] st']
      eqn:E; [|done].
    injection Hmove as <-.
    pose proof (parser_move_keeps _ _ _ _ _ E) as (_ & _ & _ & Hl & _).
    unfold joining_facts in *. simpl.
    destruct (caller c); try done.
    + destruct Hinv as (H1 & H2 & H3 & H4 & taken & counted & Hat).
      destruct (parser_move_at _ _ _ _ _ _ _ _ _ _ _ Hc Hi E Hat)
        as (taken' & counted' & Hat' & _).
      split_and!; try done; [congruence|by eexists _, _].
    + destruct Hinv as (H1 & H2 & H3 & H4 & taken & counted & Hat).
      destruct (parser_move_at _ _ _ _ _ _ _ _ _ _ _ Hc Hi E Hat)
        as (taken' & counted' & Hat' & _).
      split_and!; try done; [congruence|by eexists _, _].
    + destruct Hinv as (H2 & H3 & H4 & taken & counted & Hat & Hle).
      destruct (parser_move_at _ _ _ _ _ _ _ _ _ _ _ Hc Hi E Hat)
        as (taken' & counted' & Hat' & Hle').
      split_and!; try done; [congruence|].
      exists taken', counted'. split; [done|lia].
    + destruct Hinv as (_ & Hp & _). by rewrite Hp in Hi.
  - injection Hmove as <-. unfold joining_facts in *.
    unfold caller_move in *.
    destruct (caller c) as [| | | |t|t| |result] eqn:Hcaller; try done.
    + (* at the condition of the wait *)
      destruct Hinv as (H1 & H2 & H3 & H4 & taken & counted & Hat).
      rewrite Hc. simpl.
      destruct (m_count_finished (members c) <? t) eqn:Hlt; simpl.
      * split_and!; try done. by eexists _, _.
      * split_and!; try done. exists taken, counted. split; [done|].
        destruct Hat as (Hq & _ & _ & Hcnt & Hsum).
        apply Z.ltb_ge in Hlt. rewrite Hcnt, H1 in Hlt.
        assert (length taken <= length q)%nat.
        { rewrite <- Hq, length_app. lia. }
        assert (H64 : 0 <= Z.of_nat counted < 2 ^ 64) by lia.
        unfold to_size_t in Hlt. rewrite Z.mod_small in Hlt by done. lia.
    + (* the reporter has been asked *)
      destruct Hinv as (H1 & H2 & H3 & H4 & taken & counted & Hat).
      simpl in Hc' |- *.
      destruct (m_progress_reporter (members c) && negb keep); [done|].
      split_and!; try done. by eexists _, _.
    + (* joining the parsing threads *)
      destruct Hinv as (H2 & H3 & H4 & taken & counted & Hat & Hle).
      destruct (forallb parser_has_left (parsers c)) eqn:Hleft.
      2:{ rewrite Hcaller. split_and!; try done. by eexists _, _. }
      destruct (parsers_left_hold aTable _ Hleft) as (He & Hr & Hs).
      destruct Hat as (Hq & Hent & Herr & Hcnt & Hsum).
      rewrite He, app_nil_r in Hent. rewrite Hr, app_nil_r in Herr.
      assert (Hlen : length taken = length q /\ m_queue_out (members c) = []).
      { assert (length taken + length (m_queue_out (members c))
                = length q)%nat by (rewrite <- Hq, length_app; lia).
        split; [lia|]. apply length_zero_iff_nil. lia. }
      destruct Hlen as [_ Hout]. rewrite Hout, app_nil_r in Hq. subst taken.
      unfold caller_returns. rewrite H2.
      destruct generated as [timestamp|]; simpl in Hc' |- *.
      * rewrite Hc in *. simpl.
        split_and!; try done.
        -- exists (queue_parsed (members c)). split; [done|]. by rewrite H4.
        -- by intros ? [= <-].
      * split_and!; try done.
        exists (queue_parsed (members c)). split; [done|]. by rewrite H4.
    + by rewrite Hcaller.
Qed.

Lemma loading_move (aTable : FP_LIB_TABLE) (aNickname : option wxString)
    (m : MOVE) (c c' : THREADS) :
  Z.of_nat (length (libraries_to_load aTable aNickname)) < 2 ^ 31 ->
  move aTable m c = Some c' ->
  m_cancelled (members c') = false ->
  loading_facts aTable aNickname c ->
  loading_facts aTable aNickname c'.
Proof.
  intros Hsmall Hmove Hc' Hinv.
  pose proof (move_cancelled _ _ _ _ Hmove Hc') as Hc.
  set (libs := libraries_to_load aTable aNickname) in *.
  assert (Hparse : forall q err0,
            q ≡ₚ List.filter (fetched aTable) libs ->
            err0 ≡ₚ List.flat_map (fetch_errors aTable) libs ->
            joining_facts aTable q err0 []
              (Some (GenerateTimestamp aTable aNickname)) c ->
            loading_facts aTable aNickname c').
  { intros q err0 Hq He Hj.
    assert (Hj' : joining_facts aTable q err0 []
                    (Some (GenerateTimestamp aTable aNickname)) c').
    { assert (Hq64 : Z.of_nat (length q) < 2 ^ 64).
      { pose proof (filter_length_le (fetched aTable) libs).
        apply Permutation_length in Hq. lia. }
      exact (joining_move _ _ _ _ _ _ _ _ Hq64 Hmove Hc' Hj). }
    unfold loading_facts. unfold joining_facts in Hj'.
    destruct (caller c') eqn:Hcaller'; try done;
      exists q, err0; split_and!; try done;
      unfold joining_facts; by rewrite Hcaller'. }
  unfold loading_facts in Hinv. fold libs in Hinv.
  destruct (caller c) as [| | | |t|t| |result] eqn:Hcaller; try done;
    try (destruct Hinv as (q & err0 & Hq & He & Hj); by eapply Hparse).
  - (* at the condition of the wait for the loaders *)
    destruct Hinv as (H1 & H2 & H3 & H4 & done & counted & Hat).
    destruct m as [i|i|keep]; simpl in Hmove.
    + destruct (loaders c !! i) as [pos|] eqn:Hi.
      2:{ injection Hmove as <-. unfold loading_facts. rewrite Hcaller.
          split_and!; try done. by eexists _, _. }
      destruct (loader_job_move aTable pos (members c)) as [[pos'|e] st']
        eqn:E; [|done].
      injection Hmove as <-.
      pose proof (loader_job_move_keeps _ _ _ _ _ E)
        as (_ & _ & _ & Hl & _ & Ht & _).
      destruct (loader_move_at _ _ _ _ _ _ _ _ _ _ _ _ _ _ Hc Hi E Hat)
        as (done' & counted' & Hat' & _).
      unfold loading_facts. simpl. rewrite Hcaller.
      split_and!; try done; try congruence; [by rewrite Ht|].
      by eexists _, _.
    + rewrite H2 in Hmove. injection Hmove as <-.
      unfold loading_facts. rewrite Hcaller.
      split_and!; try done. by eexists _, _.
    + injection Hmove as <-. unfold caller_move in *. rewrite Hcaller in *.
      rewrite Hc in *. simpl in *.
      destruct (to_int (m_count_finished (members c))
                <? m_total_libs (members c)) eqn:Hlt; simpl in *.
      * unfold loading_facts. simpl. split_and!; try done. by eexists _, _.
      * unfold loading_facts. simpl. split_and!; try done.
        exists done, counted. split; [done|].
        destruct Hat as ((Hperm & _ & _) & Hcnt & Hsum).
        apply Permutation_length in Hperm. rewrite !length_app in Hperm.
        apply Z.ltb_ge in Hlt. rewrite Hcnt, H4 in Hlt.
        fold libs in Hlt |- *. rewrite Z.add_0_l in Hlt. simpl in Hsum.
        assert (H64 : 0 <= Z.of_nat counted < 2 ^ 64).
        { split; [lia|]. apply Z.lt_trans with (2 ^ 31); [lia|done]. }
        unfold to_size_t in Hlt. rewrite Z.mod_small in Hlt by done.
        rewrite to_int_id in Hlt by (unfold is_int; lia). lia.
  - (* the reporter has been asked *)
    destruct Hinv as (H1 & H2 & H3 & H4 & done & counted & Hat).
    destruct m as [i|i|keep]; simpl in Hmove.
    + destruct (loaders c !! i) as [pos|] eqn:Hi.
      2:{ injection Hmove as <-. unfold loading_facts. rewrite Hcaller.
          split_and!; try done. by eexists _, _. }
      destruct (loader_job_move aTable pos (members c)) as [[pos'|e] st']
        eqn:E; [|done].
      injection Hmove as <-.
      pose proof (loader_job_move_keeps _ _ _ _ _ E)
        as (_ & _ & _ & Hl & _ & Ht & _).
      destruct (loader_move_at _ _ _ _ _ _ _ _ _ _ _ _ _ _ Hc Hi E Hat)
        as (done' & counted' & Hat' & _).
      unfold loading_facts. simpl. rewrite Hcaller.
      split_and!; try done; try congruence; [by rewrite Ht|].
      by eexists _, _.
    + rewrite H2 in Hmove. injection Hmove as <-.
      unfold loading_facts. rewrite Hcaller.
      split_and!; try done. by eexists _, _.
    + injection Hmove as <-. unfold caller_move in *. rewrite Hcaller in *.
      simpl in *.
      destruct (m_progress_reporter (members c) && negb keep); [done|].
      unfold loading_facts. simpl. split_and!; try done. by eexists _, _.
  - (* joining the loaders *)
    destruct Hinv as (H1 & H2 & H3 & H4 & done & counted & Hat & Hle).
    destruct m as [i|i|keep]; simpl in Hmove.
    + destruct (loaders c !! i) as [pos|] eqn:Hi.
      2:{ injection Hmove as <-. unfold loading_facts. rewrite Hcaller.
          split_and!; try done. by eexists _, _. }
      destruct (loader_job_move aTable pos (members c)) as [[pos'|e] st']
        eqn:E; [|done].
      injection Hmove as <-.
      pose proof (loader_job_move_keeps _ _ _ _ _ E)
        as (_ & _ & _ & Hl & _ & Ht & _).
      destruct (loader_move_at _ _ _ _ _ _ _ _ _ _ _ _ _ _ Hc Hi E Hat)
        as (done' & counted' & Hat' & Hle').
      unfold loading_facts. simpl. rewrite Hcaller.
      split_and!; try done; try congruence; [by rewrite Ht|].
      exists done', counted'. split; [done|unfold libs in *; lia].
    + rewrite H2 in Hmove. injection Hmove as <-.
      unfold loading_facts. rewrite Hcaller.
      split_and!; try done. by eexists _, _.
    + injection Hmove as <-. unfold caller_move in *. rewrite Hcaller in *.
      destruct (forallb loader_has_left (loaders c)) eqn:Hleft.
      2:{ unfold loading_facts. rewrite Hcaller.
          split_and!; try done. by eexists _, _. }
      destruct (loaders_left_hold _ Hleft) as (Hh & Hs).
      destruct Hat as ((Hperm & Hout & Herr) & Hcnt & Hsum).
      rewrite Hh, Hs in *. simpl in Hperm, Hsum, Hout, Herr.
      assert (Hin : m_queue_in (members c) = []).
      { apply Permutation_length in Hperm. rewrite length_app in Hperm.
        apply length_zero_iff_nil. unfold libs in *. lia. }
      rewrite Hin, app_nil_r in Hperm.
      unfold loading_facts. simpl.
      exists (m_queue_out (members c)), (m_errors (members c)).
      split_and!.
      * rewrite Hout. by apply filter_Permutation_bool.
      * rewrite Herr. by apply flat_map_Permutation.
      * unfold joining_facts. simpl.
        destruct (parsers_fresh aTable (hardware_concurrency + 1))
          as (He & Hr & Hp).
        split_and!; try done.
        exists [], 0%nat. unfold parsers_at. simpl.
        rewrite He, Hr, Hp. rewrite !app_nil_r. done.
Qed.

(** *** Runs *)

Lemma run_moves_keeps (aTable : FP_LIB_TABLE) (P : THREADS -> Prop) :
  (forall m c c', move aTable m c = Some c' -> P c -> P c') ->
  forall moves c c', run_moves aTable moves c = Some c' -> P c -> P c'.
Proof.
  intros Hstep. induction moves as [|m moves IH]; intros c c'; simpl.
  - by intros [= <-].
  - destruct (move aTable m c) as [c1|] eqn:E; [|done].
    intros Hrun HP. eapply IH; [exact Hrun|]. by eapply Hstep.
Qed.

Lemma run_moves_while_clear (aTable : FP_LIB_TABLE) (P : THREADS -> Prop) :
  (forall m c c', move aTable m c = Some c' ->
     m_cancelled (members c') = false -> P c -> P c') ->
  forall moves c c', run_moves aTable moves c = Some c' ->
    m_cancelled (members c') = false -> P c -> P c'.
Proof.
  intros Hstep moves c c' Hrun Hc HP.
  refine (run_moves_keeps aTable
            (fun c => m_cancelled (members c) = false -> P c) _
            moves c c' Hrun (fun _ => HP) Hc).
  intros m c1 c2 Hmove H1 H2. eapply Hstep; [done..|].
  apply H1. by eapply move_cancelled.
Qed.

Lemma run_moves_app (aTable : FP_LIB_TABLE) (moves1 moves2 : list MOVE) :
  forall c,
  run_moves aTable (moves1 ++ moves2) c
  = match run_moves aTable moves1 c with
    | Some c1 => run_moves aTable moves2 c1
    | None => None
    end.
Proof.
  induction moves1 as [|m moves1 IH]; intros c; simpl; [done|].
  destruct (move aTable m c); [apply IH|done].
Qed.

(** *** A round taken whole is a run of one thread *)

(** A round of the loop of a loader thread, or of a parsing thread, as
    [loader_job_round] and [parse_round] take it, is what the moves of one
    thread give when no other thread moves meanwhile. *)

Lemma loader_moves_at (aTable : FP_LIB_TABLE) (i : nat)
    (pos pos0 pos' : LOADER)
    (st st' : FOOTPRINT_LIST_IMPL) (c : THREADS) :
  loaders c !! i = Some pos0 ->
  loader_job_move aTable pos st = (Returns pos', st') ->
  move aTable (loader_moves i) (loader_at i pos st c)
  = Some (loader_at i pos' st' c).
Proof.
  intros Hi Hmove. unfold move, loader_at. simpl.
  rewrite list_lookup_insert_eq by (by eapply lookup_lt_Some).
  rewrite Hmove. by rewrite list_insert_insert_eq.
Qed.

Lemma loader_job_round_moves (aTable : FP_LIB_TABLE) (i : nat)
    (st st' : FOOTPRINT_LIST_IMPL) (c : THREADS) (b : bool)
    (pos0 : LOADER) :
  loaders c !! i = Some pos0 ->
  loader_job_round aTable st = (Returns b, st') ->
  exists n,
    run_moves aTable (replicate n (loader_moves i))
      (loader_at i loader_pops st c)
    = Some (loader_at i (if b then loader_pops else loader_left) st' c).
Proof.
  intros Hi. unfold loader_job_round.
  destruct (m_queue_in st) as [|nickname rest] eqn:Hq.
  - intros [= <- <-]. exists 1%nat. cbn [run_moves replicate].
    rewrite (loader_moves_at aTable i loader_pops pos0 loader_left st st);
      [done..|]. simpl. by rewrite Hq.
  - cbn [m_cancelled set_queue_in].
    destruct (m_cancelled st) eqn:Hc.
    + intros [= <- <-]. exists 2%nat. cbn [run_moves replicate].
      rewrite (loader_moves_at aTable i loader_pops pos0
                 (loader_tests nickname) st (set_queue_in rest st));
        [|done|simpl; by rewrite Hq].
      rewrite (loader_moves_at aTable i (loader_tests nickname) pos0
                 loader_left (set_queue_in rest st) (set_queue_in rest st));
        [done|done|]. simpl. by rewrite Hc.
    + destruct (CatchErrors (prefetch aTable nickname) (set_queue_in rest st))
        as [[u|e] st1] eqn:Hf; [|done].
      intros [= <- <-]. exists 4%nat. cbn [run_moves replicate].
      rewrite (loader_moves_at aTable i loader_pops pos0
                 (loader_tests nickname) st (set_queue_in rest st));
        [|done|simpl; by rewrite Hq].
      rewrite (loader_moves_at aTable i (loader_tests nickname) pos0
                 (loader_fetches nickname) (set_queue_in rest st)
                 (set_queue_in rest st));
        [|done|simpl; by rewrite Hc].
      rewrite (loader_moves_at aTable i (loader_fetches nickname) pos0
                 loader_counts (set_queue_in rest st) st1);
        [|done|simpl; by rewrite Hf].
      rewrite (loader_moves_at aTable i loader_counts pos0
                 loader_pops st1 (fetch_add_finished st1)); done.
Qed.

Lemma parser_moves_at (aTable : FP_LIB_TABLE) (i : nat)
    (pos pos0 pos' : PARSER) (st st' : FOOTPRINT_LIST_IMPL) (c : THREADS) :
  parsers c !! i = Some pos0 ->
  parser_move aTable pos st = (Returns pos', st') ->
  move aTable (parser_moves i) (parser_at i pos st c)
  = Some (parser_at i pos' st' c).
Proof.
  intros Hi Hmove. unfold move, parser_at. simpl.
  rewrite list_lookup_insert_eq by (by eapply lookup_lt_Some).
  rewrite Hmove. by rewrite list_insert_insert_eq.
Qed.

Lemma parse_names_moves (aTable : FP_LIB_TABLE) (i : nat)
    (nickname : wxString) (c : THREADS) (pos0 : PARSER) :
  parsers c !! i = Some pos0 ->
  forall (fpnames : list wxString) (st st' : FOOTPRINT_LIST_IMPL) (u : unit),
  parse_names aTable nickname fpnames st = (Returns u, st') ->
  exists n,
    run_moves aTable (replicate n (parser_moves i))
      (parser_at i (parser_names nickname fpnames) st c)
    = Some (parser_at i parser_counts st' c).
Proof.
  intros Hi. induction fpnames as [|fpname more IH]; intros st st' u.
  - intros [= _ <-]. exists 1%nat. cbn [run_moves replicate].
    by rewrite (parser_moves_at aTable i (parser_names nickname []) pos0
                  parser_counts st st).
  - cbn [parse_names]. destruct (m_cancelled st) eqn:Hc.
    + intros [= _ <-]. exists 1%nat. cbn [run_moves replicate].
      rewrite (parser_moves_at aTable i
                 (parser_names nickname (fpname :: more)) pos0
                 parser_counts st st); [done|done|].
      simpl. by rewrite Hc.
    + destruct (match new_FOOTPRINT_INFO_IMPL aTable nickname fpname with
                | Returns fpinfo =>
                    (Returns tt,
                     set_queue_parsed (queue_parsed st ++ [fpinfo]) st)
                | Throws e => catch_clauses e st
                end) as [[u1|e] st1] eqn:Hmake; [|done].
      intros Hmore. destruct (IH st1 st' u Hmore) as [n Hn].
      exists (S (S n)). cbn [run_moves replicate].
      rewrite (parser_moves_at aTable i
                 (parser_names nickname (fpname :: more)) pos0
                 (parser_makes nickname fpname more) st st);
        [|done|simpl; by rewrite Hc].
      rewrite (parser_moves_at aTable i (parser_makes nickname fpname more)
                 pos0 (parser_names nickname more) st st1);
        [done|done|]. simpl. by rewrite Hmake.
Qed.

Lemma parse_round_moves (aTable : FP_LIB_TABLE) (i : nat)
    (st st' : FOOTPRINT_LIST_IMPL) (c : THREADS) (b : bool)
    (pos0 : PARSER) :
  parsers c !! i = Some pos0 ->
  parse_round aTable st = (Returns b, st') ->
  exists n,
    run_moves aTable (replicate n (parser_moves i))
      (parser_at i parser_pops st c)
    = Some (parser_at i (if b then parser_pops else parser_left) st' c).
Proof.
  intros Hi. unfold parse_round.
  destruct (m_queue_out st) as [|nickname rest] eqn:Hq.
  - intros [= <- <-]. exists 1%nat. cbn [run_moves replicate].
    rewrite (parser_moves_at aTable i parser_pops pos0 parser_left st st);
      [done..|]. simpl. by rewrite Hq.
  - cbn [m_cancelled set_queue_out].
    destruct (m_cancelled st) eqn:Hc.
    + intros [= <- <-]. exists 2%nat. cbn [run_moves replicate].
      rewrite (parser_moves_at aTable i parser_pops pos0
                 (parser_tests nickname) st (set_queue_out rest st));
        [|done|simpl; by rewrite Hq].
      rewrite (parser_moves_at aTable i (parser_tests nickname) pos0
                 parser_left (set_queue_out rest st) (set_queue_out rest st));
        [done|done|]. simpl. by rewrite Hc.
    + destruct (FootprintEnumerate aTable nickname) as [fpnames thrown] eqn:He.
      destruct (match thrown with
                | None => (Returns tt, set_queue_out rest st)
                | Some e => catch_clauses e (set_queue_out rest st)
                end) as [[u1|e] st1] eqn:Hcatch; [|done].
      destruct (parse_names aTable nickname fpnames st1)
        as [[u2|e] st2] eqn:Hnames; [|done].
      intros [= <- <-].
      destruct (parse_names_moves aTable i nickname c pos0 Hi fpnames st1
                  st2 u2 Hnames) as [n Hn].
      exists (3 + (n + 1))%nat. cbn [run_moves replicate Nat.add].
      rewrite (parser_moves_at aTable i parser_pops pos0
                 (parser_tests nickname) st (set_queue_out rest st));
        [|done|simpl; by rewrite Hq].
      rewrite (parser_moves_at aTable i (parser_tests nickname) pos0
                 (parser_enumerates nickname) (set_queue_out rest st)
                 (set_queue_out rest st));
        [|done|simpl; by rewrite Hc].
      rewrite (parser_moves_at aTable i (parser_enumerates nickname) pos0
                 (parser_names nickname fpnames) (set_queue_out rest st)
                 st1);
        [|done|simpl; by rewrite He, Hcatch].
      rewrite replicate_add, run_moves_app, Hn. cbn [run_moves replicate].
      by rewrite (parser_moves_at aTable i parser_counts pos0 parser_pops
                    st2 (fetch_add_finished st2)).
Qed.

(** *** A load *)

Lemma called_loading (aTable : FP_LIB_TABLE) (aNickname : option wxString)
    (aProgressReporter : bool) (c0 c1 : THREADS) :
  Z.of_nat (length (libraries_to_load aTable aNickname)) < 2 ^ 31 ->
  GenerateTimestamp aTable aNickname <> m_list_timestamp (members c0) ->
  ReadFootprintFiles_called aTable aNickname aProgressReporter c0
    = Some c1 ->
  loading_facts aTable aNickname c1
  /\ loaders c0 = []
  /\ caller c1 = caller_waits_for_loaders
  /\ loaders c1 = replicate DEFAULT_THREADS loader_pops
  /\ m_cancelled (members c1) = false
  /\ m_progress_reporter (members c1) = aProgressReporter.
Proof.
  intros Hsmall Hne. unfold ReadFootprintFiles_called.
  destruct (Z.eqb_spec (GenerateTimestamp aTable aNickname)
              (m_list_timestamp (members c0))) as [|_]; [done|].
  unfold startWorkers. cbn [m_threads set_threads].
  destruct (loaders c0) as [|pos ls]; [|done]. simpl.
  destruct (loaders_fresh DEFAULT_THREADS) as (Hh & Hs).
  destruct aNickname as [nickname|]; intros [= <-];
    unfold loading_facts; simpl in *;
    split_and!; try done;
    try (rewrite to_int_id; [done|unfold is_int; lia]);
    exists [], 0%nat; unfold loaders_at, loaders_hold, loaders_count;
    simpl; rewrite Hh, Hs; simpl; split_and!; done.
Qed.

Lemma load_result (aTable : FP_LIB_TABLE) (aNickname : option wxString)
    (aProgressReporter : bool) (c0 c1 : THREADS) (moves : list MOVE)
    (c : THREADS) (result : option bool) :
  let libs := libraries_to_load aTable aNickname in
  let entries :=
    List.flat_map (parsed_of aTable) (List.filter (fetched aTable) libs) in
  let errors :=
    List.flat_map (fetch_errors aTable) libs
    ++ List.flat_map (parse_errors aTable)
         (List.filter (fetched aTable) libs) in
  Z.of_nat (length libs) < 2 ^ 31 ->
  GenerateTimestamp aTable aNickname <> m_list_timestamp (members c0) ->
  ReadFootprintFiles_called aTable aNickname aProgressReporter c0
    = Some c1 ->
  run_moves aTable moves c1 = Some c ->
  caller c = caller_left result ->
  m_cancelled (members c) = false ->
  (exists fplist,
     fplist ≡ₚ entries /\ m_list (members c) = std_sort fplist)
  /\ m_errors (members c) ≡ₚ errors
  /\ m_list_timestamp (members c) = GenerateTimestamp aTable aNickname
  /\ result = Some (match errors with [] => true | _ => false end)
  /\ loaders c = [] /\ parsers c = [].
Proof.
  intros libs entries errors Hsmall Hne Hcall Hrun Hleft Hc.
  destruct (called_loading _ _ _ _ _ Hsmall Hne Hcall) as (H1 & _).
  assert (Hinv : loading_facts aTable aNickname c).
  { refine (run_moves_while_clear aTable _ _ moves c1 c Hrun Hc H1).
    intros m ca cb. by apply loading_move. }
  unfold loading_facts in Hinv. rewrite Hleft in Hinv.
  destruct Hinv as (q & err0 & Hq & He & Hj).
  unfold joining_facts in Hj. rewrite Hleft in Hj.
  destruct Hj as (Hl & Hp & (fplist & Hf & Hlist) & Herr & _ & Hres & Hts).
  assert (Herrors : m_errors (members c) ≡ₚ errors).
  { rewrite Herr, He. unfold errors. f_equiv; [done|].
    by apply flat_map_Permutation. }
  split_and!; try done.
  - exists fplist. split; [|done]. rewrite Hf.
    by apply flat_map_Permutation.
  - by apply Hts.
  - rewrite Hres. f_equal. by apply errors_empty_perm.
Qed.

(** *** [joinWorkers] on its own *)

Lemma join_start (aTable : FP_LIB_TABLE) (c : THREADS)
    (generated : option Z) :
  caller c = caller_joins ->
  generatedTimestamp c = generated ->
  forallb loader_has_left (loaders c) = true ->
  joining_facts aTable (m_queue_out (members c)) (m_errors (members c))
    (m_list (members c)) generated (caller_move true c).
Proof.
  intros Hcaller Hgen Hleft. unfold caller_move. rewrite Hcaller, Hleft.
  unfold joining_facts. simpl.
  destruct (parsers_fresh aTable (hardware_concurrency + 1))
    as (He & Hr & Hp).
  split_and!; try done.
  exists [], 0%nat. unfold parsers_at. simpl.
  rewrite He, Hr, Hp. rewrite !app_nil_r. done.
Qed.

Lemma loaders_left_lookup (ls : list LOADER) (i : nat) (pos : LOADER) :
  forallb loader_has_left ls = true -> ls !! i = Some pos ->
  pos = loader_left.
Proof.
  intros Hall Hi. apply forallb_forall with (x := pos) in Hall.
  - by destruct pos.
  - apply list_elem_of_In. by eapply list_elem_of_lookup_2.
Qed.

Lemma join_facts (aTable : FP_LIB_TABLE) (c0 : THREADS)
    (moves : list MOVE) (c : THREADS) :
  forallb loader_has_left (loaders c0) = true ->
  parsers c0 = [] ->
  Z.of_nat (length (m_queue_out (members c0))) < 2 ^ 64 ->
  run_moves aTable moves (joinWorkers_called c0) = Some c ->
  m_cancelled (members c) = false ->
  c = joinWorkers_called c0
  \/ joining_facts aTable (m_queue_out (members c0)) (m_errors (members c0))
       (m_list (members c0)) None c.
Proof.
  intros Hleft Hpar Hsmall Hrun Hc.
  refine (run_moves_while_clear aTable
            (fun c => c = joinWorkers_called c0
                      \/ joining_facts aTable (m_queue_out (members c0))
                           (m_errors (members c0)) (m_list (members c0))
                           None c)
            _ moves _ c Hrun Hc (or_introl eq_refl)).
  intros m ca cb Hmove Hcb [->|Hj].
  - destruct m as [i|i|keep]; simpl in Hmove.
    + destruct (loaders c0 !! i) as [pos|] eqn:Hi;
        [|injection Hmove as <-; by left].
      pose proof (loaders_left_lookup _ _ _ Hleft Hi) as ->.
      simpl in Hmove. injection Hmove as <-. left.
      unfold joinWorkers_called. by rewrite (list_insert_id _ _ _ Hi).
    + rewrite Hpar in Hmove. injection Hmove as <-. by left.
    + injection Hmove as <-. right.
      assert (E : caller_move keep (joinWorkers_called c0)
                  = caller_move true (joinWorkers_called c0)).
      { unfold caller_move. simpl. by rewrite Hleft. }
      rewrite E. by apply (join_start aTable (joinWorkers_called c0)).
  - right. by eapply joining_move.
Qed.

(** *** [stopWorkers] on its own *)

Lemma stop_result (aTable : FP_LIB_TABLE) (c0 : THREADS)
    (moves : list MOVE) (c : THREADS) :
  parsers c0 = [] ->
  run_moves aTable moves (stopWorkers_called c0) = Some c ->
  m_cancelled (members c) = false ->
  stopping aTable c0 c \/ stopped aTable c0 c.
Proof.
  intros Hpar Hrun Hc.
  refine (run_moves_while_clear aTable
            (fun c => stopping aTable c0 c \/ stopped aTable c0 c)
            _ moves _ c Hrun Hc _).
  2:{ left. unfold stopping, stopWorkers_called. simpl.
      split_and!; try done; [|right; auto].
      exists []. unfold loaders_hold. simpl. by rewrite !app_nil_r. }
  clear moves c Hrun Hc.
  intros m c c' Hmove Hc' [Hs|Hs].
  - pose proof (move_cancelled _ _ _ _ Hmove Hc') as Hc.
    destruct Hs as (H1 & H2 & H3 & H4 & H5 & H6 & (done & Hhold) & Hidle).
    destruct m as [i|i|keep]; simpl in Hmove.
    + destruct (loaders c !! i) as [pos|] eqn:Hi.
      2:{ injection Hmove as <-. left. unfold stopping.
          split_and!; try done. by exists done. }
      destruct (loader_job_move aTable pos (members c)) as [[pos'|e] st']
        eqn:E; [|done].
      injection Hmove as <-. left.
      pose proof (loader_job_move_keeps _ _ _ _ _ E)
        as (_ & _ & Hts & Hl & _).
      unfold stopping. simpl.
      split_and!; try done; try congruence.
      * by rewrite length_insert.
      * eexists. by eapply loader_move_hold.
      * destruct pos as [|n|n| |]; simpl in E.
        -- destruct (m_queue_in (members c)) as [|n rest] eqn:Hq;
             injection E as <- <-; simpl.
           ++ by left.
           ++ destruct Hidle as [|Hidle]; [done|]. right. intros j Hj.
              apply Hidle. destruct (decide (i = j)) as [->|Hij].
              ** rewrite list_lookup_insert_eq in Hj; [done|].
                 by eapply lookup_lt_Some.
              ** by rewrite list_lookup_insert_ne in Hj.
        -- rewrite Hc in E. injection E as <- <-.
           destruct Hidle as [|Hidle]; [by left|]. right. intros j Hj.
           apply Hidle. destruct (decide (i = j)) as [->|Hij].
           ++ rewrite list_lookup_insert_eq in Hj; [done|].
              by eapply lookup_lt_Some.
           ++ by rewrite list_lookup_insert_ne in Hj.
        -- destruct (CatchErrors _ _) as [[b|e] s1] eqn:E1; [|done].
           injection E as <- <-.
           destruct (fetch_gives _ _ _ _ _ E1) as (_ & _ & Hq & _).
           rewrite Hq.
           destruct Hidle as [|Hidle]; [by left|]. right. intros j Hj.
           apply Hidle. destruct (decide (i = j)) as [->|Hij].
           ++ rewrite list_lookup_insert_eq in Hj; [done|].
              by eapply lookup_lt_Some.
           ++ by rewrite list_lookup_insert_ne in Hj.
        -- injection E as <- <-. simpl.
           destruct Hidle as [|Hidle]; [by left|]. right. intros j Hj.
           apply Hidle. destruct (decide (i = j)) as [->|Hij].
           ++ rewrite list_lookup_insert_eq in Hj; [done|].
              by eapply lookup_lt_Some.
           ++ by rewrite list_lookup_insert_ne in Hj.
        -- injection E as <- <-.
           destruct Hidle as [|Hidle]; [by left|]. right. intros j Hj.
           apply Hidle. destruct (decide (i = j)) as [->|Hij].
           ++ rewrite list_lookup_insert_eq in Hj; [congruence|].
              by eapply lookup_lt_Some.
           ++ by rewrite list_lookup_insert_ne in Hj.
    + rewrite H5 in Hmove. injection Hmove as <-. left.
      unfold stopping. split_and!; try done. by exists done.
    + injection Hmove as <-. unfold caller_move in *. rewrite H3 in *.
      destruct (forallb loader_has_left (loaders c)) eqn:Hleft.
      2:{ left. unfold stopping. split_and!; try done. by exists done. }
      right. unfold caller_returns in *. rewrite H4 in *.
      cbn [m_cancelled set_count_finished set_queue_in set_threads] in *.
      rewrite Hc in *. unfold stopped. simpl.
      destruct (loaders_left_hold _ Hleft) as (Hh & _).
      destruct Hhold as (Hperm & Hout & Herr). rewrite Hh in Hperm.
      split_and!; try done.
      exists done, (m_queue_in (members c)). split_and!; try done.
      intros Hrun0. destruct Hidle as [|Hidle]; [done|]. exfalso.
      assert (Hall : forallb loader_has_left (loaders c0) = true).
      { apply forallb_forall. intros pos Hin.
        apply list_elem_of_In, list_elem_of_lookup_1 in Hin as [j Hj].
        destruct (lookup_lt_is_Some_2 (loaders c) j) as [pos' Hj'].
        { rewrite H6. by eapply lookup_lt_Some. }
        rewrite (loaders_left_lookup _ _ _ Hleft Hj') in Hj'.
        specialize (Hidle j Hj'). rewrite Hidle in Hj.
        by injection Hj as <-. }
      congruence.
  - right. destruct Hs as (H1 & H2 & H3 & Hrest).
    destruct m as [i|i|keep]; simpl in Hmove.
    + rewrite H2 in Hmove. by injection Hmove as <-.
    + rewrite H3 in Hmove. by injection Hmove as <-.
    + injection Hmove as <-. unfold caller_move. by rewrite H1.
Qed.

(** *** Runs that come to an end *)

Section Progress.

Lemma same_call_refl (c : THREADS) : same_call c c.
Proof. by split_and!. Qed.

Lemma same_call_trans (c1 c2 c3 : THREADS) :
  same_call c1 c2 -> same_call c2 c3 -> same_call c1 c3.
Proof.
  intros (?&?&?&?&?&?) (?&?&?&?&?&?). split_and!; congruence.
Qed.

Lemma loader_move_returns (aTable : FP_LIB_TABLE) (pos : LOADER)
    (st : FOOTPRINT_LIST_IMPL) :
  table_caught aTable ->
  exists pos' st',
    loader_job_move aTable pos st = (Returns pos', st')
    /\ (pos <> loader_left ->
        (loader_moves_left pos' (length (m_queue_in st'))
         < loader_moves_left pos (length (m_queue_in st)))%nat)
    /\ (pos' = loader_left -> pos <> loader_left ->
        m_cancelled st = false -> m_queue_in st' = [])
    /\ (m_queue_in st = [] -> m_queue_in st' = []).
Proof.
  intros (Hfetch & _).
  destruct pos as [|n|n| |]; simpl.
  - destruct (m_queue_in st) as [|n rest] eqn:Hq.
    + eexists _, _. split; [done|]. rewrite Hq. simpl. split_and!; try done.
      lia.
    + eexists _, _. split; [done|]. simpl. split_and!; try done. lia.
  - eexists _, _. split; [done|].
    destruct (m_cancelled st) eqn:Hc; simpl; split_and!; try done; lia.
  - unfold CatchErrors, prefetch, THROW_IO_ERROR.
    specialize (Hfetch n).
    destruct (PrefetchLib aTable n) as [[]|[ioe|what|]]; try done;
      eexists _, _; (split; [done|]); simpl; split_and!; try done; lia.
  - eexists _, _. split; [done|]. unfold fetch_add_finished. simpl.
    split_and!; try done. lia.
  - eexists _, _. split; [done|]. split_and!; done.
Qed.

Lemma loader_left_or_not (pos : LOADER) :
  pos = loader_left \/ pos <> loader_left.
Proof. destruct pos; (by left) || (by right). Qed.

Lemma loader_runs_out (aTable : FP_LIB_TABLE) (i : nat) :
  table_caught aTable ->
  forall (fuel : nat) (c : THREADS),
  (forall pos, loaders c !! i = Some pos ->
     (loader_moves_left pos (length (m_queue_in (members c))) <= fuel)%nat) ->
  exists c',
    run_moves aTable (replicate fuel (loader_moves i)) c = Some c'
    /\ loaders c' = <[i := loader_left]> (loaders c)
    /\ parsers c' = parsers c
    /\ same_call c c'
    /\ (forall pos, loaders c !! i = Some pos -> pos <> loader_left ->
        m_cancelled (members c) = false -> m_queue_in (members c') = [])
    /\ (m_queue_in (members c) = [] -> m_queue_in (members c') = []).
Proof.
  intros Htable. induction fuel as [|fuel IH]; intros c Hfuel.
  - exists c. simpl. split_and!; try done; try apply same_call_refl.
    + destruct (loaders c !! i) as [pos|] eqn:Hi.
      * specialize (Hfuel pos eq_refl).
        destruct pos; simpl in Hfuel; try lia.
        by rewrite list_insert_id.
      * apply lookup_ge_None in Hi. by rewrite list_insert_ge.
    + intros pos Hi Hpos. specialize (Hfuel pos Hi).
      destruct pos; simpl in Hfuel; try lia. congruence.
  - cbn [replicate run_moves move].
    destruct (loaders c !! i) as [pos|] eqn:Hi.
    2:{ destruct (IH c) as (c' & Hrun & H1 & H2 & H3 & _ & H5).
        { intros pos Hpos. congruence. }
        exists c'. split_and!; try done. }
    destruct (loader_move_returns aTable pos (members c) Htable)
      as (pos' & st' & Hmove & Hless & Hempty & Hstays).
    rewrite Hmove.
    pose proof (loader_job_move_keeps _ _ _ _ _ Hmove)
      as (_ & Hc & Hts & Hl & _ & _ & Hrep & _).
    set (c1 := {| members := st'; loaders := <[i := pos']> (loaders c);
                  parsers := parsers c; caller := caller c;
                  generatedTimestamp := generatedTimestamp c |}).
    assert (Hi1 : loaders c1 !! i = Some pos').
    { simpl. apply list_lookup_insert_eq. by eapply lookup_lt_Some. }
    destruct (IH c1) as (c' & Hrun & Hls & Hps & Hsame & Hout & Hkeep).
    { intros pos1 Hpos1. rewrite Hi1 in Hpos1. injection Hpos1 as <-.
      specialize (Hfuel pos eq_refl). simpl.
      destruct (loader_left_or_not pos) as [->|Hne].
      - simpl in Hmove. injection Hmove as <- <-. simpl. lia.
      - specialize (Hless Hne). lia. }
    exists c'. split; [done|]. split_and!.
    + rewrite Hls. simpl. by rewrite list_insert_insert_eq.
    + by rewrite Hps.
    + eapply same_call_trans; [|exact Hsame].
      split_and!; simpl; congruence.
    + intros pos0 [= <-] Hne Hclear.
      destruct (loader_left_or_not pos') as [->|Hne'].
      * apply Hkeep. simpl. by apply Hempty.
      * apply (Hout pos' Hi1 Hne'). simpl. congruence.
    + intros Hq. apply Hkeep. simpl. by apply Hstays.
Qed.

Lemma loaders_all_left (ls : list LOADER) :
  (forall j, (j < length ls)%nat -> ls !! j = Some loader_left) ->
  forallb loader_has_left ls = true.
Proof.
  intros H. apply forallb_forall. intros pos Hin.
  apply list_elem_of_In, list_elem_of_lookup_1 in Hin as [j Hj].
  rewrite (H j) in Hj by (by eapply lookup_lt_Some). by injection Hj as <-.
Qed.

Lemma loaders_run_out (aTable : FP_LIB_TABLE) (c : THREADS) :
  table_caught aTable ->
  exists moves c',
    run_moves aTable moves c = Some c'
    /\ forallb loader_has_left (loaders c') = true
    /\ parsers c' = parsers c
    /\ same_call c c'
    /\ (m_cancelled (members c) = false ->
        (exists pos, loaders c !! 0%nat = Some pos /\ pos <> loader_left) ->
        m_queue_in (members c') = []).
Proof.
  intros Htable.
  assert (Hk : forall k, (k <= length (loaders c))%nat ->
            exists moves c',
              run_moves aTable moves c = Some c'
              /\ (forall j, (j < k)%nat -> loaders c' !! j = Some loader_left)
              /\ length (loaders c') = length (loaders c)
              /\ parsers c' = parsers c
              /\ same_call c c'
              /\ (k = 0%nat -> c' = c)
              /\ (k <> 0%nat -> m_cancelled (members c) = false ->
                  (exists pos, loaders c !! 0%nat = Some pos
                               /\ pos <> loader_left) ->
                  m_queue_in (members c') = [])).
  { induction k as [|k IH]; intros Hle.
    - exists [], c.
      split_and!; try done; try (intros; lia); apply same_call_refl.
    - destruct IH as (moves & c1 & Hrun & Hleft & Hlen & Hpar & Hsame
                      & Hzero & Hq); [lia|].
      destruct (loader_runs_out aTable k Htable
                  (4 * length (m_queue_in (members c1)) + 4) c1)
        as (c2 & Hrun2 & Hls & Hps & Hsame2 & Hout & Hkeep).
      { intros pos _. destruct pos; simpl; lia. }
      exists (moves ++ replicate (4 * length (m_queue_in (members c1)) + 4)
                         (loader_moves k)), c2.
      rewrite run_moves_app, Hrun. split; [done|]. split_and!.
      + intros j Hj. rewrite Hls.
        destruct (decide (j = k)) as [->|Hjk].
        * apply list_lookup_insert_eq. lia.
        * rewrite list_lookup_insert_ne by done. apply Hleft. lia.
      + by rewrite Hls, length_insert.
      + congruence.
      + by eapply same_call_trans.
      + done.
      + intros _ Hclear Hrunning.
        destruct k as [|k].
        * rewrite (Hzero eq_refl) in *.
          destruct Hrunning as (pos & Hpos & Hne). by eapply Hout.
        * apply Hkeep. by apply Hq. }
  destruct (Hk (length (loaders c)) (le_n _))
    as (moves & c' & Hrun & Hleft & Hlen & Hpar & Hsame & _ & Hq).
  exists moves, c'. split_and!; try done.
  - apply loaders_all_left. intros j Hj. apply Hleft. lia.
  - intros Hclear Hrunning. apply Hq; try done.
    destruct Hrunning as (pos & Hpos & _).
    apply lookup_lt_Some in Hpos. lia.
Qed.

Lemma catch_clauses_returns (e : exception) (st : FOOTPRINT_LIST_IMPL) :
  e <> throw_other ->
  catch_clauses e st
  = (Returns tt, set_errors (m_errors st ++ caught_error e) st).
Proof.
  unfold catch_clauses, THROW_IO_ERROR, push_error.
  by destruct e as [ioe|what|].
Qed.

#[local] Arguments library_moves : simpl never.

Lemma library_moves_eq (aTable : FP_LIB_TABLE) (nickname : wxString) :
  library_moves aTable nickname
  = (2 * length (fst (FootprintEnumerate aTable nickname)) + 5)%nat.
Proof. done. Qed.

Lemma parser_move_returns (aTable : FP_LIB_TABLE) (pos : PARSER)
    (st : FOOTPRINT_LIST_IMPL) :
  table_caught aTable ->
  exists pos' st',
    parser_move aTable pos st = (Returns pos', st')
    /\ (pos <> parser_left ->
        (parser_moves_left aTable pos' (m_queue_out st')
         < parser_moves_left aTable pos (m_queue_out st))%nat)
    /\ (pos' = parser_left -> pos <> parser_left ->
        m_cancelled st = false -> m_queue_out st' = [])
    /\ (m_queue_out st = [] -> m_queue_out st' = []).
Proof.
  intros (_ & Henum & Hnew).
  destruct pos as [|n|n|n fpnames|n f more| |]; simpl.
  - destruct (m_queue_out st) as [|n rest] eqn:Hq.
    + eexists _, _. split; [done|]. rewrite Hq. simpl.
      split_and!; try done. lia.
    + eexists _, _. split; [done|]. simpl.
      split_and!; try done. lia.
  - eexists _, _. split; [done|].
    pose proof (library_moves_eq aTable n).
    destruct (m_cancelled st) eqn:Hc; simpl; split_and!; try done; lia.
  - specialize (Henum n). pose proof (library_moves_eq aTable n) as Hn.
    destruct (FootprintEnumerate aTable n) as [fpnames [e|]]; simpl in *.
    + rewrite catch_clauses_returns by congruence.
      eexists _, _. split; [done|]. simpl. split_and!; try done. lia.
    + eexists _, _. split; [done|]. simpl. split_and!; try done. lia.
  - destruct fpnames as [|f more].
    + eexists _, _. split; [done|]. simpl. split_and!; try done. lia.
    + eexists _, _. split; [done|].
      destruct (m_cancelled st) eqn:Hc; simpl; split_and!; try done; lia.
  - specialize (Hnew n f).
    destruct (new_FOOTPRINT_INFO_IMPL aTable n f) as [fpinfo|e].
    + eexists _, _. split; [done|]. simpl. split_and!; try done. lia.
    + rewrite catch_clauses_returns by congruence.
      eexists _, _. split; [done|]. simpl. split_and!; try done. lia.
  - eexists _, _. split; [done|]. unfold fetch_add_finished. simpl.
    split_and!; try done. lia.
  - eexists _, _. split; [done|]. split_and!; done.
Qed.

Lemma parser_left_or_not (pos : PARSER) :
  pos = parser_left \/ pos <> parser_left.
Proof. destruct pos; (by left) || (by right). Qed.

Lemma parser_runs_out (aTable : FP_LIB_TABLE) (i : nat) :
  table_caught aTable ->
  forall (fuel : nat) (c : THREADS),
  (forall pos, parsers c !! i = Some pos ->
     (parser_moves_left aTable pos (m_queue_out (members c)) <= fuel)%nat) ->
  exists c',
    run_moves aTable (replicate fuel (parser_moves i)) c = Some c'
    /\ parsers c' = <[i := parser_left]> (parsers c)
    /\ loaders c' = loaders c
    /\ same_call c c'
    /\ (forall pos, parsers c !! i = Some pos -> pos <> parser_left ->
        m_cancelled (members c) = false -> m_queue_out (members c') = [])
    /\ (m_queue_out (members c) = [] -> m_queue_out (members c') = []).
Proof.
  intros Htable. induction fuel as [|fuel IH]; intros c Hfuel.
  - exists c. simpl. split_and!; try done; try apply same_call_refl.
    + destruct (parsers c !! i) as [pos|] eqn:Hi.
      * specialize (Hfuel pos eq_refl).
        destruct pos; simpl in Hfuel;
          rewrite ?library_moves_eq in Hfuel; try lia.
        by rewrite list_insert_id.
      * apply lookup_ge_None in Hi. by rewrite list_insert_ge.
    + intros pos Hi Hpos. specialize (Hfuel pos Hi).
      destruct pos; simpl in Hfuel;
        rewrite ?library_moves_eq in Hfuel; try lia.
      congruence.
  - cbn [replicate run_moves move].
    destruct (parsers c !! i) as [pos|] eqn:Hi.
    2:{ destruct (IH c) as (c' & Hrun & H1 & H2 & H3 & _ & H5).
        { intros pos Hpos. congruence. }
        exists c'. split_and!; try done. }
    destruct (parser_move_returns aTable pos (members c) Htable)
      as (pos' & st' & Hmove & Hless & Hempty & Hstays).
    rewrite Hmove.
    pose proof (parser_move_keeps _ _ _ _ _ Hmove)
      as (_ & Hc & Hts & Hl & _ & _ & Hrep).
    set (c1 := {| members := st'; loaders := loaders c;
                  parsers := <[i := pos']> (parsers c); caller := caller c;
                  generatedTimestamp := generatedTimestamp c |}).
    assert (Hi1 : parsers c1 !! i = Some pos').
    { simpl. apply list_lookup_insert_eq. by eapply lookup_lt_Some. }
    destruct (IH c1) as (c' & Hrun & Hps & Hls & Hsame & Hout & Hkeep).
    { intros pos1 Hpos1. rewrite Hi1 in Hpos1. injection Hpos1 as <-.
      specialize (Hfuel pos eq_refl). simpl.
      destruct (parser_left_or_not pos) as [->|Hne].
      - simpl in Hmove. injection Hmove as <- <-. simpl. lia.
      - specialize (Hless Hne). lia. }
    exists c'. split; [done|]. split_and!.
    + rewrite Hps. simpl. by rewrite list_insert_insert_eq.
    + by rewrite Hls.
    + eapply same_call_trans; [|exact Hsame].
      split_and!; simpl; congruence.
    + intros pos0 [= <-] Hne Hclear.
      destruct (parser_left_or_not pos') as [->|Hne'].
      * apply Hkeep. simpl. by apply Hempty.
      * apply (Hout pos' Hi1 Hne'). simpl. congruence.
    + intros Hq. apply Hkeep. simpl. by apply Hstays.
Qed.

Lemma parsers_all_left (ps : list PARSER) :
  (forall j, (j < length ps)%nat -> ps !! j = Some parser_left) ->
  forallb parser_has_left ps = true.
Proof.
  intros H. apply forallb_forall. intros pos Hin.
  apply list_elem_of_In, list_elem_of_lookup_1 in Hin as [j Hj].
  rewrite (H j) in Hj by (by eapply lookup_lt_Some). by injection Hj as <-.
Qed.

Lemma parser_moves_left_le (aTable : FP_LIB_TABLE) (pos : PARSER)
    (q : list wxString) :
  (parser_moves_left aTable pos q
   <= sum_list (map (library_moves aTable) q)
      + parser_moves_left aTable pos [])%nat.
Proof. destruct pos; simpl; lia. Qed.

Lemma sum_list_lookup_le {A : Type} (f : A -> nat) (l : list A) (i : nat)
    (x : A) :
  l !! i = Some x -> (f x <= sum_list (map f l))%nat.
Proof.
  revert i. induction l as [|a l IH]; intros i Hi; [done|].
  destruct i as [|i]; simpl in *.
  - injection Hi as ->. lia.
  - specialize (IH i Hi). lia.
Qed.

Lemma parsers_run_out (aTable : FP_LIB_TABLE) (c : THREADS) :
  table_caught aTable ->
  exists moves c',
    run_moves aTable moves c = Some c'
    /\ forallb parser_has_left (parsers c') = true
    /\ loaders c' = loaders c
    /\ same_call c c'
    /\ (m_cancelled (members c) = false ->
        (exists pos, parsers c !! 0%nat = Some pos /\ pos <> parser_left) ->
        m_queue_out (members c') = []).
Proof.
  intros Htable.
  assert (Hk : forall k, (k <= length (parsers c))%nat ->
            exists moves c',
              run_moves aTable moves c = Some c'
              /\ (forall j, (j < k)%nat -> parsers c' !! j = Some parser_left)
              /\ length (parsers c') = length (parsers c)
              /\ loaders c' = loaders c
              /\ same_call c c'
              /\ (k = 0%nat -> c' = c)
              /\ (k <> 0%nat -> m_cancelled (members c) = false ->
                  (exists pos, parsers c !! 0%nat = Some pos
                               /\ pos <> parser_left) ->
                  m_queue_out (members c') = [])).
  { induction k as [|k IH]; intros Hle.
    - exists [], c.
      split_and!; try done; try (intros; lia); apply same_call_refl.
    - destruct IH as (moves & c1 & Hrun & Hleft & Hlen & Hlo & Hsame
                      & Hzero & Hq); [lia|].
      destruct (parser_runs_out aTable k Htable (parser_bound aTable c1) c1)
        as (c2 & Hrun2 & Hps & Hls & Hsame2 & Hout & Hkeep).
      { intros pos Hpos. unfold parser_bound.
        pose proof (parser_moves_left_le aTable pos
                      (m_queue_out (members c1))).
        pose proof (sum_list_lookup_le
                      (fun pos => parser_moves_left aTable pos [])
                      _ _ _ Hpos). simpl in *. lia. }
      exists (moves ++ replicate (parser_bound aTable c1) (parser_moves k)),
        c2.
      rewrite run_moves_app, Hrun. split; [done|]. split_and!.
      + intros j Hj. rewrite Hps.
        destruct (decide (j = k)) as [->|Hjk].
        * apply list_lookup_insert_eq. lia.
        * rewrite list_lookup_insert_ne by done. apply Hleft. lia.
      + by rewrite Hps, length_insert.
      + congruence.
      + by eapply same_call_trans.
      + done.
      + intros _ Hclear Hrunning.
        destruct k as [|k].
        * rewrite (Hzero eq_refl) in *.
          destruct Hrunning as (pos & Hpos & Hne). by eapply Hout.
        * apply Hkeep. by apply Hq. }
  destruct (Hk (length (parsers c)) (le_n _))
    as (moves & c' & Hrun & Hleft & Hlen & Hlo & Hsame & _ & Hq).
  exists moves, c'. split_and!; try done.
  - apply parsers_all_left. intros j Hj. apply Hleft. lia.
  - intros Hclear Hrunning. apply Hq; try done.
    destruct Hrunning as (pos & Hpos & _).
    apply lookup_lt_Some in Hpos. lia.
Qed.

End Progress.

Lemma run_moves_joining (aTable : FP_LIB_TABLE) (q : list wxString)
    (err0 : list IO_ERROR) (fplist : list FOOTPRINT_INFO)
    (generated : option Z) (moves : list MOVE) (c c' : THREADS) :
  Z.of_nat (length q) < 2 ^ 64 ->
  run_moves aTable moves c = Some c' ->
  m_cancelled (members c') = false ->
  joining_facts aTable q err0 fplist generated c ->
  joining_facts aTable q err0 fplist generated c'.
Proof.
  intros Hsmall Hrun Hc Hj.
  refine (run_moves_while_clear aTable _ _ moves c c' Hrun Hc Hj).
  intros m ca cb. by apply joining_move.
Qed.

(** The parsing threads once started, and the caller after them. *)
Lemma parsing_returns (aTable : FP_LIB_TABLE) (q : list wxString)
    (err0 : list IO_ERROR) (fplist : list FOOTPRINT_INFO)
    (generated : option Z) (c : THREADS) (total_count : Z) :
  table_caught aTable ->
  Z.of_nat (length q) < 2 ^ 64 ->
  caller c = caller_waits_for_parsers total_count ->
  parsers c = replicate (hardware_concurrency + 1) parser_pops ->
  m_cancelled (members c) = false ->
  joining_facts aTable q err0 fplist generated c ->
  exists moves c' result,
    run_moves aTable moves c = Some c'
    /\ caller c' = caller_left result
    /\ m_cancelled (members c') = false.
Proof.
  intros Htable Hsmall Hcaller Hpar Hc Hj.
  destruct (parsers_run_out aTable c Htable)
    as (moves & c5 & Hrun & Hleft & _ & Hsame & Hout).
  destruct Hsame as (Hcaller5 & Hgen5 & Hc5 & _).
  rewrite Hcaller in Hcaller5. rewrite Hc in Hc5.
  assert (Hout5 : m_queue_out (members c5) = []).
  { apply Hout; [done|]. exists parser_pops. rewrite Hpar.
    split; [|done]. by rewrite Nat.add_1_r. }
  pose proof (run_moves_joining _ _ _ _ _ _ _ _ Hsmall Hrun Hc5 Hj) as Hj5.
  unfold joining_facts in Hj5. rewrite Hcaller5 in Hj5.
  destruct Hj5 as (Ht & _ & _ & _ & taken & counted & Hat).
  destruct Hat as (Hq & _ & _ & Hcnt & Hsum).
  destruct (parsers_left_hold aTable _ Hleft) as (_ & _ & Hs).
  rewrite Hout5, app_nil_r in Hq. subst taken. rewrite Hs in Hsum.
  assert (Hcount : m_count_finished (members c5) = Z.of_nat (length q)).
  { rewrite Hcnt. unfold to_size_t. rewrite Z.mod_small by lia.
    f_equal. lia. }
  set (c6 := caller_at caller_joins_parsers (members c5) c5).
  assert (H6 : caller_move true c5 = c6).
  { unfold caller_move. rewrite Hcaller5, Hc5, Hcount, Ht.
    by rewrite Z.ltb_irrefl. }
  exists (moves ++ [caller_moves true; caller_moves true]).
  eexists _, _. rewrite run_moves_app, Hrun. cbn [run_moves move].
  rewrite H6. split; [reflexivity|].
  unfold caller_move, c6. cbn [caller caller_at parsers]. rewrite Hleft.
  unfold caller_returns. cbn [generatedTimestamp caller_at].
  destruct (generatedTimestamp c5); cbn; rewrite ?Hc5; cbn;
    split; try reflexivity; done.
Qed.

Lemma load_returns (aTable : FP_LIB_TABLE) (aNickname : option wxString)
    (aProgressReporter : bool) (c0 : THREADS) :
  table_caught aTable ->
  loaders c0 = [] ->
  DEFAULT_THREADS <> 0%nat ->
  Z.of_nat (length (libraries_to_load aTable aNickname)) < 2 ^ 31 ->
  GenerateTimestamp aTable aNickname <> m_list_timestamp (members c0) ->
  exists c1 moves c result,
    ReadFootprintFiles_called aTable aNickname aProgressReporter c0
      = Some c1
    /\ run_moves aTable moves c1 = Some c
    /\ caller c = caller_left result
    /\ m_cancelled (members c) = false.
Proof.
  intros Htable Hnone Hthreads Hsmall Hne.
  set (libs := libraries_to_load aTable aNickname) in *.
  assert (Hcalled : exists c1,
            ReadFootprintFiles_called aTable aNickname aProgressReporter c0
            = Some c1).
  { unfold ReadFootprintFiles_called.
    destruct (Z.eqb_spec (GenerateTimestamp aTable aNickname)
                (m_list_timestamp (members c0))) as [|_]; [done|].
    unfold startWorkers. cbn [m_threads set_threads]. rewrite Hnone.
    simpl. by eexists. }
  destruct Hcalled as (c1 & Hcalled). exists c1.
  destruct (called_loading _ _ _ _ _ Hsmall Hne Hcalled)
    as (Hfacts & _ & Hcaller1 & Hloaders1 & Hc1 & _).
  destruct (loaders_run_out aTable c1 Htable)
    as (moves1 & c2 & Hrun1 & Hleft2 & Hpar2 & Hsame & Hin).
  destruct Hsame as (Hcaller2 & Hgen2 & Hc2 & _).
  rewrite Hcaller1 in Hcaller2. rewrite Hc1 in Hc2.
  assert (Hin2 : m_queue_in (members c2) = []).
  { apply Hin; [done|]. exists loader_pops. rewrite Hloaders1.
    split; [|done]. destruct DEFAULT_THREADS; [done|]. done. }
  assert (Hfacts2 : loading_facts aTable aNickname c2).
  { refine (run_moves_while_clear aTable _ _ moves1 c1 c2 Hrun1 Hc2 Hfacts).
    intros m ca cb. by apply loading_move. }
  assert (Hf2 := Hfacts2).
  unfold loading_facts in Hf2. rewrite Hcaller2 in Hf2. fold libs in Hf2.
  destruct Hf2 as (Hg & Hp & Hl & Ht & done & counted & Hat).
  destruct Hat as ((Hperm & Hout & Herr) & Hcnt & Hsum).
  destruct (loaders_left_hold _ Hleft2) as (Hh & Hs).
  rewrite Hh, Hin2 in Hperm. simpl in Hperm. rewrite app_nil_r in Hperm.
  rewrite Hs in Hsum. simpl in Hsum.
  assert (Hlen : length done = length libs)
    by (by apply Permutation_length).
  assert (Hcount : m_count_finished (members c2) = Z.of_nat (length libs)).
  { rewrite Hcnt. unfold to_size_t. rewrite Z.add_0_l.
    rewrite Z.mod_small; [f_equal; lia|].
    split; [lia|]. apply Z.lt_trans with (2 ^ 31); [lia|done]. }
  set (c3 := caller_at caller_joins (members c2) c2).
  assert (H3 : caller_move true c2 = c3).
  { unfold caller_move. rewrite Hcaller2, Hc2, Hcount, Ht.
    rewrite to_int_id by (unfold is_int; lia). by rewrite Z.ltb_irrefl. }
  set (c4 := caller_move true c3).
  assert (Hrun4 : run_moves aTable
                    (moves1 ++ [caller_moves true; caller_moves true]) c1
                  = Some c4).
  { rewrite run_moves_app, Hrun1. cbn [run_moves move]. by rewrite H3. }
  assert (Hc4 : m_cancelled (members c4) = false).
  { unfold c4, caller_move, c3. cbn [caller caller_at loaders].
    rewrite Hleft2. simpl. done. }
  assert (Hfacts4 : loading_facts aTable aNickname c4).
  { refine (run_moves_while_clear aTable _ _ _ c1 c4 Hrun4 Hc4 Hfacts).
    intros m ca cb. by apply loading_move. }
  assert (Hcaller4 : caller c4
                     = caller_waits_for_parsers
                         (Z.of_nat (length (m_queue_out (members c2))))
                     /\ parsers c4
                        = replicate (hardware_concurrency + 1) parser_pops).
  { unfold c4, caller_move, c3. cbn [caller caller_at loaders].
    rewrite Hleft2. simpl. done. }
  destruct Hcaller4 as [Hcaller4 Hpar4].
  unfold loading_facts in Hfacts4. rewrite Hcaller4 in Hfacts4.
  destruct Hfacts4 as (q & err0 & Hq & He & Hj).
  assert (Hq64 : Z.of_nat (length q) < 2 ^ 64).
  { pose proof (filter_length_le (fetched aTable) libs).
    apply Permutation_length in Hq. fold libs in Hq. lia. }
  destruct (parsing_returns aTable q err0 []
              (Some (GenerateTimestamp aTable aNickname)) c4 _ Htable
              Hq64 Hcaller4 Hpar4 Hc4 Hj)
    as (moves4 & c & result & Hrun & Hres & Hc).
  exists ((moves1 ++ [caller_moves true; caller_moves true]) ++ moves4),
    c, result.
  split; [done|]. rewrite run_moves_app, Hrun4. done.
Qed.

Lemma join_returns (aTable : FP_LIB_TABLE) (c0 : THREADS) :
  table_caught aTable ->
  forallb loader_has_left (loaders c0) = true ->
  parsers c0 = [] ->
  Z.of_nat (length (m_queue_out (members c0))) < 2 ^ 64 ->
  m_cancelled (members c0) = false ->
  exists moves c result,
    run_moves aTable moves (joinWorkers_called c0) = Some c
    /\ caller c = caller_left result
    /\ m_cancelled (members c) = false.
Proof.
  intros Htable Hleft Hpar Hsmall Hc0.
  set (c4 := caller_move true (joinWorkers_called c0)).
  pose proof (join_start aTable (joinWorkers_called c0) None eq_refl
                eq_refl Hleft) as Hj. fold c4 in Hj. simpl in Hj.
  assert (H4 : caller c4
               = caller_waits_for_parsers
                   (Z.of_nat (length (m_queue_out (members c0))))
               /\ parsers c4
                  = replicate (hardware_concurrency + 1) parser_pops
               /\ m_cancelled (members c4) = false).
  { unfold c4, caller_move, joinWorkers_called. cbn [caller loaders].
    rewrite Hleft. simpl. done. }
  destruct H4 as (Hcaller4 & Hpar4 & Hc4).
  destruct (parsing_returns aTable _ _ _ _ c4 _ Htable Hsmall Hcaller4
              Hpar4 Hc4 Hj)
    as (moves4 & c & result & Hrun & Hres & Hc).
  exists (caller_moves true :: moves4), c, result.
  split; [|done]. cbn [run_moves move]. exact Hrun.
Qed.

Lemma stop_returns (aTable : FP_LIB_TABLE) (c0 : THREADS) :
  table_caught aTable ->
  exists moves c,
    run_moves aTable moves (stopWorkers_called c0) = Some c
    /\ caller c = caller_left None
    /\ m_cancelled (members c) = m_cancelled (members c0).
Proof.
  intros Htable.
  destruct (loaders_run_out aTable (stopWorkers_called c0) Htable)
    as (moves1 & c2 & Hrun1 & Hleft2 & _ & Hsame & _).
  destruct Hsame as (Hcaller2 & Hgen2 & Hc2 & _).
  exists (moves1 ++ [caller_moves true]). eexists.
  rewrite run_moves_app, Hrun1. cbn [run_moves move].
  split; [reflexivity|].
  unfold caller_move. rewrite Hcaller2. simpl. rewrite Hleft2.
  unfold caller_returns. rewrite Hgen2. simpl in *.
  split; [done|]. rewrite <- Hc2.
  by destruct (m_cancelled (members c2)) eqn:E.
Qed.

(** *** [stopWorkers] when the flag is set *)

Lemma loaders_left_fetch (ls : list LOADER) :
  forallb loader_has_left ls = true -> List.flat_map fetching ls = [].
Proof.
  induction ls as [|pos ls IH]; simpl; [done|].
  intros [H1 H2]%andb_prop. destruct pos; try done. by apply IH.
Qed.

Lemma stop_cancelled_result (aTable : FP_LIB_TABLE) (c0 : THREADS)
    (moves : list MOVE) (c : THREADS) :
  parsers c0 = [] ->
  m_cancelled (members c0) = true ->
  run_moves aTable moves (stopWorkers_called c0) = Some c ->
  stopping_cancelled aTable c0 c \/ stopped_cancelled aTable c0 c.
Proof.
  intros Hpar Hc0 Hrun.
  refine (run_moves_keeps aTable
            (fun c => stopping_cancelled aTable c0 c
                      \/ stopped_cancelled aTable c0 c)
            _ moves _ c Hrun _).
  2:{ left. unfold stopping_cancelled, stopWorkers_called. simpl.
      split_and!; try done.
      exists []. unfold loaders_finish. simpl. by rewrite !app_nil_r. }
  clear moves c Hrun.
  intros m c c' Hmove [Hs|Hs].
  - destruct Hs as (Hc & H1 & H3 & H4 & H5 & done & Hfin).
    destruct m as [i|i|keep]; simpl in Hmove.
    + destruct (loaders c !! i) as [pos|] eqn:Hi.
      2:{ injection Hmove as <-. left. unfold stopping_cancelled.
          split_and!; try done. by exists done. }
      destruct (loader_job_move aTable pos (members c)) as [[pos'|e] st']
        eqn:E; [|done].
      injection Hmove as <-. left.
      pose proof (loader_job_move_keeps _ _ _ _ _ E)
        as (_ & Hc' & _ & Hl & _).
      unfold stopping_cancelled. simpl.
      split_and!; try done; try congruence.
      eexists. by eapply loader_move_finish.
    + rewrite H5 in Hmove. injection Hmove as <-. left.
      unfold stopping_cancelled. split_and!; try done. by exists done.
    + injection Hmove as <-. unfold caller_move in *. rewrite H3 in *.
      destruct (forallb loader_has_left (loaders c)) eqn:Hleft.
      2:{ left. unfold stopping_cancelled. split_and!; try done.
          by exists done. }
      right. unfold caller_returns in *. rewrite H4 in *.
      cbn [m_cancelled set_count_finished set_queue_in set_threads] in *.
      rewrite Hc in *. unfold stopped_cancelled. simpl.
      destruct Hfin as (Hperm & Hout & Herr).
      rewrite (loaders_left_fetch _ Hleft), app_nil_r in Hperm.
      split_and!; try done. by exists done.
  - right. destruct Hs as (H1 & H2 & H3 & Hrest).
    destruct m as [i|i|keep]; simpl in Hmove.
    + rewrite H2 in Hmove. by injection Hmove as <-.
    + rewrite H3 in Hmove. by injection Hmove as <-.
    + injection Hmove as <-. unfold caller_move. by rewrite H1.
Qed.

(** *** How a load ends *)

Lemma load_ends (aTable : FP_LIB_TABLE) (aNickname : option wxString)
    (aProgressReporter : bool) (c0 c1 : THREADS) (moves : list MOVE)
    (c : THREADS) (result : option bool) :
  GenerateTimestamp aTable aNickname <> m_list_timestamp (members c0) ->
  ReadFootprintFiles_called aTable aNickname aProgressReporter c0
    = Some c1 ->
  run_moves aTable moves c1 = Some c ->
  caller c = caller_left result ->
  loaders c = [] /\ parsers c = []
  /\ m_list_timestamp (members c)
     = (if m_cancelled (members c) then 0
        else GenerateTimestamp aTable aNickname).
Proof.
  intros Hne Hcalled Hrun Hres.
  assert (H1 : load_ending (GenerateTimestamp aTable aNickname) c1).
  { revert Hcalled. unfold ReadFootprintFiles_called.
    destruct (Z.eqb_spec (GenerateTimestamp aTable aNickname)
                (m_list_timestamp (members c0))) as [|_]; [done|].
    destruct (startWorkers _ _ _ _) as [u st| |]; try done.
    by intros [= <-]. }
  assert (H : load_ending (GenerateTimestamp aTable aNickname) c).
  { refine (run_moves_keeps aTable _ _ moves c1 c Hrun H1).
    clear. intros m c c' Hmove Hinv. unfold load_ending in *.
    destruct m as [i|i|keep]; simpl in Hmove.
    - destruct (loaders c !! i) as [pos|] eqn:Hi;
        [|by injection Hmove as <-].
      destruct (loader_job_move aTable pos (members c)) as [[pos'|e] st'];
        [|done].
      injection Hmove as <-. simpl.
      destruct (caller c); try done.
      destruct Hinv as (Hl & _). by rewrite Hl in Hi.
    - destruct (parsers c !! i) as [pos|] eqn:Hi;
        [|by injection Hmove as <-].
      destruct (parser_move aTable pos (members c)) as [[pos'|e] st'];
        [|done].
      injection Hmove as <-. simpl.
      destruct (caller c); try done.
      destruct Hinv as (_ & Hp & _). by rewrite Hp in Hi.
    - injection Hmove as <-. unfold caller_move, caller_returns, caller_at.
      destruct (caller c) eqn:Hcaller; try rewrite Hinv; simpl;
        repeat match goal with
               | |- context [if ?b then _ else _] => destruct b eqn:?
               end; simpl; rewrite ?Hcaller; try done;
        simpl in *; congruence. }
  unfold load_ending in H. by rewrite Hres in H.
Qed.

(** *** The claims about the footprint list *)

(** C6. [ReadCacheFromFile] leaves the list that the parsing built, and the
    stored timestamp is 0 when an exception was thrown during the parsing
    and when the resulting list is empty, which it is when the file does
    not exist or cannot be opened; in every other case the file has a first
    line and the timestamp is the one converted from that line. *)
Theorem C6_cache_invalidation (aFile : option (list wxString))
    (st : FOOTPRINT_LIST_IMPL) :
  let st' := ReadCacheFromFile aFile st in
  let parsed := read_cache aFile (set_list [] (set_list_timestamp 0 st)) in
  m_list st' = m_list (snd parsed)
  /\ (aFile = None -> m_list st' = [] /\ m_list_timestamp st' = 0)
  /\ match fst parsed, m_list st' with
     | Throws _, _ => m_list_timestamp st' = 0
     | Returns _, [] => m_list_timestamp st' = 0
     | Returns _, _ :: _ =>
         exists first rest,
           aFile = Some (first :: rest)
           /\ m_list_timestamp st' = snd (ToLongLong first 0)
     end.
Proof.
  intros st' parsed. subst st' parsed.
  unfold ReadCacheFromFile.
  set (st0 := set_list [] (set_list_timestamp 0 st)).
  assert (Hparsed : forall o s, read_cache aFile st0 = (o, s) ->
            (aFile = None \/ aFile = Some [] -> m_list s = [])
            /\ (forall first rest, aFile = Some (first :: rest) ->
                  m_list_timestamp s = snd (ToLongLong first 0))).
  { intros o s. unfold read_cache. destruct aFile as [[|first rest]|];
      cbn [GetFirstLine m_aLines].
    - intros [= <- <-]. split; [done|]. intros ? ? [=].
    - set (stA := set_list_timestamp _ st0).
      destruct (read_entries_appends
                  (S (GetLineCount {| m_aLines := first :: rest;
                                      m_nCurLine := 0 |}))
                  {| m_aLines := first :: rest; m_nCurLine := 0 |} stA)
        as [added Hadd].
      destruct (read_entries _ _ stA) as [o' [f' s']]. simpl in Hadd.
      intros [= <- <-]. subst s'. split.
      + intros [[=]|[=]].
      + intros ? ? [= <- <-]. reflexivity.
    - intros [= <- <-]. split; [done|]. intros ? ? [=]. }
  destruct (read_cache aFile st0) as [[u|e] s] eqn:Hread;
    destruct (Hparsed _ _ eq_refl) as (Hnil & Hts); simpl;
    destruct (m_list s) as [|x l] eqn:Hl; simpl; rewrite ?Hl;
    (split; [done|]);
    (split; [intros ->; by specialize (Hnil (or_introl eq_refl))|]);
    try done.
  destruct aFile as [[|first rest]|].
  - by specialize (Hnil (or_intror eq_refl)).
  - eauto.
  - by specialize (Hnil (or_introl eq_refl)).
Qed.

(** C7. When no string that [WriteCacheToFile] writes holds an end of line
    (the nickname and the name of an entry are written as they are, the
    description and the keywords as [EscapeString] gives them), the file
    written is the line of the timestamp and then, for each entry of the
    list in turn, seven lines: library nickname, item name, escaped
    description, escaped keywords, order number, pad count, unique pad
    count; that is one line and seven per entry. [ReadCacheFromFile] takes
    the seven lines after the current one in that same order, and what it
    reads from the written file is the list of the entries, each field
    having gone through its conversion to a line and back, up to the first
    entry whose unescaping throws. *)
Theorem C7_cache_file_layout (st st0 : FOOTPRINT_LIST_IMPL) :
  Forall (fun s => line_safe s = true) (cache_lines st) ->
  wxTextFile_Open (WriteCacheToFile true true st)
    = Some (Format_lld (m_list_timestamp st)
            :: List.concat (List.map entry_lines (m_list st)))
  /\ (forall fpinfo,
        entry_lines fpinfo =
          [ m_nickname fpinfo; m_fpname fpinfo;
            EscapeString (m_doc fpinfo) CTX_LINE;
            EscapeString (m_keywords fpinfo) CTX_LINE;
            Format_d (m_num fpinfo); Format_u (m_pad_count fpinfo);
            Format_u (m_unique_pad_count fpinfo) ])
  /\ option_map (@length wxString)
       (wxTextFile_Open (WriteCacheToFile true true st))
     = Some (1 + 7 * length (m_list st))%nat
  /\ (forall ts l1 l2 l3 l4 l5 l6 l7 rest,
        fst (read_entry
               {| m_aLines :=
                    ts :: l1 :: l2 :: l3 :: l4 :: l5 :: l6 :: l7 :: rest;
                  m_nCurLine := 0 |})
        = match UnescapeString l3 with
          | Throws e => Throws e
          | Returns desc =>
              match UnescapeString l4 with
              | Throws e => Throws e
              | Returns keywords =>
                  Returns (FOOTPRINT_INFO_IMPL l1 l2 desc keywords
                             (to_int (wxAtoi l5)) (to_unsigned (wxAtoi l6))
                             (to_unsigned (wxAtoi l7)))
              end
          end)
  /\ m_list (ReadCacheFromFile
               (wxTextFile_Open (WriteCacheToFile true true st)) st0)
     = reread_all (m_list st).
Proof.
  intros Hsafe.
  rewrite (written_file_lines st Hsafe). unfold cache_lines.
  split_and!; try reflexivity.
  - simpl. f_equal. f_equal.
    induction (m_list st) as [|e es IH]; simpl; [done|]. rewrite IH. lia.
  - intros. unfold read_entry, GetNextLine. cbn.
    destruct (UnescapeString l3); [|done].
    destruct (UnescapeString l4); done.
  - unfold ReadCacheFromFile, read_cache.
    cbn [GetFirstLine m_aLines].
    set (ts := Format_lld (m_list_timestamp st)).
    set (stA := set_list_timestamp _ _).
    pose proof (read_entries_written (m_list st) [ts] 0 stA
      (S (GetLineCount
            {| m_aLines := ts :: List.concat (List.map entry_lines (m_list st));
               m_nCurLine := 0 |}))
      eq_refl) as H.
    cbn [app] in H.
    match type of H with ?P -> _ => assert (HP : P) end.
    { unfold GetLineCount. simpl.
      clear. induction (m_list st) as [|e es IH]; simpl; lia. }
    specialize (H HP).
    destruct (read_entries _ _ stA) as [[u|ex] [f' st']]; simpl in H |- *;
      destruct (length _ =? 0)%nat; simpl; exact H.
Qed.


(** C9. [CatchErrors] returns true when the function it wraps returns; when
    that function throws an [IO_ERROR], or a [std::exception], the error is
    appended to the list of errors and [CatchErrors] returns false. A
    loader thread that is not cancelled goes through its whole queue: every
    library is counted as finished, those that could be fetched are passed
    on, and each of the others has left its error. [ReadFootprintFiles],
    when it loads, and [joinWorkers] return whether the list of errors is
    empty. And a load whose threads have finished when they are first
    looked at runs to its end although libraries fail: it returns, not
    cancelled, with the generated timestamp stored and the errors of the
    failed libraries in the list. *)
Theorem C9_library_failures_are_collected (aTable : FP_LIB_TABLE) :
  (forall (aFunc : THROWING unit) (st st' : FOOTPRINT_LIST_IMPL),
      (aFunc st = (Returns tt, st') ->
         CatchErrors aFunc st = (Returns true, st'))
      /\ (forall ioe, aFunc st = (Throws (throw_IO_ERROR ioe), st') ->
            CatchErrors aFunc st
            = (Returns false, set_errors (m_errors st' ++ [ioe]) st'))
      /\ (forall what, aFunc st = (Throws (throw_std_exception what), st') ->
            CatchErrors aFunc st
            = (Returns false,
               set_errors (m_errors st' ++ [make_IO_ERROR what]) st')))
  /\ (forall st : FOOTPRINT_LIST_IMPL,
        m_cancelled st = false ->
        Forall (fetch_caught aTable) (m_queue_in st) ->
        exists st',
          loader_job aTable st = (Returns tt, st')
          /\ m_queue_in st' = []
          /\ m_queue_out st'
             = m_queue_out st ++ List.filter (fetched aTable) (m_queue_in st)
          /\ m_errors st'
             = m_errors st
               ++ List.flat_map (fetch_errors aTable) (m_queue_in st)
          /\ (m_queue_in st <> [] ->
              m_count_finished st'
              = to_size_t (m_count_finished st
                           + Z.of_nat (length (m_queue_in st)))))
  /\ (forall aNickname rep loading parsing st ok st',
        GenerateTimestamp aTable aNickname <> m_list_timestamp st ->
        ReadFootprintFiles aTable aNickname rep loading parsing st
          = Done ok st' ->
        ok = match m_errors st' with [] => true | _ => false end)
  /\ (forall parsing st ok st',
        joinWorkers aTable parsing st = Done ok st' ->
        ok = match m_errors st' with [] => true | _ => false end)
  /\ (forall aNickname aProgressReporter loading parsing st,
        table_caught aTable ->
        m_threads st = 0%nat ->
        DEFAULT_THREADS <> 0%nat ->
        Z.of_nat (length (libraries_to_load aTable aNickname)) < 2 ^ 31 ->
        (length (libraries_to_load aTable aNickname)
         < finished_at_first_look loading)%nat ->
        (length (libraries_to_load aTable aNickname)
         < finished_at_first_look parsing)%nat ->
        GenerateTimestamp aTable aNickname <> m_list_timestamp st ->
        exists ok st' more,
          ReadFootprintFiles aTable aNickname aProgressReporter
            loading parsing st = Done ok st'
          /\ m_cancelled st' = false
          /\ m_list_timestamp st' = GenerateTimestamp aTable aNickname
          /\ m_errors st'
             = List.flat_map (fetch_errors aTable)
                 (libraries_to_load aTable aNickname) ++ more
          /\ ok = match m_errors st' with [] => true | _ => false end).
Proof.
  split_and!.
  - intros aFunc st st'. unfold CatchErrors. split_and!.
    + by intros ->.
    + by intros ioe ->.
    + by intros what ->.
  - intros st Hc Hok.
    destruct (loader_rounds_all aTable (m_queue_in st) st
                (S (length (m_queue_in st))) eq_refl Hc Hok ltac:(lia))
      as (st' & Hrun & Hin & Hout & Herr & Hcnt & _).
    exists st'. split_and!; done.
  - intros. by eapply ReadFootprintFiles_result.
  - intros. by eapply joinWorkers_result.
  - intros. by apply load_completes.
Qed.

(** C10. When the timestamp generated from the table equals the stored one,
    [ReadFootprintFiles] returns true at once, whatever the other threads
    would do: the whole state of the list, and so the footprint list, the
    list of errors and the stored timestamp, is as before, and no worker
    has been started. *)
Theorem C10_same_timestamp_returns_at_once (aTable : FP_LIB_TABLE)
    (aNickname : option wxString) (aProgressReporter : bool)
    (loading parsing : SCHEDULE) (st : FOOTPRINT_LIST_IMPL) :
  GenerateTimestamp aTable aNickname = m_list_timestamp st ->
  ReadFootprintFiles aTable aNickname aProgressReporter loading parsing st
    = Done true st.
Proof.
  intros Heq. unfold ReadFootprintFiles. by rewrite Heq, Z.eqb_refl.
Qed.

End FootprintProperties.

(** *** The footprint list on concrete inputs *)

(** A list of three entries; the description of the second cannot be
    unescaped by the stand-in collaborators. *)
Example cache_round_trip_stops_at_throw :
  let st := set_list
              [ FOOTPRINT_INFO_IMPL "lib" "fp" "a resistor" "res smd" 3 4 2;
                FOOTPRINT_INFO_IMPL "lib2" "fp2" "{" "kw2" 1 8 8;
                FOOTPRINT_INFO_IMPL "lib3" "fp3" "d3" "kw3" 1 8 8 ]
              (set_list_timestamp 77 FOOTPRINT_LIST_IMPL_new) in
  wxTextFile_Open (WriteCacheToFile (X := sample_externals) true true st)
  = Some [ "77"; "lib"; "fp"; "a resistor"; "res smd"; "3"; "4"; "2";
           "lib2"; "fp2"; "{"; "kw2"; "1"; "8"; "8";
           "lib3"; "fp3"; "d3"; "kw3"; "1"; "8"; "8" ]
  /\ (let st' := ReadCacheFromFile (X := sample_externals)
                   (wxTextFile_Open
                      (WriteCacheToFile (X := sample_externals) true true
                         st))
                   FOOTPRINT_LIST_IMPL_new in
      m_list st' = [ FOOTPRINT_INFO_IMPL "lib" "fp" "a resistor" "res smd"
                       3 4 2 ]
      /\ m_list_timestamp st' = 0).
Proof. repeat split; reflexivity. Qed.

(** A file that ends one line short of its last entry: the loop still
    takes the entry, and its last field is read from the dummy line. *)
Example cache_one_line_short :
  let st' := ReadCacheFromFile (X := sample_externals)
               (Some ["12"; "lib"; "fp"; "doc"; "kw"; "1"; "2"])
               FOOTPRINT_LIST_IMPL_new in
  m_list st' = [ FOOTPRINT_INFO_IMPL "lib" "fp" "doc" "kw" 1 2 0 ]
  /\ m_list_timestamp st' = 12.
Proof. split; reflexivity. Qed.

Example cache_too_short :
  let st' := ReadCacheFromFile (X := sample_externals)
               (Some ["12"; "lib"; "fp"; "doc"; "kw"; "1"])
               FOOTPRINT_LIST_IMPL_new in
  m_list st' = [] /\ m_list_timestamp st' = 0.
Proof. split; reflexivity. Qed.

(** A load that is not cancelled: the library that cannot be read leaves an
    error, the others are loaded, the timestamp is stored and the result
    is false. *)
Example load_with_one_broken_library :
  match ReadFootprintFiles (X := sample_externals) sample_table None true
          (loading_schedule true) parsing_schedule FOOTPRINT_LIST_IMPL_new
  with
  | Done ok st' =>
      ok = false
      /\ m_errors st' = [ {| Problem := "cannot read Broken" |} ]
      /\ List.map m_fpname (m_list st') = ["J1"; "R_0402"; "R_0603"]
      /\ m_list_timestamp st' = 1700
      /\ m_cancelled st' = false
  | _ => False
  end.
Proof. vm_compute. repeat split; reflexivity. Qed.

(** The same load when the threads have finished at the first look: no
    round of waiting is taken, and the outcome is the same. *)
Example load_with_prompt_threads :
  match ReadFootprintFiles (X := sample_externals) sample_table None true
          prompt_schedule prompt_schedule FOOTPRINT_LIST_IMPL_new
  with
  | Done ok st' =>
      ok = false
      /\ m_errors st' = [ {| Problem := "cannot read Broken" |} ]
      /\ List.map m_fpname (m_list st') = ["J1"; "R_0402"; "R_0603"]
      /\ m_list_timestamp st' = 1700
  | _ => False
  end.
Proof. vm_compute. repeat split; reflexivity. Qed.

Lemma C6_cache_invalidation_witness :
  @None (list wxString) = None
  /\ m_list (ReadCacheFromFile (X := sample_externals) None
               FOOTPRINT_LIST_IMPL_new) = []
  /\ m_list_timestamp (ReadCacheFromFile (X := sample_externals) None
                         FOOTPRINT_LIST_IMPL_new) = 0.
Proof.
  split; [reflexivity|].
  exact (proj1 (proj2 (C6_cache_invalidation (X := sample_externals) None
                         FOOTPRINT_LIST_IMPL_new)) eq_refl).
Defined.

(** An entry whose name holds an end of line: the file written has nine
    lines, not eight, and is read back as another entry, under the
    timestamp that was written. *)
Lemma C7_name_with_end_of_line :
  let st := set_list
              [ FOOTPRINT_INFO_IMPL "lib" (String.append "a" (String LF "b"))
                  "doc" "kw" 3 4 2 ]
              (set_list_timestamp 77 FOOTPRINT_LIST_IMPL_new) in
  let lines := wxTextFile_Open
                 (WriteCacheToFile (X := sample_externals) true true st) in
  let read := ReadCacheFromFile (X := sample_externals) lines
                FOOTPRINT_LIST_IMPL_new in
  lines = Some ["77"; "lib"; "a"; "b"; "doc"; "kw"; "3"; "4"; "2"]
  /\ option_map (@length wxString) lines
     <> Some (1 + 7 * length (m_list st))%nat
  /\ m_list read = [ FOOTPRINT_INFO_IMPL "lib" "a" "b" "doc" 0 3 4 ]
  /\ m_list read <> reread_all (X := sample_externals) (m_list st)
  /\ m_list_timestamp read = 77.
Proof. vm_compute. repeat split; discriminate. Qed.

Lemma C7_cache_file_layout_witness :
  let st := set_list
              [ FOOTPRINT_INFO_IMPL "lib" "fp" "a resistor" "res smd" 3 4 2 ]
              (set_list_timestamp 77 FOOTPRINT_LIST_IMPL_new) in
  Forall (fun s => line_safe s = true)
    (cache_lines (X := sample_externals) st)
  /\ wxTextFile_Open
       (WriteCacheToFile (X := sample_externals) true true st)
     = Some ["77"; "lib"; "fp"; "a resistor"; "res smd"; "3"; "4"; "2"]
  /\ m_list (ReadCacheFromFile (X := sample_externals)
               (wxTextFile_Open
                  (WriteCacheToFile (X := sample_externals) true true st))
               FOOTPRINT_LIST_IMPL_new)
     = m_list st.
Proof.
  intros st.
  assert (H0 : Forall (fun s => line_safe s = true)
                 (cache_lines (X := sample_externals) st)).
  { repeat constructor. }
  split; [exact H0|].
  pose proof (C7_cache_file_layout (X := sample_externals) st
                FOOTPRINT_LIST_IMPL_new H0) as (H1 & _ & _ & _ & H5).
  split; [exact H1|exact H5].
Defined.


Lemma sample_table_caught : table_caught sample_table.
Proof.
  split_and!; intros; simpl;
    repeat match goal with
           | |- context [String.eqb ?a ?b] => destruct (String.eqb a b)
           end; discriminate.
Qed.


Lemma C9_library_failures_are_collected_witness :
  let st := set_queue_in (GetLogicalLibs sample_table)
              FOOTPRINT_LIST_IMPL_new in
  m_cancelled st = false
  /\ Forall (fetch_caught sample_table) (m_queue_in st)
  /\ exists st',
       loader_job (X := sample_externals) sample_table st = (Returns tt, st')
       /\ m_queue_in st' = []
       /\ m_queue_out st' = ["Resistor_SMD"; "Connector"]
       /\ m_errors st' = [ {| Problem := "cannot read Broken" |} ]
       /\ (m_queue_in st <> [] -> m_count_finished st' = 3).
Proof.
  intros st.
  assert (Hc : m_cancelled st = false) by reflexivity.
  assert (Hok : Forall (fetch_caught sample_table) (m_queue_in st)).
  { repeat constructor; unfold fetch_caught; simpl; discriminate. }
  split; [exact Hc|]. split; [exact Hok|].
  exact (proj1 (proj2 (C9_library_failures_are_collected
                         (X := sample_externals) sample_table)) st Hc Hok).
Defined.

Lemma C10_same_timestamp_returns_at_once_witness :
  let st := set_list_timestamp 1700 FOOTPRINT_LIST_IMPL_new in
  GenerateTimestamp sample_table None = m_list_timestamp st
  /\ ReadFootprintFiles (X := sample_externals) sample_table None true
       (loading_schedule true) parsing_schedule st
     = Done true st.
Proof.
  intros st. split; [reflexivity|].
  exact (C10_same_timestamp_returns_at_once (X := sample_externals)
           sample_table None true (loading_schedule true) parsing_schedule
           st eq_refl).
Defined.

(* ===================================================================== *)
(** * Part III: further properties of the code                            *)
(* ===================================================================== *)

(** ** The operators of [CHANGE_TYPE] and [StageItems] *)

Lemma is_int_shiftr (z : Z) :
  is_int z <-> (Z.shiftr z 31 = 0 \/ Z.shiftr z 31 = -1).
Proof.
  unfold is_int. rewrite Z.shiftr_div_pow2 by lia.
  pose proof (Z.div_mod z (2 ^ 31) ltac:(lia)).
  pose proof (Z.mod_pos_bound z (2 ^ 31) ltac:(lia)).
  lia.
Qed.

Lemma to_int_is_int (z : Z) : is_int (to_int z).
Proof.
  unfold is_int, to_int.
  pose proof (Z.mod_pos_bound (z + 2 ^ 31) (2 ^ 32) ltac:(lia)). lia.
Qed.

Lemma lor_is_int (a b : Z) : is_int a -> is_int b -> is_int (Z.lor a b).
Proof.
  rewrite !is_int_shiftr, Z.shiftr_lor.
  intros [->| ->] [->| ->]; simpl; auto.
Qed.

Lemma land_is_int (a b : Z) : is_int a -> is_int b -> is_int (Z.land a b).
Proof.
  rewrite !is_int_shiftr, Z.shiftr_land.
  intros [->| ->] [->| ->]; simpl; auto.
Qed.

(** X1. The operators [|] and [&] of [CHANGE_TYPE] take operands of any
    integer type and see them through their conversion to [int]; whatever
    the operands, the result is an [int]. They are commutative,
    associative and idempotent, each absorbs the other, and [&]
    distributes over [|]. *)
Theorem operators_wrap_and_form_a_lattice (a b c : Z) :
  (is_int (a .| b) /\ is_int (a .& b))
  /\ (a .| b = to_int a .| to_int b /\ a .& b = to_int a .& to_int b)
  /\ (a .| b = b .| a /\ a .& b = b .& a)
  /\ ((a .| b) .| c = a .| (b .| c) /\ (a .& b) .& c = a .& (b .& c))
  /\ (a .| a = to_int a /\ a .& a = to_int a)
  /\ (a .| (a .& b) = to_int a /\ a .& (a .| b) = to_int a)
  /\ a .& (b .| c) = (a .& b) .| (a .& c).
Proof.
  pose proof (to_int_is_int a) as Ha.
  pose proof (to_int_is_int b) as Hb.
  pose proof (to_int_is_int c) as Hc.
  unfold operator_or, operator_and.
  rewrite !(to_int_id (to_int _)) by done.
  rewrite !(to_int_id (Z.lor _ _)) by by apply lor_is_int.
  rewrite !(to_int_id (Z.land _ _)) by by apply land_is_int.
  split_and!.
  - by apply lor_is_int.
  - by apply land_is_int.
  - done.
  - done.
  - apply Z.lor_comm.
  - apply Z.land_comm.
  - symmetry. apply Z.lor_assoc.
  - symmetry. apply Z.land_assoc.
  - apply Z.lor_diag.
  - apply Z.land_diag.
  - apply Z.bits_inj'; intros n _. rewrite Z.lor_spec, Z.land_spec.
    by destruct (Z.testbit _ n), (Z.testbit _ n).
  - apply Z.bits_inj'; intros n _. rewrite Z.land_spec, Z.lor_spec.
    by destruct (Z.testbit _ n), (Z.testbit _ n).
  - apply Z.land_lor_distr_r.
Qed.

(** X2. The masks [CHT_TYPE] and [CHT_FLAGS] split a change type into its
    kind and its flag: the two parts have no bit in common, together they
    are the four low bits of the type, the kind is below 8 and the flag is
    0 or [CHT_DONE]; and a kind and a flag that are put together with [|]
    are read back with the masks. *)
Theorem kind_and_flag_split (t k f : Z) :
  ((t .& CHT_TYPE) .| (t .& CHT_FLAGS) = t .& 15
   /\ (t .& CHT_TYPE) .& (t .& CHT_FLAGS) = 0
   /\ 0 <= t .& CHT_TYPE < 8
   /\ (t .& CHT_FLAGS = 0 \/ t .& CHT_FLAGS = CHT_DONE))
  /\ (0 <= k < 8 -> f = 0 \/ f = CHT_DONE ->
      (k .| f) .& CHT_TYPE = k /\ (k .| f) .& CHT_FLAGS = f).
Proof.
  split.
  - pose proof (to_int_is_int t) as Ht.
    unfold operator_or, operator_and.
    change (to_int CHT_TYPE) with 7. change (to_int CHT_FLAGS) with 8.
    change (to_int 15) with 15.
    rewrite !(to_int_id (Z.land _ _)) by by apply land_is_int.
    split; [|split; [|split]].
    + rewrite <- Z.land_lor_distr_r. done.
    + apply Z.bits_inj'; intros n Hn. rewrite !Z.land_spec, Z.bits_0.
      change 7 with (Z.ones 3). change 8 with (2 ^ 3).
      rewrite Z.testbit_ones_nonneg, Z.pow2_bits_eqb by lia.
      destruct (Z.ltb_spec n 3), (Z.eqb_spec 3 n); try lia;
        by rewrite ?andb_false_r.
    + change 7 with (Z.ones 3). rewrite Z.land_ones by lia.
      pose proof (Z.mod_pos_bound (to_int t) (2 ^ 3) ltac:(lia)). lia.
    + apply land_bit3.
  - intros Hk Hf.
    assert (Hk' : k = 0 \/ k = 1 \/ k = 2 \/ k = 3 \/ k = 4 \/ k = 5
                  \/ k = 6 \/ k = 7) by lia.
    destruct Hf as [->| ->];
      repeat (destruct Hk' as [->|Hk']); try subst k; by vm_compute.
Qed.

Section CommitFurther.
Context `{B : BINDING}.

(** X3. [StageItems], whatever implements the virtual [Stage]: an empty
    range leaves the engine as it is, a range of one item is one call of
    [Stage], and a range in two parts is staged part after part. Each
    item is staged once and in the order of the range, as the calls
    recorded by [logging_Stage] show. What every call of [Stage] keeps,
    [StageItems] keeps. *)
Theorem StageItems_composes
    (Stage' : COMMIT -> EDA_ITEM_ptr -> CHANGE_TYPE -> COMMIT)
    (c : COMMIT) (aChangeType : CHANGE_TYPE) :
  StageItems_with Stage' c [] aChangeType = c
  /\ (forall item, StageItems_with Stage' c [item] aChangeType
                   = Stage' c item aChangeType)
  /\ (forall r1 r2,
        StageItems_with Stage' c (r1 ++ r2) aChangeType
        = StageItems_with Stage' (StageItems_with Stage' c r1 aChangeType)
            r2 aChangeType)
  /\ (forall aRange,
        m_changes (StageItems_with logging_Stage c aRange aChangeType)
        = m_changes c
          ++ List.map (fun item => {| m_item := item; m_copy := None;
                                      m_type := aChangeType |}) aRange)
  /\ (forall P : COMMIT -> Prop,
        (forall c' item, P c' -> P (Stage' c' item aChangeType)) ->
        P c -> forall aRange, P (StageItems_with Stage' c aRange aChangeType)).
Proof.
  unfold StageItems_with. split_and!; try done.
  - intros. apply fold_left_app.
  - intros aRange. revert c.
    induction aRange as [|item l IH]; intros c; simpl.
    + by rewrite app_nil_r.
    + rewrite IH. simpl. by rewrite <- app_assoc.
  - intros P HP Hc aRange. revert c Hc.
    induction aRange as [|item l IH]; intros c Hc; simpl; auto.
Qed.

End CommitFurther.

Lemma kind_and_flag_split_witness :
  0 <= CHT_REMOVE < 8
  /\ (CHT_DONE = 0 \/ CHT_DONE = CHT_DONE)
  /\ (CHT_REMOVE .| CHT_DONE) .& CHT_TYPE = CHT_REMOVE
  /\ (CHT_REMOVE .| CHT_DONE) .& CHT_FLAGS = CHT_DONE.
Proof.
  assert (Hk : 0 <= CHT_REMOVE < 8) by (unfold CHT_REMOVE; lia).
  assert (Hf : CHT_DONE = 0 \/ CHT_DONE = CHT_DONE) by (right; reflexivity).
  split; [exact Hk|]. split; [exact Hf|].
  exact (proj2 (kind_and_flag_split 0 CHT_REMOVE CHT_DONE) Hk Hf).
Defined.

Lemma StageItems_composes_witness :
  let holds_a_record := fun c : @COMMIT sample_binding => Empty c = false in
  let c := logging_Stage (B := sample_binding) COMMIT_new 1%N CHT_ADD in
  (forall c' item, holds_a_record c' ->
                   holds_a_record (logging_Stage c' item CHT_REMOVE))
  /\ holds_a_record c
  /\ holds_a_record (StageItems_with logging_Stage c [2%N; 3%N] CHT_REMOVE).
Proof.
  intros holds_a_record c.
  assert (H1 : forall c' item, holds_a_record c' ->
                 holds_a_record (logging_Stage c' item CHT_REMOVE)).
  { intros c' item _. unfold holds_a_record, Empty, logging_Stage. simpl.
    destruct (m_changes c'); reflexivity. }
  assert (H2 : holds_a_record c) by reflexivity.
  split; [exact H1|]. split; [exact H2|].
  exact (proj2 (proj2 (proj2 (proj2
           (StageItems_composes (B := sample_binding) logging_Stage c
              CHT_REMOVE)))) holds_a_record H1 H2 [2%N; 3%N]).
Defined.

(** ** The footprint list *)

Section FootprintFurther.
Context `{X : EXTERNALS}.

(** *** What the waiting loop keeps *)

Section Invariant.
Variable P : FOOTPRINT_LIST_IMPL -> Prop.

(** The waiting loop keeps what the threads keep and what a request to
    cancel, made with a reporter, keeps; and it ends when it has no more to
    wait for. *)
Lemma wait_for_inv (advance : nat -> THROWING unit)
    (waiting : FOOTPRINT_LIST_IMPL -> bool) :
  (forall jobs st u st', advance jobs st = (Returns u, st') -> P st -> P st') ->
  (forall st, P st -> m_progress_reporter st = true ->
              P (set_cancelled true st)) ->
  forall rs st u st',
    wait_for advance waiting rs st = Done u st' ->
    P st -> P st' /\ waiting st' = false.
Proof.
  intros Hadv Hcan. induction rs as [|r rs IH]; intros st u st'; simpl.
  - destruct (waiting st) eqn:Hw; [intros [=]|]. by intros [= <- <-].
  - destruct (waiting st) eqn:Hw; [|by intros [= <- <-]].
    destruct (advance (finished_meanwhile r) st) as [[v|e] st1] eqn:E;
      [|intros [=]].
    intros H HP. eapply IH; [exact H|].
    pose proof (Hadv _ _ _ _ E HP) as HP1.
    destruct (m_progress_reporter st1) eqn:Hrep; simpl; [|done].
    destruct (KeepRefreshing r); simpl; [done|]. by apply Hcan.
Qed.

End Invariant.

(** *** What a parsing thread keeps *)

Lemma parse_round_keeps (aTable : FP_LIB_TABLE) (st : FOOTPRINT_LIST_IMPL)
    (r : outcome bool) (st' : FOOTPRINT_LIST_IMPL) :
  parse_round aTable st = (r, st') -> parsers_keep st st'.
Proof.
  unfold parse_round.
  destruct (m_queue_out st) as [|nickname rest] eqn:Hq.
  { intros [= _ <-]. apply parsers_keep_refl. }
  assert (K0 : parsers_keep st (set_queue_out rest st)).
  { unfold parsers_keep; simpl; split_and!; try done.
    exists []. by rewrite app_nil_r. }
  cbn [m_cancelled set_queue_out].
  destruct (m_cancelled st); [by intros [= _ <-]|].
  destruct (FootprintEnumerate aTable nickname) as [fpnames thrown].
  set (s0 := set_queue_out rest st) in *.
  destruct (match thrown with
            | Some e => catch_clauses e s0
            | None => (Returns (), s0)
            end) as [[u|e'] s1] eqn:E1.
  - assert (K1 : inner_keep s0 s1).
    { destruct thrown as [e|].
      - by apply catch_clauses_keeps in E1.
      - injection E1 as _ <-. apply inner_keep_refl. }
    destruct K1 as (K1 & _).
    destruct (parse_names aTable nickname fpnames s1) as [[u2|e2] s2] eqn:E2;
      apply parse_names_keeps in E2 as (K2 & _); intros [= _ <-].
    + eapply parsers_keep_trans; [exact K0|].
      eapply parsers_keep_trans; [exact K1|].
      eapply parsers_keep_trans; [exact K2|].
      unfold parsers_keep; simpl; split_and!; try done.
      exists []. by rewrite app_nil_r.
    + eapply parsers_keep_trans; [exact K0|].
      by eapply parsers_keep_trans.
  - intros [= _ <-]. destruct thrown as [e|]; [|done].
    apply catch_clauses_keeps in E1 as (K1 & _).
    eapply parsers_keep_trans; [exact K0|exact K1].
Qed.

Lemma parse_job_keeps (aTable : FP_LIB_TABLE) (st : FOOTPRINT_LIST_IMPL)
    (r : outcome unit) (st' : FOOTPRINT_LIST_IMPL) :
  parse_job aTable st = (r, st') -> parsers_keep st st'.
Proof.
  apply (loop_rounds_preserves parsers_keep parsers_keep_refl
           parsers_keep_trans).
  apply parse_round_keeps.
Qed.

Lemma join_parsers_keeps (aTable : FP_LIB_TABLE) (threads : nat)
    (st : FOOTPRINT_LIST_IMPL) (r : outcome unit) (st' : FOOTPRINT_LIST_IMPL) :
  join_threads (parse_job aTable) threads st = (r, st') ->
  parsers_keep st st'.
Proof.
  apply (join_threads_preserves parsers_keep parsers_keep_refl
           parsers_keep_trans).
  apply parse_job_keeps.
Qed.

(** *** Exceptions that leave a thread *)

Lemma CatchErrors_throws (aFunc : THROWING unit) (st : FOOTPRINT_LIST_IMPL)
    (e : exception) (st' : FOOTPRINT_LIST_IMPL) :
  CatchErrors aFunc st = (Throws e, st') ->
  e = throw_other /\ aFunc st = (Throws throw_other, st').
Proof.
  unfold CatchErrors.
  destruct (aFunc st) as [[u|[ioe|what|]] s1]; simpl; intros [= <- <-]; done.
Qed.

Lemma catch_clauses_throws (e e' : exception) (st st' : FOOTPRINT_LIST_IMPL) :
  catch_clauses e st = (Throws e', st') -> e = throw_other /\ e' = throw_other.
Proof. destruct e as [ioe|what|]; simpl; intros [= <- <-]; done. Qed.

Lemma loop_rounds_throws (round : THROWING bool) (Q : exception -> Prop) :
  (forall st e st', round st = (Throws e, st') -> Q e) ->
  forall fuel st e st', loop_rounds round fuel st = (Throws e, st') -> Q e.
Proof.
  intros Hround. induction fuel as [|fuel IH]; intros st e st'; simpl.
  - intros [=].
  - destruct (round st) as [[[|]|e1] s1] eqn:E.
    + apply IH.
    + intros [=].
    + intros [= <- <-]. by eapply Hround.
Qed.

Lemma loader_job_round_throws (aTable : FP_LIB_TABLE)
    (st : FOOTPRINT_LIST_IMPL) (e : exception) (st' : FOOTPRINT_LIST_IMPL) :
  loader_job_round aTable st = (Throws e, st') ->
  e = throw_other
  /\ exists nickname, PrefetchLib aTable nickname = Throws throw_other.
Proof.
  unfold loader_job_round.
  destruct (m_queue_in st) as [|nickname rest]; [intros [=]|].
  cbn [m_cancelled set_queue_in]. destruct (m_cancelled st); [intros [=]|].
  destruct (CatchErrors _ _) as [[b|e1] s1] eqn:E; intros [= <- <-].
  apply CatchErrors_throws in E as [-> E]. split; [done|].
  exists nickname. revert E. unfold prefetch.
  by destruct (PrefetchLib aTable nickname) as [u|e2]; intros [= ->].
Qed.

Lemma parse_names_throws (aTable : FP_LIB_TABLE) (nickname : wxString)
    (fpnames : list wxString) : forall st e st',
  parse_names aTable nickname fpnames st = (Throws e, st') ->
  e = throw_other
  /\ exists fpname,
       new_FOOTPRINT_INFO_IMPL aTable nickname fpname = Throws throw_other.
Proof.
  induction fpnames as [|fpname more IH]; intros st e st'; simpl.
  - intros [=].
  - destruct (m_cancelled st); [intros [=]|].
    destruct (new_FOOTPRINT_INFO_IMPL aTable nickname fpname)
      as [fpinfo|e1] eqn:En.
    + apply IH.
    + destruct (catch_clauses e1 st) as [[u|e2] s1] eqn:E.
      * apply IH.
      * intros [= <- <-]. apply catch_clauses_throws in E as [-> ->].
        split; [done|]. by exists fpname.
Qed.

Lemma parse_round_throws (aTable : FP_LIB_TABLE)
    (st : FOOTPRINT_LIST_IMPL) (e : exception) (st' : FOOTPRINT_LIST_IMPL) :
  parse_round aTable st = (Throws e, st') ->
  e = throw_other
  /\ ((exists nickname,
         snd (FootprintEnumerate aTable nickname) = Some throw_other)
      \/ exists nickname fpname,
           new_FOOTPRINT_INFO_IMPL aTable nickname fpname
           = Throws throw_other).
Proof.
  unfold parse_round.
  destruct (m_queue_out st) as [|nickname rest]; [intros [=]|].
  cbn [m_cancelled set_queue_out]. destruct (m_cancelled st); [intros [=]|].
  destruct (FootprintEnumerate aTable nickname) as [fpnames thrown] eqn:HE.
  destruct (match thrown with
            | Some e => catch_clauses e _
            | None => _
            end) as [[u|e1] s1] eqn:E1.
  - destruct (parse_names aTable nickname fpnames s1) as [[u2|e2] s2] eqn:E2;
      intros [= <- <-].
    apply parse_names_throws in E2 as [-> [fpname H]].
    split; [done|]. right. by exists nickname, fpname.
  - intros [= <- <-]. destruct thrown as [e0|]; [|done].
    apply catch_clauses_throws in E1 as [-> ->].
    split; [done|]. left. exists nickname. by rewrite HE.
Qed.

(** *** Loads that do not end in [std::terminate] *)

Lemma wait_for_quiet (advance : nat -> THROWING unit)
    (waiting : FOOTPRINT_LIST_IMPL -> bool) :
  (forall jobs, quiet (advance jobs)) ->
  forall rs st, wait_for advance waiting rs st <> Terminated.
Proof.
  intros Hq. induction rs as [|r rs IH]; intros st; simpl.
  - by destruct (waiting st).
  - destruct (waiting st); [|done].
    destruct (Hq (finished_meanwhile r) st) as (a & st1 & -> & _).
    apply IH.
Qed.

Lemma joinWorkers_quiet (aTable : FP_LIB_TABLE) (parsing : SCHEDULE)
    (st : FOOTPRINT_LIST_IMPL) :
  table_caught aTable -> joinWorkers aTable parsing st <> Terminated.
Proof.
  intros Hc. unfold joinWorkers.
  destruct (quiet_join_threads (loader_job aTable) (m_threads st)
              (quiet_loader_job aTable Hc) st) as ([] & s1 & -> & _).
  match goal with
  | |- context [pool_advance ?r ?k ?s] =>
      destruct (quiet_pool_advance r k (quiet_parse_round aTable Hc) s)
        as ([] & s2 & -> & _)
  end.
  match goal with
  | |- context [wait_for ?adv ?w ?rs ?s] =>
      pose proof (wait_for_quiet adv w
                    (fun jobs =>
                       quiet_pool_advance _ jobs (quiet_parse_round aTable Hc))
                    rs s) as Hw;
      destruct (wait_for adv w rs s) as [u3 s3| |]; [|done..]
  end.
  match goal with
  | |- context [join_threads ?j ?n ?s] =>
      destruct (quiet_join_threads j n (quiet_parse_job aTable Hc) s)
        as ([] & s4 & -> & _)
  end.
  done.
Qed.

Lemma load_quiet (aTable : FP_LIB_TABLE) (aNickname : option wxString)
    (aProgressReporter : bool) (loading parsing : SCHEDULE)
    (st : FOOTPRINT_LIST_IMPL) :
  table_caught aTable ->
  m_threads st = 0%nat ->
  ReadFootprintFiles aTable aNickname aProgressReporter loading parsing st
  <> Terminated.
Proof.
  intros Hc Hth. unfold ReadFootprintFiles.
  destruct (_ =? _); [done|].
  unfold startWorkers. cbn [m_threads set_cancelled set_progress_reporter].
  rewrite Hth. cbn [Nat.ltb Nat.leb].
  match goal with
  | |- context [loaders_advance ?t ?k ?s] =>
      destruct (quiet_loaders_advance t k Hc s) as ([] & s1 & -> & _)
  end.
  match goal with
  | |- context [wait_for ?adv ?w ?rs ?s] =>
      pose proof (wait_for_quiet adv w
                    (fun jobs => quiet_loaders_advance aTable jobs Hc)
                    rs s) as Hw;
      destruct (wait_for adv w rs s) as [u2 s2| |]; [|done..]
  end.
  destruct (m_cancelled s2).
  - destruct (stopWorkers_ends aTable s2 Hc) as (s3 & ->). done.
  - pose proof (joinWorkers_quiet aTable parsing s2 Hc) as Hj.
    destruct (joinWorkers aTable parsing s2) as [ok3 s3| |]; done.
Qed.

(** *** What a load leaves behind *)

Lemma loaders_advance_keeps (aTable : FP_LIB_TABLE) (jobs : nat)
    (st : FOOTPRINT_LIST_IMPL) (r : outcome unit)
    (st' : FOOTPRINT_LIST_IMPL) :
  loaders_advance aTable jobs st = (r, st') -> loaders_keep st st'.
Proof.
  unfold loaders_advance. destruct (m_threads st =? 0)%nat.
  - intros [= _ <-]. apply loaders_keep_refl.
  - apply loader_rounds_keep.
Qed.

Lemma parse_rounds_keep (aTable : FP_LIB_TABLE) (fuel : nat)
    (st : FOOTPRINT_LIST_IMPL) (r : outcome unit)
    (st' : FOOTPRINT_LIST_IMPL) :
  loop_rounds (parse_round aTable) fuel st = (r, st') -> parsers_keep st st'.
Proof.
  apply (loop_rounds_preserves parsers_keep parsers_keep_refl
           parsers_keep_trans).
  apply parse_round_keeps.
Qed.

(** [joinWorkers] and [stopWorkers] return with no thread held and the
    input queue empty; the flag is set by nobody but the reporter. *)
Lemma joinWorkers_leaves (aTable : FP_LIB_TABLE) (parsing : SCHEDULE)
    (st : FOOTPRINT_LIST_IMPL) (ok : bool) (st' : FOOTPRINT_LIST_IMPL) :
  joinWorkers aTable parsing st = Done ok st' ->
  m_threads st' = 0%nat
  /\ m_queue_in st' = []
  /\ queue_parsed st' = []
  /\ m_progress_reporter st' = m_progress_reporter st
  /\ m_list_timestamp st' = m_list_timestamp st
  /\ (m_cancelled st = true -> m_cancelled st' = true)
  /\ (m_progress_reporter st = false -> m_cancelled st' = m_cancelled st).
Proof.
  unfold joinWorkers.
  destruct (join_threads _ _ st) as [[u0|e0] s0] eqn:E0; [|intros [=]].
  apply join_loaders_keeps in E0 as (_ & Hc0 & Hts0 & _ & _ & _ & Hr0 & _).
  set (P := fun s => m_threads s = 0%nat /\ m_queue_in s = []
                     /\ m_progress_reporter s = m_progress_reporter st
                     /\ m_list_timestamp s = m_list_timestamp st
                     /\ (m_cancelled st = true -> m_cancelled s = true)
                     /\ (m_progress_reporter st = false ->
                         m_cancelled s = m_cancelled st)).
  assert (Hkeep : forall sa sb, parsers_keep sa sb -> P sa -> P sb).
  { intros sa sb (_ & K1 & K2 & _ & K3 & K4 & K5) (?&?&?&?&?&?).
    unfold P. rewrite K1, K2, K3, K4, K5. done. }
  destruct (pool_advance _ _ _) as [[u1|e1] s1] eqn:E1; [|intros [=]].
  apply parse_rounds_keep in E1.
  assert (H1 : P s1).
  { apply (Hkeep _ _ E1). unfold P. simpl. rewrite Hc0, Hts0, Hr0. done. }
  destruct (wait_for _ _ _ s1) as [u2 s2| |] eqn:E2; [|intros [=]..].
  apply (wait_for_inv P) in E2 as [H2 _]; [| | |done].
  2:{ intros jobs sa ua sb Hadv. apply Hkeep.
      by apply parse_rounds_keep in Hadv. }
  2:{ intros sa (?&?&Hr&?&?&?) Hrep. unfold P. simpl.
      split_and!; try done. intros Hno. congruence. }
  destruct (join_threads _ _ s2) as [[u3|e3] s3] eqn:E3; [|intros [=]].
  apply join_parsers_keeps in E3. apply (Hkeep _ _ E3) in H2.
  intros [= <- <-]. destruct H2 as (?&?&?&?&?&?). simpl. done.
Qed.

Lemma stopWorkers_leaves (aTable : FP_LIB_TABLE) (st : FOOTPRINT_LIST_IMPL)
    (u : unit) (st' : FOOTPRINT_LIST_IMPL) :
  stopWorkers aTable st = Done u st' ->
  m_threads st' = 0%nat
  /\ m_queue_in st' = []
  /\ m_count_finished st' = 0
  /\ m_progress_reporter st' = m_progress_reporter st
  /\ m_list st' = m_list st.
Proof.
  unfold stopWorkers.
  destruct (join_threads _ _ st) as [[v|e] s] eqn:E; [|intros [=]].
  apply join_loaders_keeps in E as (_ & _ & _ & Hl & _ & _ & Hr & _).
  cbn [m_cancelled set_count_finished set_queue_in set_threads].
  destruct (m_cancelled s); intros [= <- <-]; simpl; done.
Qed.

Lemma load_leaves (aTable : FP_LIB_TABLE) (aNickname : option wxString)
    (aProgressReporter : bool) (loading parsing : SCHEDULE)
    (st : FOOTPRINT_LIST_IMPL) (ok : bool) (st' : FOOTPRINT_LIST_IMPL) :
  GenerateTimestamp aTable aNickname <> m_list_timestamp st ->
  ReadFootprintFiles aTable aNickname aProgressReporter loading parsing st
    = Done ok st' ->
  m_threads st = 0%nat
  /\ m_threads st' = 0%nat
  /\ m_queue_in st' = []
  /\ m_progress_reporter st' = aProgressReporter
  /\ (aProgressReporter = false -> m_cancelled st' = false).
Proof.
  intros Hne. unfold ReadFootprintFiles.
  destruct (Z.eqb_spec (GenerateTimestamp aTable aNickname)
                       (m_list_timestamp st)) as [|_]; [done|].
  unfold startWorkers. cbn [m_threads set_cancelled set_progress_reporter].
  destruct (Nat.ltb_spec 0 (m_threads st)) as [|Hth]; [intros [=]|].
  match goal with
  | |- context [loaders_advance _ _ ?s] => set (s0 := s)
  end.
  set (P := fun s => m_progress_reporter s = aProgressReporter
                     /\ (aProgressReporter = false -> m_cancelled s = false)).
  assert (Hkeep : forall sa sb, loaders_keep sa sb -> P sa -> P sb).
  { intros sa sb (_ & K1 & _ & _ & _ & _ & K2 & _) (?&?).
    unfold P. rewrite K1, K2. done. }
  assert (H0 : P s0) by (subst s0; unfold P; by destruct aNickname).
  destruct (loaders_advance _ _ s0) as [[u1|e1] s1] eqn:E1; [|intros [=]].
  apply loaders_advance_keeps in E1. apply (Hkeep _ _ E1) in H0.
  destruct (wait_for _ _ _ s1) as [u2 s2| |] eqn:E2; [|intros [=]..].
  apply (wait_for_inv P) in E2 as [(Hr2 & Hc2) _]; [| | |done].
  2:{ intros jobs sa ua sb Hadv. apply Hkeep.
      by apply loaders_advance_keeps in Hadv. }
  2:{ intros sa (Hr & ?) Hrep. unfold P. simpl. split; [done|].
      intros ->. congruence. }
  destruct (m_cancelled s2) eqn:Hcan2.
  - destruct (stopWorkers aTable s2) as [u3 s3| |] eqn:E3; [|intros [=]..].
    pose proof (stopWorkers_resets _ _ _ _ E3) as (Hc3 & _).
    apply stopWorkers_leaves in E3 as (?&?&?&?&?).
    rewrite Hc3, Hcan2. intros [= <- <-]. simpl.
    split_and!; try done; try lia; try congruence.
    intros Hno. specialize (Hc2 Hno). congruence.
  - destruct (joinWorkers aTable parsing s2) as [ok3 s3| |] eqn:E3;
      [|intros [=]..].
    apply joinWorkers_leaves in E3 as (?&?&?&Hr3&?&?&Hno3).
    cbn [forget]. intros [= <- <-].
    assert (m_progress_reporter
              (if m_cancelled s3 then set_list_timestamp 0 s3
               else set_list_timestamp
                      (GenerateTimestamp aTable aNickname) s3)
            = m_progress_reporter s3) as Hrep by by destruct (m_cancelled s3).
    destruct (m_cancelled s3) eqn:Hcan3; simpl;
      split_and!; try done; try lia; try congruence.
    intros Hno. rewrite Hno in Hr2. specialize (Hno3 Hr2). congruence.
Qed.

(** A call that ends with the flag clear has stored the timestamp that it
    generated. *)
Lemma load_stores_timestamp (aTable : FP_LIB_TABLE)
    (aNickname : option wxString) (aProgressReporter : bool)
    (loading parsing : SCHEDULE) (st : FOOTPRINT_LIST_IMPL) (ok : bool)
    (st' : FOOTPRINT_LIST_IMPL) :
  ReadFootprintFiles aTable aNickname aProgressReporter loading parsing st
    = Done ok st' ->
  m_cancelled st' = false ->
  m_list_timestamp st' = GenerateTimestamp aTable aNickname.
Proof.
  unfold ReadFootprintFiles.
  destruct (Z.eqb_spec (GenerateTimestamp aTable aNickname)
                       (m_list_timestamp st)) as [Heq|Hne].
  - by intros [= _ <-].
  - repeat match goal with
           | |- match ?x with _ => _ end = _ -> _ =>
               destruct x; try discriminate
           end;
      intros [= _ <-];
      match goal with
      | |- context [if m_cancelled ?s then _ else _] =>
          destruct (m_cancelled s) eqn:?
      end; simpl; congruence.
Qed.

(** *** Stopping the workers *)

(** A loader thread that finds the flag set takes one nickname off the
    queue, if there is one, and leaves. *)
Lemma loader_job_cancelled (aTable : FP_LIB_TABLE)
    (st : FOOTPRINT_LIST_IMPL) :
  m_cancelled st = true ->
  loader_job aTable st = (Returns tt, set_queue_in (tl (m_queue_in st)) st).
Proof.
  intros Hc. unfold loader_job. cbn [loop_rounds].
  unfold loader_job_round.
  destruct (m_queue_in st) as [|nickname rest] eqn:Hq.
  - simpl. rewrite <- Hq. by destruct st.
  - cbn [m_cancelled set_queue_in tl]. by rewrite Hc.
Qed.

Lemma join_loaders_cancelled (aTable : FP_LIB_TABLE) (threads : nat) :
  forall st, m_cancelled st = true ->
  join_threads (loader_job aTable) threads st
  = (Returns tt,
     set_queue_in (Nat.iter threads (@tl wxString) (m_queue_in st)) st).
Proof.
  induction threads as [|threads IH]; intros st Hc.
  - simpl. by destruct st.
  - cbn [join_threads]. rewrite loader_job_cancelled by done.
    rewrite IH by done. cbn [m_queue_in set_queue_in].
    rewrite Nat.iter_succ_r. done.
Qed.

(** *** Reading any file *)

Lemma GetNextLine_nth (f : wxTextFile) :
  GetNextLine f
  = (line_at (m_aLines f) (S (m_nCurLine f)),
     {| m_aLines := m_aLines f; m_nCurLine := S (m_nCurLine f) |}).
Proof.
  unfold GetNextLine, line_at. f_equal.
  destruct (Nat.eqb_spec (S (m_nCurLine f)) (length (m_aLines f))) as [E|_];
    [|done].
  symmetry. apply nth_overflow. lia.
Qed.

Lemma read_entry_at (lines : list wxString) (i : nat) :
  exists k,
    read_entry {| m_aLines := lines; m_nCurLine := 7 * i |}
    = (entry_at lines i, {| m_aLines := lines; m_nCurLine := k |})
    /\ (forall e, entry_at lines i = Returns e -> k = (7 * S i)%nat).
Proof.
  unfold read_entry, entry_at.
  repeat (rewrite GetNextLine_nth; cbn [m_aLines m_nCurLine]).
  replace (S (7 * i)) with (7 * i + 1)%nat by lia.
  replace (S (7 * i + 1)) with (7 * i + 2)%nat by lia.
  replace (S (7 * i + 2)) with (7 * i + 3)%nat by lia.
  destruct (UnescapeString (line_at lines (7 * i + 3))) as [desc|ex].
  2:{ eexists. split; [reflexivity|discriminate]. }
  repeat (rewrite GetNextLine_nth; cbn [m_aLines m_nCurLine]).
  replace (S (7 * i + 3)) with (7 * i + 4)%nat by lia.
  destruct (UnescapeString (line_at lines (7 * i + 4))) as [kw|ex].
  2:{ eexists. split; [reflexivity|discriminate]. }
  repeat (rewrite GetNextLine_nth; cbn [m_aLines m_nCurLine]).
  replace (S (7 * i + 4)) with (7 * i + 5)%nat by lia.
  replace (S (7 * i + 5)) with (7 * i + 6)%nat by lia.
  replace (S (7 * i + 6)) with (7 * i + 7)%nat by lia.
  eexists. split; [reflexivity|]. intros _ _. lia.
Qed.

Lemma read_entries_take (lines : list wxString) (fuel : nat) :
  forall i st,
  (length lines / 7 - i < fuel)%nat ->
  m_list (snd (snd (read_entries fuel
                      {| m_aLines := lines; m_nCurLine := 7 * i |} st)))
  = m_list st ++ take_entries lines i (length lines / 7 - i).
Proof.
  induction fuel as [|fuel IH]; intros i st Hfuel; [lia|].
  cbn [read_entries]. unfold GetCurrentLine, GetLineCount.
  cbn [m_aLines m_nCurLine].
  destruct (Nat.ltb_spec (7 * i + 6) (length lines)) as [Hlt|Hge].
  - assert (Hi : (length lines / 7 - i = S (length lines / 7 - S i))%nat).
    { pose proof (Nat.div_mod_eq (length lines) 7).
      pose proof (Nat.mod_upper_bound (length lines) 7). lia. }
    rewrite Hi. cbn [take_entries].
    destruct (read_entry_at lines i) as (k & -> & Hk).
    destruct (entry_at lines i) as [e|ex].
    + rewrite (Hk e eq_refl). rewrite IH by lia. simpl.
      by rewrite <- app_assoc.
    + simpl. by rewrite app_nil_r.
  - assert (Hi : (length lines / 7 - i = 0)%nat).
    { pose proof (Nat.div_mod_eq (length lines) 7).
      pose proof (Nat.mod_upper_bound (length lines) 7). lia. }
    rewrite Hi. simpl. by rewrite app_nil_r.
Qed.

Lemma take_entries_length (lines : list wxString) (count : nat) :
  forall i,
  (length (take_entries lines i count) <= count)%nat
  /\ ((forall j, (i <= j < i + count)%nat ->
                 exists e, entry_at lines j = Returns e) ->
      length (take_entries lines i count) = count).
Proof.
  induction count as [|count IH]; intros i; simpl; [done|].
  destruct (IH (S i)) as [IH1 IH2].
  destruct (entry_at lines i) as [e|ex] eqn:E; simpl.
  - split; [lia|]. intros H. rewrite IH2; [done|].
    intros j Hj. apply H. lia.
  - split; [lia|]. intros H. destruct (H i ltac:(lia)) as [e He].
    congruence.
Qed.

Lemma m_list_ReadCacheFromFile (aFile : option (list wxString))
    (st : FOOTPRINT_LIST_IMPL) :
  m_list (ReadCacheFromFile aFile st)
  = m_list (snd (read_cache aFile (set_list [] (set_list_timestamp 0 st)))).
Proof.
  unfold ReadCacheFromFile.
  destruct (read_cache _ _) as [[u|e] s]; simpl;
    by destruct (length (m_list s) =? 0)%nat.
Qed.

(** The loop reads the same entries whatever the list holds. *)
Lemma read_entries_frame (fuel : nat) : forall f,
  exists o f' added, forall st,
    read_entries fuel f st = (o, (f', set_list (m_list st ++ added) st)).
Proof.
  induction fuel as [|fuel IH]; intros f; simpl.
  - exists (Returns tt), f, []. intros st. by rewrite set_list_same.
  - destruct (_ <? _)%nat.
    2:{ exists (Returns tt), f, []. intros st. by rewrite set_list_same. }
    destruct (read_entry f) as [[fpinfo|e] f1].
    + destruct (IH f1) as (o & f' & added & H).
      exists o, f', (fpinfo :: added). intros st. rewrite H.
      change (set_list (m_list (set_list ?l1 st) ++ ?l2) (set_list ?l1 st))
        with (set_list (l1 ++ l2) st).
      by rewrite <- app_assoc.
    + exists (Throws e), f1, []. intros st. by rewrite set_list_same.
Qed.

Lemma ReadCacheFromFile_frame (aFile : option (list wxString)) :
  exists fplist timestamp, forall st,
    ReadCacheFromFile aFile st
    = set_list fplist (set_list_timestamp timestamp st).
Proof.
  unfold ReadCacheFromFile, read_cache.
  destruct aFile as [lines|].
  2:{ exists [], 0. intros st. reflexivity. }
  destruct (GetFirstLine {| m_aLines := lines; m_nCurLine := 0 |})
    as [first cacheFile].
  destruct (read_entries_frame (S (GetLineCount cacheFile)) cacheFile)
    as (o & f' & added & H).
  cbn [m_list_timestamp set_list set_list_timestamp].
  set (ts := snd (ToLongLong first 0)).
  destruct o as [u|e].
  - exists added, (if (length added =? 0)%nat then 0 else ts).
    intros st. rewrite H. simpl. by destruct (length added =? 0)%nat.
  - exists added, 0.
    intros st. rewrite H. simpl. by destruct (length added =? 0)%nat.
Qed.

(** *** Reading a written file: the timestamp *)

Lemma read_entries_written_ok (es : list FOOTPRINT_INFO) :
  forall pre n st fuel,
  S n = length pre -> (length es < fuel)%nat ->
  fst (read_entries fuel
         {| m_aLines := pre ++ List.concat (List.map entry_lines es);
            m_nCurLine := n |} st)
  = match List.find (fun e => match reread e with
                               | Throws _ => true
                               | Returns _ => false
                               end) es with
    | Some e => match reread e with
                | Throws ex => Throws ex
                | Returns _ => Returns tt
                end
    | None => Returns tt
    end.
Proof.
  induction es as [|e es IH]; intros pre n st fuel Hn Hfuel.
  - destruct fuel as [|fuel]; [simpl in Hfuel; lia|].
    simpl. rewrite app_nil_r. unfold GetCurrentLine, GetLineCount. simpl.
    by destruct (Nat.ltb_spec (n + 6) (length pre)); [lia|].
  - destruct fuel as [|fuel]; [simpl in Hfuel; lia|].
    cbn [read_entries List.map List.concat List.find].
    unfold GetCurrentLine, GetLineCount. cbn [m_aLines m_nCurLine].
    destruct (Nat.ltb_spec (n + 6)
      (length (pre ++ entry_lines e
                   ++ List.concat (List.map entry_lines es))))
      as [_|Hge]; [|rewrite !length_app in Hge; simpl in Hge; lia].
    destruct (read_entry_written pre
                (List.concat (List.map entry_lines es)) e n Hn)
      as (k & -> & Hk).
    destruct (reread e) as [e'|ex] eqn:Er.
    + rewrite (Hk e' eq_refl). rewrite app_assoc.
      rewrite IH; [done| |simpl in Hfuel; lia].
      rewrite length_app. simpl. lia.
    + by rewrite Er.
Qed.

Lemma reread_all_ok (es : list FOOTPRINT_INFO) :
  Forall (fun e => exists e', reread e = Returns e') es ->
  length (reread_all es) = length es.
Proof.
  induction 1 as [|e es [e' He] _ IH]; simpl; [done|].
  rewrite He. simpl. by rewrite IH.
Qed.

Lemma find_thrower (es : list FOOTPRINT_INFO) :
  (Forall (fun e => exists e', reread e = Returns e') es ->
   List.find (fun e => match reread e with
                       | Throws _ => true
                       | Returns _ => false
                       end) es = None)
  /\ (Exists (fun e => exists ex, reread e = Throws ex) es ->
      exists e ex,
        List.find (fun e => match reread e with
                            | Throws _ => true
                            | Returns _ => false
                            end) es = Some e
        /\ reread e = Throws ex).
Proof.
  split.
  - induction 1 as [|e es [e' He] _ IH]; simpl; [done|]. by rewrite He.
  - induction 1 as [e es [ex He]|e es _ IH]; simpl.
    + rewrite He. by exists e, ex.
    + destruct (reread e) as [e'|ex] eqn:He; [done|]. by exists e, ex.
Qed.

(** *** Parsing threads that find the flag set *)

Lemma parse_job_cancelled (aTable : FP_LIB_TABLE)
    (st : FOOTPRINT_LIST_IMPL) :
  m_cancelled st = true ->
  parse_job aTable st = (Returns tt, set_queue_out (tl (m_queue_out st)) st).
Proof.
  intros Hc. unfold parse_job. cbn [loop_rounds].
  unfold parse_round.
  destruct (m_queue_out st) as [|nickname rest] eqn:Hq.
  - simpl. rewrite <- Hq. by destruct st.
  - cbn [m_cancelled set_queue_out tl]. by rewrite Hc.
Qed.

Lemma join_parsers_cancelled (aTable : FP_LIB_TABLE) (threads : nat) :
  forall st, m_cancelled st = true ->
  join_threads (parse_job aTable) threads st
  = (Returns tt,
     set_queue_out (Nat.iter threads (@tl wxString) (m_queue_out st)) st).
Proof.
  induction threads as [|threads IH]; intros st Hc.
  - simpl. by destruct st.
  - cbn [join_threads]. rewrite parse_job_cancelled by done.
    rewrite IH by done. cbn [m_queue_out set_queue_out].
    rewrite Nat.iter_succ_r. done.
Qed.

Lemma parse_rounds_cancelled (aTable : FP_LIB_TABLE) (jobs : nat)
    (st : FOOTPRINT_LIST_IMPL) :
  m_cancelled st = true ->
  exists q,
    pool_advance (parse_round aTable) jobs st
    = (Returns tt, set_queue_out q st).
Proof.
  intros Hc. unfold pool_advance. destruct jobs as [|jobs]; simpl.
  - exists (m_queue_out st). by destruct st.
  - unfold parse_round.
    destruct (m_queue_out st) as [|nickname rest] eqn:Hq.
    + exists []. rewrite <- Hq. by destruct st.
    + cbn [m_cancelled set_queue_out]. rewrite Hc. by exists rest.
Qed.

Lemma joinWorkers_cancelled (aTable : FP_LIB_TABLE) (parsing : SCHEDULE)
    (st : FOOTPRINT_LIST_IMPL) :
  m_cancelled st = true ->
  exists st',
    joinWorkers aTable parsing st
    = Done (match m_errors st with [] => true | _ => false end) st'
    /\ m_list st' = std_sort (m_list st)
    /\ m_errors st' = m_errors st
    /\ m_cancelled st' = true
    /\ m_list_timestamp st' = m_list_timestamp st
    /\ m_threads st' = 0%nat.
Proof.
  intros Hc. unfold joinWorkers.
  rewrite join_loaders_cancelled by done.
  match goal with
  | |- context [pool_advance ?r ?k ?s] =>
      destruct (parse_rounds_cancelled aTable k s) as [q ->]; [done|]
  end.
  rewrite wait_for_not_waiting by (cbn; by rewrite Hc).
  rewrite join_parsers_cancelled by done.
  eexists. split; [reflexivity|]. simpl. rewrite app_nil_r.
  split_and!; done.
Qed.

(** *** The properties *)

(** X4. [FOOTPRINT_INFO_IMPL::load] marks the entry as loaded and keeps its
    library nickname, its name and its order number. When the table has no
    such footprint the two pad counts become 0 and the description and the
    keywords stay as they were; otherwise the four fields are those of the
    footprint, the pads being counted without the non-plated holes.
    Loading an entry again changes nothing more. *)
Theorem load_fills_from_table
    (GetEnumeratedFootprint : wxString -> wxString -> option FOOTPRINT)
    (fpinfo : FOOTPRINT_INFO) :
  let loaded := load GetEnumeratedFootprint fpinfo in
  (m_loaded loaded = true
   /\ m_nickname loaded = m_nickname fpinfo
   /\ m_fpname loaded = m_fpname fpinfo
   /\ m_num loaded = m_num fpinfo)
  /\ (GetEnumeratedFootprint (m_nickname fpinfo) (m_fpname fpinfo) = None ->
      m_pad_count loaded = 0 /\ m_unique_pad_count loaded = 0
      /\ m_doc loaded = m_doc fpinfo
      /\ m_keywords loaded = m_keywords fpinfo)
  /\ (forall footprint,
        GetEnumeratedFootprint (m_nickname fpinfo) (m_fpname fpinfo)
          = Some footprint ->
        m_pad_count loaded
          = footprint_GetPadCount footprint DO_NOT_INCLUDE_NPTH
        /\ m_unique_pad_count loaded
           = footprint_GetUniquePadCount footprint DO_NOT_INCLUDE_NPTH
        /\ m_doc loaded = footprint_GetDescription footprint
        /\ m_keywords loaded = footprint_GetKeywords footprint)
  /\ load GetEnumeratedFootprint loaded = loaded.
Proof.
  intros loaded. subst loaded. unfold load.
  destruct (GetEnumeratedFootprint (m_nickname fpinfo) (m_fpname fpinfo))
    as [footprint|] eqn:E; cbn [m_nickname m_fpname]; rewrite E; simpl;
    split_and!; try done.
  intros ? [= <-]. done.
Qed.

(** X5. No [IO_ERROR] and no [std::exception] leaves [CatchErrors], a
    loader thread or a parsing thread: what leaves them is neither, and was
    thrown as such by the function wrapped, by [PrefetchLib], by
    [FootprintEnumerate] or by the construction of an entry. *)
Theorem threads_let_only_foreign_exceptions_out (aTable : FP_LIB_TABLE)
    (st : FOOTPRINT_LIST_IMPL) (e : exception) (st' : FOOTPRINT_LIST_IMPL) :
  (forall aFunc : THROWING unit,
     CatchErrors aFunc st = (Throws e, st') ->
     e = throw_other /\ aFunc st = (Throws throw_other, st'))
  /\ (loader_job aTable st = (Throws e, st') ->
      e = throw_other
      /\ exists nickname, PrefetchLib aTable nickname = Throws throw_other)
  /\ (parse_job aTable st = (Throws e, st') ->
      e = throw_other
      /\ ((exists nickname,
             snd (FootprintEnumerate aTable nickname) = Some throw_other)
          \/ exists nickname fpname,
               new_FOOTPRINT_INFO_IMPL aTable nickname fpname
               = Throws throw_other)).
Proof.
  split_and!.
  - intros aFunc. apply CatchErrors_throws.
  - unfold loader_job.
    apply (loop_rounds_throws _
             (fun e => e = throw_other
                       /\ exists nickname,
                            PrefetchLib aTable nickname = Throws throw_other)).
    apply loader_job_round_throws.
  - unfold parse_job.
    apply (loop_rounds_throws _
             (fun e => e = throw_other
                /\ ((exists nickname,
                       snd (FootprintEnumerate aTable nickname)
                       = Some throw_other)
                    \/ exists nickname fpname,
                         new_FOOTPRINT_INFO_IMPL aTable nickname fpname
                         = Throws throw_other))).
    apply parse_round_throws.
Qed.

(** X6. [stopWorkers] entered with the cancelled flag set, the loader
    threads being anywhere in their loops, and the threads and the caller
    taking their operations in any order. When [stopWorkers] returns, the
    libraries that a thread was fetching when it was entered have been
    gone through, and no other: those that could be fetched have been
    added to the output queue and the others have left their errors, in
    the order in which the threads came to the end of them. The list is
    as before, the timestamp is 0, the flag is still set, no thread is
    held, the input queue is empty and the counter is 0. When the table
    throws nothing but what the threads catch, [stopWorkers] can
    return. *)
Theorem stopWorkers_when_cancelled (aTable : FP_LIB_TABLE) (c0 : THREADS) :
  parsers c0 = [] ->
  m_cancelled (members c0) = true ->
  (forall moves c,
     run_moves aTable moves (stopWorkers_called c0) = Some c ->
     caller c = caller_left None ->
     exists done,
       done ≡ₚ List.flat_map fetching (loaders c0)
       /\ m_queue_out (members c)
          = m_queue_out (members c0) ++ List.filter (fetched aTable) done
       /\ m_errors (members c)
          = m_errors (members c0)
            ++ List.flat_map (fetch_errors aTable) done
       /\ m_list (members c) = m_list (members c0)
       /\ m_list_timestamp (members c) = 0
       /\ m_cancelled (members c) = true
       /\ loaders c = []
       /\ m_threads (members c) = 0%nat
       /\ m_queue_in (members c) = []
       /\ m_count_finished (members c) = 0)
  /\ (table_caught aTable ->
      exists moves c,
        run_moves aTable moves (stopWorkers_called c0) = Some c
        /\ caller c = caller_left None).
Proof.
  intros Hpar Hc0. split.
  - intros moves c Hrun Hres.
    destruct (stop_cancelled_result aTable c0 moves c Hpar Hc0 Hrun)
      as [Hs|Hs].
    + destruct Hs as (_ & _ & Hcaller & _). congruence.
    + destruct Hs as (_ & H2 & _ & H4 & H5 & H6 & H7 & H8 & H9
                      & done & Hd & Hout & Herr).
      exists done. split_and!; done.
  - intros Htable.
    destruct (stop_returns aTable c0 Htable) as (moves & c & Hrun & Hres & _).
    by exists moves, c.
Qed.

(** X7. [stopWorkers] does not set the cancelled flag. Entered while a
    loader thread has not left its loop, the threads and the caller taking
    their operations in any order, and returning with the flag clear, it
    has let the threads go through the whole input queue: the libraries
    that were queued or that a thread had taken off the queue have all
    been gone through, those that could be fetched have been added to the
    output queue and the others have left their errors, in the order in
    which the threads came to the end of them, which need not be the order
    of the queue. The list and the timestamp are kept, no thread is held,
    the input queue is empty and the counter is 0. When the table throws
    nothing but what the threads catch and the flag is clear, there is
    such a return. *)
Theorem stopWorkers_finishes_the_queue (aTable : FP_LIB_TABLE)
    (c0 : THREADS) :
  parsers c0 = [] ->
  forallb loader_has_left (loaders c0) = false ->
  (forall moves c,
     run_moves aTable moves (stopWorkers_called c0) = Some c ->
     caller c = caller_left None ->
     m_cancelled (members c) = false ->
     exists done,
       done ≡ₚ List.flat_map holding (loaders c0)
               ++ m_queue_in (members c0)
       /\ m_queue_out (members c)
          = m_queue_out (members c0) ++ List.filter (fetched aTable) done
       /\ m_errors (members c)
          = m_errors (members c0)
            ++ List.flat_map (fetch_errors aTable) done
       /\ m_list (members c) = m_list (members c0)
       /\ m_list_timestamp (members c) = m_list_timestamp (members c0)
       /\ loaders c = []
       /\ m_threads (members c) = 0%nat
       /\ m_queue_in (members c) = []
       /\ m_count_finished (members c) = 0)
  /\ (table_caught aTable ->
      m_cancelled (members c0) = false ->
      exists moves c,
        run_moves aTable moves (stopWorkers_called c0) = Some c
        /\ caller c = caller_left None
        /\ m_cancelled (members c) = false).
Proof.
  intros Hpar Hrunning. split.
  - intros moves c Hrun Hres Hc.
    destruct (stop_result aTable c0 moves c Hpar Hrun Hc) as [Hs|Hs].
    + destruct Hs as (_ & _ & Hcaller & _). congruence.
    + destruct Hs as (_ & H2 & _ & H4 & H5 & H6 & H7 & H8
                      & done & rest & Hd & Hout & Herr & Hrest).
      rewrite (Hrest Hrunning), app_nil_r in Hd.
      exists done. split_and!; done.
  - intros Htable Hc0.
    destruct (stop_returns aTable c0 Htable)
      as (moves & c & Hrun & Hres & Hc).
    exists moves, c. split_and!; try done. congruence.
Qed.

(** X8. [stopWorkers] called again on the list that it has left (as the
    destructor does after an abort) returns at once and changes nothing. *)
Theorem stopWorkers_twice (aTable : FP_LIB_TABLE)
    (st : FOOTPRINT_LIST_IMPL) (u : unit) (st' : FOOTPRINT_LIST_IMPL) :
  stopWorkers aTable st = Done u st' ->
  stopWorkers aTable st' = Done tt st'.
Proof.
  unfold stopWorkers at 1.
  destruct (join_threads _ _ st) as [[v|e] s] eqn:E; [|intros [=]].
  cbn [m_cancelled set_count_finished set_queue_in set_threads].
  destruct (m_cancelled s) eqn:Hc; intros [= _ <-];
    unfold stopWorkers; cbn [m_threads set_list_timestamp set_count_finished
                             set_queue_in set_threads join_threads];
    cbn [m_cancelled set_list_timestamp set_count_finished
         set_queue_in set_threads]; rewrite Hc; reflexivity.
Qed.

(** X9. With a table that throws nothing but [IO_ERROR]s and
    [std::exception]s and a list that holds no thread,
    [ReadFootprintFiles] never ends in [std::terminate], whatever the
    threads do and whether there is a reporter; and it returns as soon as
    the reporter asks to cancel at some round of either wait. *)
Theorem load_does_not_call_terminate (aTable : FP_LIB_TABLE)
    (aNickname : option wxString) (loading parsing : SCHEDULE)
    (st : FOOTPRINT_LIST_IMPL) :
  table_caught aTable ->
  m_threads st = 0%nat ->
  (forall aProgressReporter,
     ReadFootprintFiles aTable aNickname aProgressReporter loading parsing st
     <> Terminated)
  /\ (asks_to_cancel (rounds loading) ->
      asks_to_cancel (rounds parsing) ->
      exists ok st',
        ReadFootprintFiles aTable aNickname true loading parsing st
        = Done ok st').
Proof.
  intros Hc Hth. split.
  - intros rep. by apply load_quiet.
  - intros Hl Hp. by apply load_ends_when_cancel_is_requested.
Qed.

(** X10. What a load gives does not depend on the order in which the
    threads and the caller take their operations, up to the order of the
    errors and of the list handed to [std::sort]: whenever
    [ReadFootprintFiles] has loaded and returns with the cancelled flag
    clear, the list is [std::sort] of the entries built from the
    libraries that could be fetched, taken in some order, whatever the
    list held before; the errors are, in some order, those of the
    libraries that could not be fetched and those met while parsing; the
    generated timestamp is stored; and the result tells whether there is
    no error. When the table throws nothing but what the threads catch,
    the list holds no thread and the number of loader threads is not 0,
    there is such a return. *)
Theorem uncancelled_load_result (aTable : FP_LIB_TABLE)
    (aNickname : option wxString) (aProgressReporter : bool)
    (c0 : THREADS) :
  let libs := libraries_to_load aTable aNickname in
  let entries :=
    List.flat_map (parsed_of aTable) (List.filter (fetched aTable) libs) in
  let errors :=
    List.flat_map (fetch_errors aTable) libs
    ++ List.flat_map (parse_errors aTable)
         (List.filter (fetched aTable) libs) in
  Z.of_nat (length libs) < 2 ^ 31 ->
  GenerateTimestamp aTable aNickname <> m_list_timestamp (members c0) ->
  (forall c1 moves c result,
     ReadFootprintFiles_called aTable aNickname aProgressReporter c0
       = Some c1 ->
     run_moves aTable moves c1 = Some c ->
     caller c = caller_left result ->
     m_cancelled (members c) = false ->
     (exists fplist,
        fplist ≡ₚ entries /\ m_list (members c) = std_sort fplist)
     /\ m_errors (members c) ≡ₚ errors
     /\ m_list_timestamp (members c) = GenerateTimestamp aTable aNickname
     /\ result = Some (match errors with [] => true | _ => false end))
  /\ (table_caught aTable ->
      loaders c0 = [] ->
      DEFAULT_THREADS <> 0%nat ->
      exists c1 moves c result,
        ReadFootprintFiles_called aTable aNickname aProgressReporter c0
          = Some c1
        /\ run_moves aTable moves c1 = Some c
        /\ caller c = caller_left result
        /\ m_cancelled (members c) = false).
Proof.
  intros libs entries errors Hsmall Hne. split.
  - intros c1 moves c result Hcalled Hrun Hres Hc.
    destruct (load_result aTable aNickname aProgressReporter c0 c1 moves c
                result Hsmall Hne Hcalled Hrun Hres Hc)
      as (H1 & H2 & H3 & H4 & _).
    split_and!; done.
  - intros Htable Hnone Hthreads. by apply load_returns.
Qed.

(** X11. A call of [ReadFootprintFiles] that loads and returns had no
    thread to begin with and leaves none: the input queue is empty and the
    pointer to the reporter is the one given. Without a reporter nothing
    sets the cancelled flag, so that the load is complete and the
    generated timestamp is stored. *)
Theorem load_leaves_no_thread (aTable : FP_LIB_TABLE)
    (aNickname : option wxString) (aProgressReporter : bool)
    (loading parsing : SCHEDULE) (st : FOOTPRINT_LIST_IMPL) (ok : bool)
    (st' : FOOTPRINT_LIST_IMPL) :
  GenerateTimestamp aTable aNickname <> m_list_timestamp st ->
  ReadFootprintFiles aTable aNickname aProgressReporter loading parsing st
    = Done ok st' ->
  m_threads st = 0%nat
  /\ m_threads st' = 0%nat
  /\ m_queue_in st' = []
  /\ m_progress_reporter st' = aProgressReporter
  /\ (aProgressReporter = false ->
      m_cancelled st' = false
      /\ m_list_timestamp st' = GenerateTimestamp aTable aNickname).
Proof.
  intros Hne Hrun.
  destruct (load_leaves _ _ _ _ _ _ _ _ Hne Hrun) as (H1 & H2 & H3 & H4 & H5).
  split_and!; try done.
  intros Hno. split; [auto|].
  eapply load_stores_timestamp; [exact Hrun|auto].
Qed.

(** X12. After a call of [ReadFootprintFiles] that has returned with the
    cancelled flag clear, a further call with the same table and nickname
    returns true at once and leaves the list as it is, whatever the
    reporter and the threads would do, and also when the first call
    returned false and its errors are still in the list. *)
Theorem repeated_load_returns_at_once (aTable : FP_LIB_TABLE)
    (aNickname : option wxString) (aProgressReporter : bool)
    (loading parsing : SCHEDULE) (st : FOOTPRINT_LIST_IMPL) (ok : bool)
    (st' : FOOTPRINT_LIST_IMPL) :
  ReadFootprintFiles aTable aNickname aProgressReporter loading parsing st
    = Done ok st' ->
  m_cancelled st' = false ->
  forall aProgressReporter' loading' parsing',
    ReadFootprintFiles aTable aNickname aProgressReporter' loading' parsing'
      st' = Done true st'.
Proof.
  intros Hrun Hcan rep' loading' parsing'.
  pose proof (load_stores_timestamp _ _ _ _ _ _ _ _ Hrun Hcan) as Hts.
  unfold ReadFootprintFiles. by rewrite Hts, Z.eqb_refl.
Qed.

(** X13. [joinWorkers], called when the loader threads have left their
    loops, the parsing threads and the caller taking their operations in
    any order: if it returns with the cancelled flag clear, the list is
    [std::sort] of what the list held followed by the entries of the
    libraries of the output queue, these entries in some order; the
    errors are, in some order, those that were there and those met while
    parsing; the output queue is empty, no thread is left, and the result
    tells whether there is no error. When the table throws nothing but
    what the threads catch and the flag is clear at the call, there is
    such a return. *)
Theorem joinWorkers_result_without_cancel (aTable : FP_LIB_TABLE)
    (c0 : THREADS) :
  forallb loader_has_left (loaders c0) = true ->
  parsers c0 = [] ->
  Z.of_nat (length (m_queue_out (members c0))) < 2 ^ 64 ->
  (forall moves c result,
     run_moves aTable moves (joinWorkers_called c0) = Some c ->
     caller c = caller_left result ->
     m_cancelled (members c) = false ->
     (exists entries,
        entries ≡ₚ List.flat_map (parsed_of aTable)
                     (m_queue_out (members c0))
        /\ m_list (members c)
           = std_sort (m_list (members c0) ++ entries))
     /\ m_errors (members c)
        ≡ₚ m_errors (members c0)
           ++ List.flat_map (parse_errors aTable)
                (m_queue_out (members c0))
     /\ m_queue_out (members c) = []
     /\ loaders c = [] /\ parsers c = []
     /\ result = Some (match m_errors (members c) with
                       | [] => true
                       | _ => false
                       end))
  /\ (table_caught aTable ->
      m_cancelled (members c0) = false ->
      exists moves c result,
        run_moves aTable moves (joinWorkers_called c0) = Some c
        /\ caller c = caller_left result
        /\ m_cancelled (members c) = false).
Proof.
  intros Hleft Hpar Hsmall. split.
  - intros moves c result Hrun Hres Hc.
    destruct (join_facts aTable c0 moves c Hleft Hpar Hsmall Hrun Hc)
      as [->|Hj]; [done|].
    unfold joining_facts in Hj. rewrite Hres in Hj.
    destruct Hj as (H1 & H2 & H3 & H4 & H5 & H6 & _).
    split_and!; done.
  - intros Htable Hc0. by apply join_returns.
Qed.

(** X14. [ReadCacheFromFile] on any file: the lines after the first are
    taken by sevens, the entry [i] from the lines [7 i + 1] to [7 i + 7],
    for as many entries as the number of lines divided by 7 (rounded
    down), up to the first entry whose unescaping throws; a line missing
    at the end is read as the empty line. A file of fewer than seven lines,
    or none, gives the empty list and the timestamp 0. *)
Theorem ReadCacheFromFile_takes_lines_by_sevens (st : FOOTPRINT_LIST_IMPL) :
  (m_list (ReadCacheFromFile None st) = []
   /\ m_list_timestamp (ReadCacheFromFile None st) = 0)
  /\ forall lines : list wxString,
       let read := ReadCacheFromFile (Some lines) st in
       m_list read = take_entries lines 0 (length lines / 7)
       /\ (length (m_list read) <= length lines / 7)%nat
       /\ ((forall i, (i < length lines / 7)%nat ->
                      exists e, entry_at lines i = Returns e) ->
           length (m_list read) = (length lines / 7)%nat)
       /\ ((length lines < 7)%nat ->
           m_list read = [] /\ m_list_timestamp read = 0).
Proof.
  split; [done|]. intros lines read.
  assert (Hread : m_list read = take_entries lines 0 (length lines / 7)).
  { subst read. rewrite m_list_ReadCacheFromFile. unfold read_cache.
    assert (Hfirst : exists first,
              GetFirstLine {| m_aLines := lines; m_nCurLine := 0 |}
              = (first, {| m_aLines := lines; m_nCurLine := 0 |})).
    { unfold GetFirstLine. simpl. destruct lines; by eexists. }
    destruct Hfirst as [first ->].
    match goal with
    | |- context [read_entries ?fuel _ ?s] =>
        pose proof (read_entries_take lines fuel 0 s) as H
    end.
    change (7 * 0)%nat with 0%nat in H. rewrite Nat.sub_0_r in H.
    destruct (read_entries _ _ _) as [o [f' s']]. cbn [fst snd] in *.
    apply H. unfold GetLineCount. cbn [m_aLines].
    pose proof (Nat.div_mod_eq (length lines) 7). lia. }
  destruct (take_entries_length lines (length lines / 7) 0) as [Hle Heq].
  split_and!.
  - done.
  - by rewrite Hread.
  - intros Hall. rewrite Hread. apply Heq. intros j Hj. apply Hall. lia.
  - intros Hshort.
    assert (Hnil : m_list read = []).
    { rewrite Hread. by rewrite Nat.div_small. }
    split; [done|]. revert Hnil. subst read. unfold ReadCacheFromFile.
    destruct (read_cache _ _) as [[u|e] s]; simpl;
      destruct (length (m_list s) =? 0)%nat eqn:E; try done;
      intros Hnil; rewrite Hnil in E; done.
Qed.

(** X15. [ReadCacheFromFile] replaces the list and the timestamp by what
    the file gives, which does not depend on what the list held, and
    leaves every other member alone; reading the same file again changes
    nothing. *)
Theorem ReadCacheFromFile_replaces_list_and_timestamp
    (aFile : option (list wxString)) (st : FOOTPRINT_LIST_IMPL) :
  let fresh := ReadCacheFromFile aFile FOOTPRINT_LIST_IMPL_new in
  ReadCacheFromFile aFile st
  = set_list (m_list fresh) (set_list_timestamp (m_list_timestamp fresh) st)
  /\ ReadCacheFromFile aFile (ReadCacheFromFile aFile st)
     = ReadCacheFromFile aFile st.
Proof.
  destruct (ReadCacheFromFile_frame aFile) as (fplist & timestamp & H).
  intros fresh. subst fresh. rewrite !H. done.
Qed.

(** X16. Reading back the file that [WriteCacheToFile] has written, when
    no string written holds an end of line (nickname and name are written
    as they are, so that one with an end of line would shift the lines
    read): the timestamp comes back, converted to its line and back, when
    the list is not empty and no entry throws when it is unescaped, and
    the list then has as many entries as were written. An empty list
    comes back with the timestamp 0. When the unescaping of an entry
    throws, the entries before it stay in the list and the timestamp
    is 0. *)
Theorem written_cache_timestamp (st st0 : FOOTPRINT_LIST_IMPL) :
  Forall (fun s => line_safe s = true) (cache_lines st) ->
  let r := ReadCacheFromFile
             (wxTextFile_Open (WriteCacheToFile true true st)) st0 in
  (m_list st = [] -> m_list r = [] /\ m_list_timestamp r = 0)
  /\ (Forall (fun e => exists e', reread e = Returns e') (m_list st) ->
      m_list st <> [] ->
      length (m_list r) = length (m_list st)
      /\ m_list_timestamp r
         = snd (ToLongLong (Format_lld (m_list_timestamp st)) 0))
  /\ (Exists (fun e => exists ex, reread e = Throws ex) (m_list st) ->
      (length (m_list r) < length (m_list st))%nat
      /\ m_list_timestamp r = 0).
Proof.
  intros Hsafe r. subst r.
  rewrite (written_file_lines st Hsafe).
  unfold cache_lines, ReadCacheFromFile, read_cache.
  cbn [GetFirstLine m_aLines].
  set (ts := Format_lld (m_list_timestamp st)).
  set (stA := set_list_timestamp _ _).
  set (f := {| m_aLines := ts :: List.concat (List.map entry_lines (m_list st));
               m_nCurLine := 0 |}).
  assert (Hfuel : (length (m_list st) < S (GetLineCount f))%nat).
  { unfold GetLineCount, f. simpl.
    clear. induction (m_list st) as [|e es IH]; simpl; lia. }
  pose proof (read_entries_written (m_list st) [ts] 0 stA
                (S (GetLineCount f)) eq_refl Hfuel) as Hlist.
  pose proof (read_entries_written_ok (m_list st) [ts] 0 stA
                (S (GetLineCount f)) eq_refl Hfuel) as Hout.
  destruct (read_entries_appends (S (GetLineCount f)) f stA) as [added Hst].
  cbn [app] in Hlist, Hout. fold f in Hlist, Hout.
  destruct (read_entries (S (GetLineCount f)) f stA) as [o [f' s']].
  cbn [fst snd] in *. subst s'. cbn [m_list set_list] in Hlist.
  change (m_list stA) with (@nil FOOTPRINT_INFO) in Hlist.
  cbn [app] in Hlist.
  destruct (find_thrower (m_list st)) as [Hnone Hsome].
  split_and!.
  - intros Hnil. rewrite Hnil in *. simpl in Hlist, Hout. subst o.
    simpl. rewrite Hlist. done.
  - intros Hall Hne. rewrite (Hnone Hall) in Hout. subst o.
    pose proof (reread_all_ok _ Hall) as Hlen. rewrite <- Hlist in Hlen.
    change (m_list stA) with (@nil FOOTPRINT_INFO). cbn [app].
    rewrite <- Hlen.
    destruct (m_list st) as [|e es]; [done|].
    destruct added as [|x l]; [done|]. done.
  - intros Hex. destruct (Hsome Hex) as (e & ex & Hfind & He).
    rewrite Hfind, He in Hout. subst o. split.
    + change (m_list stA) with (@nil FOOTPRINT_INFO). cbn [app].
      match goal with
      | |- (length (m_list ?s) < _)%nat =>
          assert (m_list s = reread_all (m_list st)) as ->
      end.
      { rewrite <- Hlist. by destruct (_ =? _)%nat. }
      clear -Hex. induction Hex as [e es [ex He]|e es _ IH]; simpl.
      * rewrite He. simpl. lia.
      * destruct (reread e); simpl; lia.
    + by destruct (_ =? _)%nat.
Qed.

(** X17. With the cancelled flag set, [joinWorkers] returns whatever the
    table, the threads and the queues: nothing is parsed and no error is
    recorded, the list is what it was, sorted, the flag stays set and the
    timestamp is kept, no thread is held, and the result tells whether the
    list of errors, which is as before, is empty. *)
Theorem joinWorkers_when_cancelled (aTable : FP_LIB_TABLE)
    (parsing : SCHEDULE) (st : FOOTPRINT_LIST_IMPL) :
  m_cancelled st = true ->
  exists st',
    joinWorkers aTable parsing st
    = Done (match m_errors st with [] => true | _ => false end) st'
    /\ m_list st' = std_sort (m_list st)
    /\ m_errors st' = m_errors st
    /\ m_cancelled st' = true
    /\ m_list_timestamp st' = m_list_timestamp st
    /\ m_threads st' = 0%nat.
Proof. apply joinWorkers_cancelled. Qed.

(** X18. A call of [ReadFootprintFiles] that has loaded and returns with
    the cancelled flag set, whatever the order in which the threads and
    the caller have taken their operations, leaves the timestamp 0. When
    the timestamp generated from the table is not 0, the next call loads
    again, and if it returns with the flag clear it gives the complete
    result of X10 (the list up to the order handed to [std::sort], the
    errors up to their order, the generated timestamp), whatever the
    cancelled load has left in the list. When the timestamp generated from
    the table is itself 0, the next call returns true at once, with the
    list as the cancelled load has left it. *)
Theorem load_again_after_cancel (aTable : FP_LIB_TABLE)
    (aNickname : option wxString) (aProgressReporter : bool)
    (c0 c1 : THREADS) (moves : list MOVE) (c : THREADS)
    (result : option bool) :
  let libs := libraries_to_load aTable aNickname in
  let entries :=
    List.flat_map (parsed_of aTable) (List.filter (fetched aTable) libs) in
  let errors :=
    List.flat_map (fetch_errors aTable) libs
    ++ List.flat_map (parse_errors aTable)
         (List.filter (fetched aTable) libs) in
  Z.of_nat (length libs) < 2 ^ 31 ->
  GenerateTimestamp aTable aNickname <> m_list_timestamp (members c0) ->
  ReadFootprintFiles_called aTable aNickname aProgressReporter c0
    = Some c1 ->
  run_moves aTable moves c1 = Some c ->
  caller c = caller_left result ->
  m_cancelled (members c) = true ->
  m_list_timestamp (members c) = 0
  /\ (GenerateTimestamp aTable aNickname <> 0 ->
      forall aProgressReporter' c1' moves' c' result',
        ReadFootprintFiles_called aTable aNickname aProgressReporter' c
          = Some c1' ->
        run_moves aTable moves' c1' = Some c' ->
        caller c' = caller_left result' ->
        m_cancelled (members c') = false ->
        (exists fplist,
           fplist ≡ₚ entries /\ m_list (members c') = std_sort fplist)
        /\ m_errors (members c') ≡ₚ errors
        /\ m_list_timestamp (members c')
           = GenerateTimestamp aTable aNickname)
  /\ (GenerateTimestamp aTable aNickname = 0 ->
      forall aProgressReporter',
        ReadFootprintFiles_called aTable aNickname aProgressReporter' c
        = Some (caller_at (caller_left (Some true)) (members c) c)).
Proof.
  intros libs entries errors Hsmall Hne Hcalled Hrun Hres Hc.
  destruct (load_ends aTable aNickname aProgressReporter c0 c1 moves c
              result Hne Hcalled Hrun Hres) as (_ & _ & Hts).
  rewrite Hc in Hts. split; [done|]. split.
  - intros Hnz rep' c1' moves' c' result' Hcalled' Hrun' Hres' Hc'.
    destruct (load_result aTable aNickname rep' c c1' moves' c' result'
                Hsmall ltac:(by rewrite Hts) Hcalled' Hrun' Hres' Hc')
      as (H1 & H2 & H3 & _).
    split_and!; done.
  - intros Hz rep'. unfold ReadFootprintFiles_called.
    by rewrite Hts, Hz.
Qed.

End FootprintFurther.

(** *** The properties on concrete inputs *)

(** Two threads that are fetching when the load is cancelled come to the
    end of their library: the output queue gains the one and the errors
    that of the other after the flag is set. The third library is not
    fetched. *)
Example load_cancelled_while_fetching :
  exists c1 c,
    ReadFootprintFiles_called (X := sample_externals) sample_table None
      true (at_rest FOOTPRINT_LIST_IMPL_new) = Some c1
    /\ run_moves (X := sample_externals) sample_table cancelled_load_moves c1
       = Some c
    /\ caller c = caller_left (Some false)
    /\ m_cancelled (members c) = true
    /\ m_queue_out (members c) = ["Resistor_SMD"]
    /\ m_errors (members c) = [ {| Problem := "cannot read Broken" |} ]
    /\ m_list (members c) = []
    /\ m_list_timestamp (members c) = 0.
Proof.
  do 2 eexists. split; [vm_compute; reflexivity|].
  split; [vm_compute; reflexivity|]. vm_compute. repeat split.
Qed.

(** A load cancelled between the two entries of a library leaves the
    first one in the list. *)
Example load_cancelled_between_entries :
  exists c1 c,
    ReadFootprintFiles_called (X := sample_externals) sample_table None
      true (at_rest FOOTPRINT_LIST_IMPL_new) = Some c1
    /\ run_moves (X := sample_externals) sample_table half_parsed_moves c1
       = Some c
    /\ caller c = caller_left (Some false)
    /\ m_cancelled (members c) = true
    /\ List.map m_fpname (m_list (members c)) = ["R_0402"]
    /\ m_list_timestamp (members c) = 0.
Proof.
  do 2 eexists. split; [vm_compute; reflexivity|].
  split; [vm_compute; reflexivity|]. vm_compute. repeat split.
Qed.

Lemma load_fills_from_table_witness :
  let known := FOOTPRINT_INFO_IMPL "Resistor_SMD" "R_0402" "" "" 1 0 0 in
  let unknown := FOOTPRINT_INFO_IMPL "Resistor_SMD" "R_9999" "d" "k" 2 4 4 in
  sample_footprints (m_nickname unknown) (m_fpname unknown) = None
  /\ sample_footprints (m_nickname known) (m_fpname known) <> None
  /\ (m_pad_count (load sample_footprints unknown) = 0
      /\ m_unique_pad_count (load sample_footprints unknown) = 0
      /\ m_doc (load sample_footprints unknown) = "d"
      /\ m_keywords (load sample_footprints unknown) = "k")
  /\ m_doc (load sample_footprints known) = "0402 chip resistor".
Proof.
  intros known unknown.
  assert (Hnone : sample_footprints (m_nickname unknown) (m_fpname unknown)
                  = None) by reflexivity.
  split; [exact Hnone|]. split; [discriminate|]. split.
  - exact (proj1 (proj2 (load_fills_from_table sample_footprints unknown))
             Hnone).
  - reflexivity.
Defined.

Lemma threads_let_only_foreign_exceptions_out_witness :
  let st := set_queue_in ["Odd"] FOOTPRINT_LIST_IMPL_new in
  loader_job (X := sample_externals) foreign_table st
    = (Throws throw_other, set_queue_in [] st)
  /\ exists nickname, PrefetchLib foreign_table nickname = Throws throw_other.
Proof.
  intros st.
  assert (Hrun : loader_job (X := sample_externals) foreign_table st
                 = (Throws throw_other, set_queue_in [] st)) by reflexivity.
  split; [exact Hrun|].
  exact (proj2 (proj1 (proj2 (threads_let_only_foreign_exceptions_out
                                (X := sample_externals) foreign_table st
                                throw_other (set_queue_in [] st))) Hrun)).
Defined.

Lemma stopWorkers_when_cancelled_witness :
  parsers (busy_threads true) = []
  /\ m_cancelled (members (busy_threads true)) = true
  /\ exists c,
       run_moves (X := sample_externals) sample_table stop_moves
         (stopWorkers_called (busy_threads true)) = Some c
       /\ caller c = caller_left None
       /\ m_queue_out (members c) = ["Resistor_SMD"]
       /\ m_list_timestamp (members c) = 0
       /\ exists done,
            done ≡ₚ List.flat_map fetching (loaders (busy_threads true))
            /\ m_queue_out (members c)
               = m_queue_out (members (busy_threads true))
                 ++ List.filter (fetched sample_table) done.
Proof.
  split; [reflexivity|]. split; [reflexivity|].
  destruct (run_moves (X := sample_externals) sample_table stop_moves
              (stopWorkers_called (busy_threads true)))
    as [c|] eqn:Hrun; [|vm_compute in Hrun; discriminate Hrun].
  exists c. split; [reflexivity|].
  assert (Hres : caller c = caller_left None
                 /\ m_queue_out (members c) = ["Resistor_SMD"]).
  { vm_compute in Hrun. injection Hrun as <-. split; reflexivity. }
  destruct Hres as [Hres Hout].
  destruct (proj1 (stopWorkers_when_cancelled (X := sample_externals)
                     sample_table (busy_threads true) eq_refl eq_refl)
              stop_moves c Hrun Hres)
    as (done & Hd & Ho & _ & _ & Hts & _).
  split; [exact Hres|]. split; [exact Hout|]. split; [exact Hts|].
  exists done. split; [exact Hd|exact Ho].
Defined.

Lemma stopWorkers_finishes_the_queue_witness :
  parsers (busy_threads false) = []
  /\ forallb loader_has_left (loaders (busy_threads false)) = false
  /\ exists c,
       run_moves (X := sample_externals) sample_table stop_moves
         (stopWorkers_called (busy_threads false)) = Some c
       /\ caller c = caller_left None
       /\ m_cancelled (members c) = false
       /\ m_queue_out (members c) = ["Resistor_SMD"; "Connector"]
       /\ m_errors (members c) = [ {| Problem := "cannot read Broken" |} ]
       /\ m_list_timestamp (members c) = 9
       /\ exists done,
            done ≡ₚ List.flat_map holding (loaders (busy_threads false))
                    ++ m_queue_in (members (busy_threads false))
            /\ m_queue_out (members c)
               = m_queue_out (members (busy_threads false))
                 ++ List.filter (fetched sample_table) done.
Proof.
  split; [reflexivity|]. split; [reflexivity|].
  destruct (run_moves (X := sample_externals) sample_table stop_moves
              (stopWorkers_called (busy_threads false)))
    as [c|] eqn:Hrun; [|vm_compute in Hrun; discriminate Hrun].
  exists c. split; [reflexivity|].
  assert (Hres : caller c = caller_left None
                 /\ m_cancelled (members c) = false
                 /\ m_queue_out (members c) = ["Resistor_SMD"; "Connector"]
                 /\ m_errors (members c)
                    = [ {| Problem := "cannot read Broken" |} ]).
  { vm_compute in Hrun. injection Hrun as <-. repeat split. }
  destruct Hres as (Hres & Hc & Hout & Herr).
  destruct (proj1 (stopWorkers_finishes_the_queue (X := sample_externals)
                     sample_table (busy_threads false) eq_refl eq_refl)
              stop_moves c Hrun Hres Hc)
    as (done & Hd & Ho & _ & _ & Hts & _).
  split; [exact Hres|]. split; [exact Hc|]. split; [exact Hout|].
  split; [exact Herr|]. split; [exact Hts|].
  exists done. split; [exact Hd|exact Ho].
Defined.

Lemma stopWorkers_twice_witness :
  exists st',
    stopWorkers (X := sample_externals) sample_table (busy_list false)
      = Done tt st'
    /\ stopWorkers (X := sample_externals) sample_table st' = Done tt st'.
Proof.
  destruct (stopWorkers (X := sample_externals) sample_table
              (busy_list false)) as [[] st'| |] eqn:Hrun;
    [|vm_compute in Hrun; discriminate Hrun..].
  exists st'. split; [reflexivity|].
  exact (stopWorkers_twice (X := sample_externals) sample_table
           (busy_list false) tt st' Hrun).
Defined.

Lemma load_does_not_call_terminate_witness :
  table_caught sample_table
  /\ m_threads FOOTPRINT_LIST_IMPL_new = 0%nat
  /\ asks_to_cancel (rounds cancelling_schedule)
  /\ ReadFootprintFiles (X := sample_externals) sample_table None true
       (loading_schedule true) parsing_schedule FOOTPRINT_LIST_IMPL_new
     <> Terminated
  /\ exists ok st',
       ReadFootprintFiles (X := sample_externals) sample_table None true
         cancelling_schedule cancelling_schedule FOOTPRINT_LIST_IMPL_new
       = Done ok st'.
Proof.
  assert (Hasks : asks_to_cancel (rounds cancelling_schedule))
    by (apply Exists_cons_hd; reflexivity).
  split; [exact sample_table_caught|]. split; [reflexivity|].
  split; [exact Hasks|]. split.
  - exact (proj1 (load_does_not_call_terminate (X := sample_externals)
                    sample_table None (loading_schedule true)
                    parsing_schedule FOOTPRINT_LIST_IMPL_new
                    sample_table_caught eq_refl) true).
  - exact (proj2 (load_does_not_call_terminate (X := sample_externals)
                    sample_table None cancelling_schedule
                    cancelling_schedule FOOTPRINT_LIST_IMPL_new
                    sample_table_caught eq_refl) Hasks Hasks).
Defined.

Lemma uncancelled_load_result_witness :
  Z.of_nat (length (libraries_to_load sample_table None)) < 2 ^ 31
  /\ GenerateTimestamp sample_table None
     <> m_list_timestamp (members (at_rest FOOTPRINT_LIST_IMPL_new))
  /\ exists c1 c,
       ReadFootprintFiles_called (X := sample_externals) sample_table None
         true (at_rest FOOTPRINT_LIST_IMPL_new) = Some c1
       /\ run_moves (X := sample_externals) sample_table sample_load_moves c1
          = Some c
       /\ caller c = caller_left (Some false)
       /\ m_cancelled (members c) = false
       /\ List.map m_fpname (m_list (members c))
          = ["J1"; "R_0402"; "R_0603"]
       /\ m_errors (members c) ≡ₚ [ {| Problem := "cannot read Broken" |} ]
       /\ m_list_timestamp (members c) = 1700.
Proof.
  assert (Hsmall : Z.of_nat (length (libraries_to_load sample_table None))
                   < 2 ^ 31) by (simpl; lia).
  assert (Hne : GenerateTimestamp sample_table None
                <> m_list_timestamp
                     (members (at_rest FOOTPRINT_LIST_IMPL_new)))
    by (simpl; discriminate).
  split; [exact Hsmall|]. split; [exact Hne|].
  destruct (ReadFootprintFiles_called (X := sample_externals) sample_table
              None true (at_rest FOOTPRINT_LIST_IMPL_new))
    as [c1|] eqn:Hcalled; [|vm_compute in Hcalled; discriminate Hcalled].
  assert (Hrun : exists c,
            run_moves (X := sample_externals) sample_table
              sample_load_moves c1 = Some c
            /\ caller c = caller_left (Some false)
            /\ m_cancelled (members c) = false
            /\ List.map m_fpname (m_list (members c))
               = ["J1"; "R_0402"; "R_0603"]).
  { pose proof Hcalled as H. vm_compute in H. injection H as <-.
    vm_compute. eexists. split; [reflexivity|]. repeat split. }
  destruct Hrun as (c & Hrun & Hres & Hc & Hlist).
  exists c1, c. split; [reflexivity|].
  destruct (proj1 (uncancelled_load_result (X := sample_externals)
                     sample_table None true
                     (at_rest FOOTPRINT_LIST_IMPL_new) Hsmall Hne)
              c1 sample_load_moves c (Some false) Hcalled Hrun Hres Hc)
    as (_ & Herr & Hts & _).
  repeat split; assumption.
Defined.

Lemma load_leaves_no_thread_witness :
  GenerateTimestamp sample_table None
    <> m_list_timestamp FOOTPRINT_LIST_IMPL_new
  /\ exists ok st',
       ReadFootprintFiles (X := sample_externals) sample_table None false
         (loading_schedule false) parsing_schedule FOOTPRINT_LIST_IMPL_new
       = Done ok st'
       /\ m_threads st' = 0%nat
       /\ m_queue_in st' = []
       /\ m_cancelled st' = false
       /\ m_list_timestamp st' = 1700.
Proof.
  assert (H2 : GenerateTimestamp sample_table None
               <> m_list_timestamp FOOTPRINT_LIST_IMPL_new)
    by (simpl; discriminate).
  split; [exact H2|].
  destruct (ReadFootprintFiles (X := sample_externals) sample_table None false
              (loading_schedule false) parsing_schedule
              FOOTPRINT_LIST_IMPL_new) as [ok st'| |] eqn:Hrun;
    [|vm_compute in Hrun; discriminate Hrun..].
  destruct (load_leaves_no_thread (X := sample_externals) sample_table None
              false (loading_schedule false) parsing_schedule
              FOOTPRINT_LIST_IMPL_new ok st' H2 Hrun)
    as (_ & Hth & Hq & _ & Hno).
  destruct (Hno eq_refl) as [Hcan Hts].
  exists ok, st'. split; [reflexivity|]. split; [exact Hth|].
  split; [exact Hq|]. split; [exact Hcan|exact Hts].
Defined.

Lemma repeated_load_returns_at_once_witness :
  exists ok st',
    ReadFootprintFiles (X := sample_externals) sample_table None true
      (loading_schedule true) parsing_schedule FOOTPRINT_LIST_IMPL_new
    = Done ok st'
    /\ ok = false
    /\ m_cancelled st' = false
    /\ ReadFootprintFiles (X := sample_externals) sample_table None false
         cancelling_schedule prompt_schedule st'
       = Done true st'.
Proof.
  destruct (ReadFootprintFiles (X := sample_externals) sample_table None true
              (loading_schedule true) parsing_schedule
              FOOTPRINT_LIST_IMPL_new) as [ok st'| |] eqn:Hrun;
    [|vm_compute in Hrun; discriminate Hrun..].
  assert (Hfacts : ok = false /\ m_cancelled st' = false).
  { vm_compute in Hrun. injection Hrun as <- <-. split; reflexivity. }
  destruct Hfacts as [Hok Hcan].
  exists ok, st'. split; [reflexivity|]. split; [exact Hok|].
  split; [exact Hcan|].
  exact (repeated_load_returns_at_once (X := sample_externals) sample_table
           None true (loading_schedule true) parsing_schedule
           FOOTPRINT_LIST_IMPL_new ok st' Hrun Hcan
           false cancelling_schedule prompt_schedule).
Defined.

Lemma joinWorkers_result_without_cancel_witness :
  forallb loader_has_left (loaders fetched_threads) = true
  /\ parsers fetched_threads = []
  /\ Z.of_nat (length (m_queue_out (members fetched_threads))) < 2 ^ 64
  /\ exists c,
       run_moves (X := sample_externals) sample_table join_moves
         (joinWorkers_called fetched_threads) = Some c
       /\ caller c = caller_left (Some true)
       /\ m_cancelled (members c) = false
       /\ List.map m_fpname (m_list (members c))
          = ["J1"; "R_0402"; "R_0603"]
       /\ m_errors (members c) ≡ₚ []
       /\ m_queue_out (members c) = []
       /\ loaders c = [] /\ parsers c = [].
Proof.
  assert (Hsmall : Z.of_nat (length (m_queue_out (members fetched_threads)))
                   < 2 ^ 64) by (simpl; lia).
  split; [reflexivity|]. split; [reflexivity|]. split; [exact Hsmall|].
  destruct (run_moves (X := sample_externals) sample_table join_moves
              (joinWorkers_called fetched_threads))
    as [c|] eqn:Hrun; [|vm_compute in Hrun; discriminate Hrun].
  exists c. split; [reflexivity|].
  assert (Hres : caller c = caller_left (Some true)
                 /\ m_cancelled (members c) = false
                 /\ List.map m_fpname (m_list (members c))
                    = ["J1"; "R_0402"; "R_0603"]).
  { vm_compute in Hrun. injection Hrun as <-. repeat split. }
  destruct Hres as (Hres & Hc & Hlist).
  destruct (proj1 (joinWorkers_result_without_cancel
                     (X := sample_externals) sample_table fetched_threads
                     eq_refl eq_refl Hsmall)
              join_moves c (Some true) Hrun Hres Hc)
    as (_ & Herr & Hout & Hl & Hp & _).
  repeat split; assumption.
Defined.

Lemma ReadCacheFromFile_takes_lines_by_sevens_witness :
  let lines := ["12"; "lib"; "fp"; "doc"; "kw"; "1"; "2"] in
  (forall i, (i < length lines / 7)%nat ->
             exists e, entry_at (X := sample_externals) lines i = Returns e)
  /\ length (m_list (ReadCacheFromFile (X := sample_externals) (Some lines)
                       FOOTPRINT_LIST_IMPL_new)) = 1%nat.
Proof.
  intros lines.
  assert (H : forall i, (i < length lines / 7)%nat ->
                exists e, entry_at (X := sample_externals) lines i
                          = Returns e).
  { intros i Hi. change (length lines / 7)%nat with 1%nat in Hi.
    assert (i = 0%nat) as -> by lia. eexists. reflexivity. }
  split; [exact H|].
  exact (proj1 (proj2 (proj2 (proj2
           (ReadCacheFromFile_takes_lines_by_sevens (X := sample_externals)
              FOOTPRINT_LIST_IMPL_new) lines))) H).
Defined.

Lemma written_cache_timestamp_witness :
  let st := set_list
              [ FOOTPRINT_INFO_IMPL "lib" "fp" "a resistor" "res smd" 3 4 2 ]
              (set_list_timestamp 77 FOOTPRINT_LIST_IMPL_new) in
  Forall (fun s => line_safe s = true)
    (cache_lines (X := sample_externals) st)
  /\ Forall (fun e => exists e',
               reread (X := sample_externals) e = Returns e')
       (m_list st)
  /\ m_list st <> []
  /\ m_list_timestamp
       (ReadCacheFromFile (X := sample_externals)
          (wxTextFile_Open
             (WriteCacheToFile (X := sample_externals) true true st))
          FOOTPRINT_LIST_IMPL_new) = 77.
Proof.
  intros st.
  assert (H0 : Forall (fun s => line_safe s = true)
                 (cache_lines (X := sample_externals) st)).
  { repeat constructor. }
  assert (H1 : Forall (fun e => exists e',
                         reread (X := sample_externals) e = Returns e')
                 (m_list st)).
  { repeat constructor. eexists. reflexivity. }
  assert (H2 : m_list st <> []) by discriminate.
  split; [exact H0|]. split; [exact H1|]. split; [exact H2|].
  exact (proj2 (proj1 (proj2 (written_cache_timestamp (X := sample_externals)
                                st FOOTPRINT_LIST_IMPL_new H0)) H1 H2)).
Defined.

Lemma joinWorkers_when_cancelled_witness :
  m_cancelled (busy_list true) = true
  /\ exists st',
       joinWorkers (X := sample_externals) sample_table parsing_schedule
         (busy_list true) = Done true st'
       /\ m_list st' = []
       /\ m_cancelled st' = true.
Proof.
  split; [reflexivity|].
  destruct (joinWorkers_when_cancelled (X := sample_externals) sample_table
              parsing_schedule (busy_list true) eq_refl)
    as (st' & Hrun & Hlist & _ & Hcan & _).
  exists st'. split; [exact Hrun|]. split; [exact Hlist|exact Hcan].
Defined.

Lemma load_again_after_cancel_witness :
  Z.of_nat (length (libraries_to_load sample_table None)) < 2 ^ 31
  /\ GenerateTimestamp sample_table None
     <> m_list_timestamp (members (at_rest FOOTPRINT_LIST_IMPL_new))
  /\ exists c1 c,
       ReadFootprintFiles_called (X := sample_externals) sample_table None
         true (at_rest FOOTPRINT_LIST_IMPL_new) = Some c1
       /\ run_moves (X := sample_externals) sample_table half_parsed_moves c1
          = Some c
       /\ caller c = caller_left (Some false)
       /\ m_cancelled (members c) = true
       /\ List.map m_fpname (m_list (members c)) = ["R_0402"]
       /\ m_list_timestamp (members c) = 0
       /\ GenerateTimestamp sample_table None <> 0
       /\ exists c1' c',
            ReadFootprintFiles_called (X := sample_externals) sample_table
              None true c = Some c1'
            /\ run_moves (X := sample_externals) sample_table
                 sample_load_moves c1' = Some c'
            /\ caller c' = caller_left (Some false)
            /\ m_cancelled (members c') = false
            /\ List.map m_fpname (m_list (members c'))
               = ["J1"; "R_0402"; "R_0603"]
            /\ m_list_timestamp (members c') = 1700.
Proof.
  assert (Hsmall : Z.of_nat (length (libraries_to_load sample_table None))
                   < 2 ^ 31) by (simpl; lia).
  assert (Hne : GenerateTimestamp sample_table None
                <> m_list_timestamp
                     (members (at_rest FOOTPRINT_LIST_IMPL_new)))
    by (simpl; discriminate).
  assert (Hnz : GenerateTimestamp sample_table None <> 0)
    by (simpl; discriminate).
  split; [exact Hsmall|]. split; [exact Hne|].
  destruct (ReadFootprintFiles_called (X := sample_externals) sample_table
              None true (at_rest FOOTPRINT_LIST_IMPL_new))
    as [c1|] eqn:Hcalled; [|vm_compute in Hcalled; discriminate Hcalled].
  destruct (run_moves (X := sample_externals) sample_table
              half_parsed_moves c1)
    as [c|] eqn:Hrun;
    [|vm_compute in Hcalled; injection Hcalled as <-;
      vm_compute in Hrun; discriminate Hrun].
  destruct (ReadFootprintFiles_called (X := sample_externals) sample_table
              None true c)
    as [c1'|] eqn:Hcalled';
    [|vm_compute in Hcalled; injection Hcalled as <-;
      vm_compute in Hrun; injection Hrun as <-;
      vm_compute in Hcalled'; discriminate Hcalled'].
  destruct (run_moves (X := sample_externals) sample_table
              sample_load_moves c1')
    as [c'|] eqn:Hrun';
    [|vm_compute in Hcalled; injection Hcalled as <-;
      vm_compute in Hrun; injection Hrun as <-;
      vm_compute in Hcalled'; injection Hcalled' as <-;
      vm_compute in Hrun'; discriminate Hrun'].
  assert (Hc : caller c = caller_left (Some false)
               /\ m_cancelled (members c) = true
               /\ List.map m_fpname (m_list (members c)) = ["R_0402"]
               /\ caller c' = caller_left (Some false)
               /\ m_cancelled (members c') = false
               /\ List.map m_fpname (m_list (members c'))
                  = ["J1"; "R_0402"; "R_0603"]).
  { vm_compute in Hcalled; injection Hcalled as <-.
    vm_compute in Hrun; injection Hrun as <-.
    vm_compute in Hcalled'; injection Hcalled' as <-.
    vm_compute in Hrun'; injection Hrun' as <-.
    repeat split. }
  destruct Hc as (Hres & Hc & Hlist & Hres' & Hc' & Hlist').
  exists c1, c. split; [reflexivity|].
  destruct (load_again_after_cancel (X := sample_externals) sample_table
              None true (at_rest FOOTPRINT_LIST_IMPL_new) c1
              half_parsed_moves c (Some false) Hsmall Hne Hcalled Hrun Hres
              Hc)
    as (Hts & Hagain & _).
  destruct (Hagain Hnz true c1' sample_load_moves c' (Some false) Hcalled'
              Hrun' Hres' Hc')
    as (_ & _ & Hts').
  split; [exact Hrun|]. split; [exact Hres|]. split; [exact Hc|].
  split; [exact Hlist|]. split; [exact Hts|]. split; [exact Hnz|].
  exists c1', c'. repeat split; assumption.
Defined.
